(** * DollyBot: indicator engine, candidate filter and trade lifecycle

    A shallow embedding of the deterministic core of the bot:
      - [src/evaluation/calculator.js]  (R-multiple and outcome),
      - [src/evaluation/checker.js]     (SL/TP/timeout scan of a triggered signal),
      - [src/scanner/marketData.js]     (post-processing of a fetched response),
      - [src/indicators/ema.js], [rsi.js], [swings.js],
      - [src/scanner/prefilter.js].

    Numbers.  A JavaScript number is modelled by an exact rational [Q]; a
    cell that holds [NaN], [undefined] or [null] is an [option Q] with
    [None].  Comparisons are the boolean tests of the source, arithmetic is
    exact (no rounding of binary64 is modelled).  Timestamps are the
    millisecond values of [new Date(...)], an integer [Z].  Loops over an
    index are folds over [seq], array writes are list updates. *)

From Stdlib Require Import QArith Qabs Qround Qminmax ZArith List String Lia Lqa.
From Stdlib Require Import Sorting.Sorted Sorting.Permutation DecimalString.
From stdpp Require Import base list strings.

Open Scope Q_scope.

(* ================================================================== *)
(** ** JavaScript number helpers                                        *)
(* ================================================================== *)

(** [a <= b], [a < b], [a >= b], [a > b] and [a === b] on finite numbers. *)
Definition leb (a b : Q) : bool := Qle_bool a b.
Definition ltb (a b : Q) : bool := negb (Qle_bool b a).
Definition geb (a b : Q) : bool := Qle_bool b a.
Definition gtb (a b : Q) : bool := negb (Qle_bool a b).
Definition eqb (a b : Q) : bool := Qeq_bool a b.

(** [Math.round(x)]: the integer nearest to [x], ties towards +infinity. *)
Definition Math_round (x : Q) : Q := inject_Z (Qfloor (x + (1 # 2))).

(** [`${n}`] for a non-negative integer. *)
Definition string_of_nat (n : nat) : string :=
  NilZero.string_of_uint (Nat.to_uint n).

(** A literal number of elements, as a rational. *)
Definition Qnat (n : nat) : Q := inject_Z (Z.of_nat n).

(* ================================================================== *)
(** ** Data model                                                       *)
(* ================================================================== *)

Module Candle.
Record t := mk
    { time : Z; open : Q; high : Q; low : Q; close : Q; volume : Q }.
End Candle.

Module Signal.
Record t := mk
    { id : Z;
      entry : Q;
      stop_loss : Q;
      take_profits : list Q;
      direction : string;
      triggered_at : Z }.
End Signal.

Module OutcomeDetail.
Record t := mk
    { hit : string; rr : Q; hitPrice : Q; hitTime : Z }.
End OutcomeDetail.

(** The write [updateSignalStatus(id, status, {closed_at, outcome,
    outcome_detail})] performed when a triggered signal closes. *)
Module Update.
Record t := mk
    { status : string;
      closed_at : Z;
      outcome : string;
      outcome_detail : OutcomeDetail.t }.
End Update.

(** [config.evaluation]. *)
Module Config.
Record t := mk { timeoutCandles : nat; expirationCandles : nat }.
End Config.

(* ================================================================== *)
(** ** evaluation/calculator.js                                         *)
(* ================================================================== *)

Definition calculateRMultiple
    (signal : Signal.t) (hitPrice : Q) (hitType : string) : Q :=
  let entry := Signal.entry signal in
  let stop_loss := Signal.stop_loss signal in
  let direction := Signal.direction signal in
  let R := Qabs (entry - stop_loss) in
  if eqb R 0 then 0
  else if String.eqb hitType "sl" then -1
  else if String.eqb hitType "timeout" then 0
  else if String.prefix "tp" hitType then
    if String.eqb direction "long" then
      let profit := hitPrice - entry in profit / R
    else if String.eqb direction "short" then
      let profit := entry - hitPrice in profit / R
    else 0
  else 0.

Definition determineOutcome (hitType : string) (rMultiple : Q) : string :=
  if String.eqb hitType "timeout" then "timeout"
  else if String.eqb hitType "sl" then "loss"
  else if String.prefix "tp" hitType then
    if gtb rMultiple 0 then "win"
    else if eqb rMultiple 0 then "breakeven"
    else "loss"
  else "timeout".

Definition createOutcomeDetail
    (hitType : string) (rMultiple hitPrice : Q) (hitTime : Z)
  : OutcomeDetail.t :=
  {| OutcomeDetail.hit := hitType;
     OutcomeDetail.rr := Math_round (rMultiple * 100) / 100;
     OutcomeDetail.hitPrice := hitPrice;
     OutcomeDetail.hitTime := hitTime |}.

(* ================================================================== *)
(** ** scanner/marketData.js: what [fetchCandles] does with a response  *)
(* ================================================================== *)

(** The per-candle checks of [validateCandles]; [true] when no error is
    thrown.  The closing [isNaN] test never fires on a finite number. *)
Definition validCandle (candle : Candle.t) : bool :=
  let o := Candle.open candle in
  let h := Candle.high candle in
  let l := Candle.low candle in
  let c := Candle.close candle in
  if leb o 0 || leb h 0 || leb l 0 || leb c 0 then false
  else if ltb h l then false
  else if ltb h o || ltb h c then false
  else if gtb l o || gtb l c then false
  else true.

Definition validateCandles (candles : list Candle.t) : bool :=
  forallb validCandle candles.

(** [fetchCandles] applied to the [values] array of one API response
    (newest first, already parsed): the array is reversed, then rejected
    when it has fewer than 50 entries or fails [validateCandles].  [None]
    stands for the thrown [MarketDataError]. *)
Definition fetchCandles (values : list Candle.t) : option (list Candle.t) :=
  let candles := rev values in
  if (length candles <? 50)%nat then None
  else if validateCandles candles then Some candles
  else None.

(* ================================================================== *)
(** ** evaluation/checker.js: [checkTriggeredSignal]                    *)
(* ================================================================== *)

Definition slHit (signal : Signal.t) (candle : Candle.t) : bool :=
  if String.eqb (Signal.direction signal) "long"
  then leb (Candle.low candle) (Signal.stop_loss signal)
  else geb (Candle.high candle) (Signal.stop_loss signal).

Definition tpHit (signal : Signal.t) (candle : Candle.t) (tp : Q) : bool :=
  if String.eqb (Signal.direction signal) "long"
  then geb (Candle.high candle) tp
  else leb (Candle.low candle) tp.

(** The update written when the stop loss is hit on [candle]. *)
Definition slUpdate (signal : Signal.t) (candle : Candle.t) : Update.t :=
  let stop_loss := Signal.stop_loss signal in
  let rMultiple := calculateRMultiple signal stop_loss "sl" in
  let outcome := determineOutcome "sl" rMultiple in
  {| Update.status := outcome;
     Update.closed_at := Candle.time candle;
     Update.outcome := outcome;
     Update.outcome_detail :=
       createOutcomeDetail "sl" rMultiple stop_loss (Candle.time candle) |}.

(** The update written when take profit number [i] (0-based), of price
    [tp], is hit on [candle]. *)
Definition tpUpdate
    (signal : Signal.t) (candle : Candle.t) (i : nat) (tp : Q) : Update.t :=
  let hitType := ("tp" ++ string_of_nat (i + 1))%string in
  let rMultiple := calculateRMultiple signal tp hitType in
  let outcome := determineOutcome hitType rMultiple in
  {| Update.status := outcome;
     Update.closed_at := Candle.time candle;
     Update.outcome := outcome;
     Update.outcome_detail :=
       createOutcomeDetail hitType rMultiple tp (Candle.time candle) |}.

(** The inner loop [for (let i = 0; i < take_profits.length; i++)],
    entered at index [i] with [tps] the entries from [i] on. *)
Fixpoint checkTPs
    (signal : Signal.t) (candle : Candle.t) (i : nat) (tps : list Q)
  : option Update.t :=
  match tps with
  | [] => None
  | tp :: rest =>
      if tpHit signal candle tp then Some (tpUpdate signal candle i tp)
      else checkTPs signal candle (S i) rest
  end.

(** The outer loop [for (const candle of candlesAfterTrigger)]; it returns
    at the first candle on which something is hit. *)
Fixpoint scanCandles (signal : Signal.t) (candles : list Candle.t)
  : option Update.t :=
  match candles with
  | [] => None
  | candle :: rest =>
      if slHit signal candle then Some (slUpdate signal candle)
      else
        match checkTPs signal candle 0 (Signal.take_profits signal) with
        | Some u => Some u
        | None => scanCandles signal rest
        end
  end.

Definition candlesAfterTrigger
    (signal : Signal.t) (candles : list Candle.t) : list Candle.t :=
  List.filter
    (fun c => (Signal.triggered_at signal <? Candle.time c)%Z) candles.

(** The update written on timeout, from the last candle after trigger. *)
Definition timeoutUpdate (signal : Signal.t) (lastCandle : Candle.t)
  : Update.t :=
  let currentPrice := Candle.close lastCandle in
  let rMultiple := calculateRMultiple signal currentPrice "timeout" in
  {| Update.status := "timeout";
     Update.closed_at := Candle.time lastCandle;
     Update.outcome := "timeout";
     Update.outcome_detail :=
       createOutcomeDetail "timeout" rMultiple currentPrice
         (Candle.time lastCandle) |}.

(** [checkTriggeredSignal(signal)] once [fetchCandles] has returned
    [candles]: [Some u] is the single status update it writes, [None] means
    the signal is left untouched. *)
Definition checkTriggeredSignal
    (config : Config.t) (signal : Signal.t) (candles : list Candle.t)
  : option Update.t :=
  let after := candlesAfterTrigger signal candles in
  if (length after =? 0)%nat then None
  else
    match scanCandles signal after with
    | Some u => Some u
    | None =>
        let candlesSinceTrigger := length after in
        if (Config.timeoutCandles config <=? candlesSinceTrigger)%nat then
          match last after with
          | Some lastCandle => Some (timeoutUpdate signal lastCandle)
          | None => None
          end
        else None
    end.

(** A bar fires when its stop-loss test or one of its take-profit tests
    succeeds. *)
Definition fires (signal : Signal.t) (candle : Candle.t) : bool :=
  slHit signal candle
  || existsb (tpHit signal candle) (Signal.take_profits signal).



Definition ascendingTime (l : list Candle.t) : Prop :=
  StronglySorted (fun a b => (Candle.time a <= Candle.time b)%Z) l.

(* ================================================================== *)
(** ** Array cells                                                      *)
(* ================================================================== *)

(** A cell of a numeric array, or a numeric local variable: [None] is
    [NaN] (an [undefined] read behaves as [NaN] in arithmetic).  The
    operators propagate [NaN] as JavaScript does. *)
Definition num := option Q.

Definition NaN : num := None.

Definition nadd (a b : num) : num :=
  match a, b with Some x, Some y => Some (x + y) | _, _ => NaN end.
Definition nsub (a b : num) : num :=
  match a, b with Some x, Some y => Some (x - y) | _, _ => NaN end.
Definition nmul (a b : num) : num :=
  match a, b with Some x, Some y => Some (x * y) | _, _ => NaN end.

(** [a / b].  The indicator code divides by zero only in [0 / 0], which is
    [NaN]; the quotient of a non-zero number by zero (an infinity) does not
    occur in it and is not represented. *)
Definition ndiv (a b : num) : num :=
  match a, b with
  | Some x, Some y => if eqb y 0 then NaN else Some (x / y)
  | _, _ => NaN
  end.

Definition nabs (a : num) : num :=
  match a with Some x => Some (Qabs x) | None => NaN end.

(** [a > b], [a < b] and [a === b]: false as soon as one side is [NaN]. *)
Definition ngtb (a b : num) : bool :=
  match a, b with Some x, Some y => gtb x y | _, _ => false end.
Definition nltb (a b : num) : bool :=
  match a, b with Some x, Some y => ltb x y | _, _ => false end.
Definition neqb (a b : num) : bool :=
  match a, b with Some x, Some y => eqb x y | _, _ => false end.

(** [arr[i]] on an array of numbers. *)
Definition get (arr : list num) (i : nat) : num :=
  match arr !! i with Some v => v | None => NaN end.

(** [prices[i]] on an array of finite numbers. *)
Definition getQ (arr : list Q) (i : nat) : num := arr !! i.

(** [new Array(n).fill(NaN)], and [new Array(n)] whose holes read as
    [undefined]. *)
Definition Array_fill_NaN (n : nat) : list num := replicate n NaN.
Definition new_Array (n : nat) : list num := replicate n NaN.

(* ================================================================== *)
(** ** indicators/ema.js                                                *)
(* ================================================================== *)

(** Body of the loop [for (i = 0; i < period; i++)]: state [(ema, sum)]. *)
Definition emaSeedStep (prices : list Q) (st : list num * num) (i : nat)
  : list num * num :=
  let '(ema, sum) := st in
  (<[i := NaN]> ema, nadd sum (getQ prices i)).

(** Body of the loop [for (i = period; i < prices.length; i++)]. *)
Definition emaStep (prices : list Q) (multiplier : num)
    (ema : list num) (i : nat) : list num :=
  <[i := nadd (nmul (nsub (getQ prices i) (get ema (i - 1))) multiplier)
              (get ema (i - 1))]> ema.

Definition calculateEMA (prices : list Q) (period : Z) : list num :=
  let n := length prices in
  if (n =? 0)%nat then []
  else if (period <=? 0)%Z || (period >? Z.of_nat n)%Z then Array_fill_NaN n
  else
    let p := Z.to_nat period in
    let ema := new_Array n in
    let multiplier := ndiv (Some 2) (Some (inject_Z period + 1)) in
    let '(ema, sum) := fold_left (emaSeedStep prices) (seq 0 p) (ema, Some 0) in
    let ema := <[(p - 1)%nat := ndiv sum (Some (inject_Z period))]> ema in
    fold_left (emaStep prices multiplier) (seq p (n - p)) ema.

(** [sum(prices[0..p-1])], accumulated left to right from 0. *)
Definition sumFirst (prices : list Q) (p : nat) : Q :=
  fold_left Qplus (firstn p prices) 0.

(* ================================================================== *)
(** ** indicators/rsi.js                                                *)
(* ================================================================== *)

(** [changes], built by [for (i = 1; i < prices.length; i++)]. *)
Definition priceChanges (prices : list Q) : list num :=
  fold_left
    (fun changes i =>
       changes ++ [nsub (getQ prices i) (getQ prices (i - 1))])
    (seq 1 (length prices - 1)) [].

(** Body of the seeding loop: state [(avgGain, avgLoss)]. *)
Definition rsiSeedStep (changes : list num) (st : num * num) (i : nat)
  : num * num :=
  let '(avgGain, avgLoss) := st in
  if ngtb (get changes i) (Some 0)
  then (nadd avgGain (get changes i), avgLoss)
  else (avgGain, nadd avgLoss (nabs (get changes i))).

(** The seeded averages, after [avgGain /= period; avgLoss /= period]. *)
Definition initialAverages (changes : list num) (period : nat) : num * num :=
  let '(avgGain, avgLoss) :=
    fold_left (rsiSeedStep changes) (seq 0 period) (Some 0, Some 0) in
  (ndiv avgGain (Some (Qnat period)), ndiv avgLoss (Some (Qnat period))).

(** [rs = avgLoss === 0 ? 100 : avgGain / avgLoss] followed by
    [100 - (100 / (1 + rs))]. *)
Definition rsiOf (avgGain avgLoss : num) : num :=
  let rs := if neqb avgLoss (Some 0) then Some 100 else ndiv avgGain avgLoss in
  nsub (Some 100) (ndiv (Some 100) (nadd (Some 1) rs)).

(** Body of the smoothing loop: state [(avgGain, avgLoss, rsiValues)]. *)
Definition rsiStep (changes : list num) (period : nat)
    (st : num * num * list num) (i : nat) : num * num * list num :=
  let '(avgGain, avgLoss, rsiValues) := st in
  let change := get changes i in
  let gain := if ngtb change (Some 0) then change else Some 0 in
  let loss := if nltb change (Some 0) then nabs change else Some 0 in
  let pm1 := Some (Qnat period - 1) in
  let avgGain := ndiv (nadd (nmul avgGain pm1) gain) (Some (Qnat period)) in
  let avgLoss := ndiv (nadd (nmul avgLoss pm1) loss) (Some (Qnat period)) in
  (avgGain, avgLoss, <[(i + 1)%nat := rsiOf avgGain avgLoss]> rsiValues).

(** The whole computation, returning the last smoothed averages next to
    the array. *)
Definition rsiRun (prices : list Q) (period : nat) : num * num * list num :=
  let n := length prices in
  let rsiValues := Array_fill_NaN n in
  let changes := priceChanges prices in
  let '(avgGain, avgLoss) := initialAverages changes period in
  let rsiValues := <[period := rsiOf avgGain avgLoss]> rsiValues in
  fold_left (rsiStep changes period)
    (seq period (length changes - period)) (avgGain, avgLoss, rsiValues).

Definition calculateRSI (prices : list Q) (period : nat) : list num :=
  let n := length prices in
  if (n <? period + 1)%nat then Array_fill_NaN n
  else snd (rsiRun prices period).

(* ================================================================== *)
(** ** indicators/swings.js: support/resistance clustering              *)
(* ================================================================== *)

Module Swing.
Record t := mk { price : Q; time : Z; index : nat }.
End Swing.

Module Cluster.
Record t := mk { avgPrice : Q; touches : nat }.
End Cluster.

Module SRLevel.
Record t := mk { price : Q; type : string; touches : nat }.
End SRLevel.

(** [[...swings].sort((a, b) => a.price - b.price)]: the sort is stable,
    so the result is the stable ascending arrangement by price. *)
Fixpoint insertByPrice (s : Swing.t) (l : list Swing.t) : list Swing.t :=
  match l with
  | [] => [s]
  | h :: l' =>
      if leb (Swing.price s) (Swing.price h) then s :: h :: l'
      else h :: insertByPrice s l'
  end.

Definition sortByPrice (swings : list Swing.t) : list Swing.t :=
  foldr insertByPrice [] swings.

(** [currentCluster.reduce((sum, s) => sum + s.price, 0)
     / currentCluster.length]. *)
Definition avgPriceOf (currentCluster : list Swing.t) : Q :=
  fold_left (fun sum s => sum + Swing.price s) currentCluster 0
  / Qnat (length currentCluster).

Definition mkCluster (currentCluster : list Swing.t) : Cluster.t :=
  {| Cluster.avgPrice := avgPriceOf currentCluster;
     Cluster.touches := length currentCluster |}.

(** [clusters.push({...})] guarded by [currentCluster.length > 0]. *)
Definition pushCluster (clusters : list Cluster.t)
    (currentCluster : list Swing.t) : list Cluster.t :=
  if (0 <? length currentCluster)%nat
  then clusters ++ [mkCluster currentCluster]
  else clusters.

(** [currentCluster[0].price]; the current cluster is never empty, the
    fall-back is not reached. *)
Definition anchorPrice (currentCluster : list Swing.t) (s : Swing.t) : Q :=
  match currentCluster with
  | first :: _ => Swing.price first
  | [] => Swing.price s
  end.

(** Body of [for (i = 1; i < sorted.length; i++)], on [s = sorted[i]];
    state [(clusters, currentCluster)]. *)
Definition clusterStep (threshold : Q)
    (st : list Cluster.t * list Swing.t) (s : Swing.t)
  : list Cluster.t * list Swing.t :=
  let '(clusters, currentCluster) := st in
  let priceDiff := Qabs (Swing.price s - anchorPrice currentCluster s) in
  if leb priceDiff threshold then (clusters, currentCluster ++ [s])
  else (pushCluster clusters currentCluster, [s]).

Definition clusterSwings (swings : list Swing.t) (threshold : Q)
  : list Cluster.t :=
  if (length swings =? 0)%nat then []
  else
    match sortByPrice swings with
    | [] => []
    | first :: rest =>
        let '(clusters, currentCluster) :=
          fold_left (clusterStep threshold) rest ([], [first]) in
        pushCluster clusters currentCluster
    end.

(** The same loop, recording the members of every cluster instead of
    their summary. *)
Definition groupStep (threshold : Q)
    (st : list (list Swing.t) * list Swing.t) (s : Swing.t)
  : list (list Swing.t) * list Swing.t :=
  let '(groups, currentCluster) := st in
  let priceDiff := Qabs (Swing.price s - anchorPrice currentCluster s) in
  if leb priceDiff threshold then (groups, currentCluster ++ [s])
  else (groups ++ [currentCluster], [s]).

Definition clusterGroups (swings : list Swing.t) (threshold : Q)
  : list (list Swing.t) :=
  match sortByPrice swings with
  | [] => []
  | first :: rest =>
      let '(groups, currentCluster) :=
        fold_left (groupStep threshold) rest ([], [first]) in
      groups ++ [currentCluster]
  end.

(** [srLevels.sort((a, b) => b.price - a.price)]: stable, descending. *)
Fixpoint insertLevelDesc (x : SRLevel.t) (l : list SRLevel.t)
  : list SRLevel.t :=
  match l with
  | [] => [x]
  | h :: l' =>
      if leb (SRLevel.price h) (SRLevel.price x) then x :: h :: l'
      else h :: insertLevelDesc x l'
  end.

Definition sortLevelsDesc (l : list SRLevel.t) : list SRLevel.t :=
  foldr insertLevelDesc [] l.

(** [clusters.forEach(cluster => srLevels.push({price, type, touches}))]. *)
Definition pushLevels (type : string) (clusters : list Cluster.t)
    (srLevels : list SRLevel.t) : list SRLevel.t :=
  fold_left
    (fun acc cluster =>
       acc ++ [ {| SRLevel.price := Cluster.avgPrice cluster;
                   SRLevel.type := type;
                   SRLevel.touches := Cluster.touches cluster |} ])
    clusters srLevels.

Definition identifySRLevels (swingHighs swingLows : list Swing.t)
    (atrValue threshold : Q) : list SRLevel.t :=
  if eqb atrValue 0 || leb atrValue 0 then []
  else
    let clusterThreshold := atrValue * threshold in
    let srLevels := [] in
    let resistanceClusters := clusterSwings swingHighs clusterThreshold in
    let srLevels := pushLevels "resistance" resistanceClusters srLevels in
    let supportClusters := clusterSwings swingLows clusterThreshold in
    let srLevels := pushLevels "support" supportClusters srLevels in
    sortLevelsDesc srLevels.

(** Touches accumulated over the levels of one kind. *)
Definition touchesOf (type : string) (levels : list SRLevel.t) : nat :=
  fold_right
    (fun l acc =>
       if String.eqb (SRLevel.type l) type
       then (SRLevel.touches l + acc)%nat else acc)
    0%nat levels.

(* ================================================================== *)
(** ** scanner/prefilter.js                                             *)
(* ================================================================== *)

(** [k] zeros. *)
Fixpoint zeros (k : nat) : string :=
  match k with O => EmptyString | S k' => ("0" ++ zeros k')%string end.

(** [x.toFixed(f)] on a finite number below [1e21], following the language
    definition: the sign is split off, [n] is the integer nearest to
    [|x| * 10^f] (the larger one on a tie), its digits are padded with
    zeros to [f + 1] places and the point is put before the last [f]. *)
Definition toFixed (x : Q) (f : nat) : string :=
  let ax := Qabs x in
  let n := Qfloor (ax * inject_Z (10 ^ Z.of_nat f) + (1 # 2)) in
  let m := NilZero.string_of_uint (N.to_uint (Z.to_N n)) in
  let m := (zeros (f + 1 - String.length m) ++ m)%string in
  let k := (String.length m - f)%nat in
  let body :=
    if (f =? 0)%nat then m
    else (substring 0 k m ++ "." ++ substring k f m)%string in
  if ltb x 0 then ("-" ++ body)%string else body.

Module PatternResult.
Record t := mk { detected : bool; description : string }.
End PatternResult.

Module Patterns.
Record t := mk
    { bullishEngulfing : PatternResult.t;
      bearishEngulfing : PatternResult.t;
      bullishPin : PatternResult.t;
      bearishPin : PatternResult.t }.
End Patterns.

Module Trend.
Record t := mk { direction : string; strength : string }.
End Trend.

Module Swings.
Record t := mk
    { swingHighs : list Swing.t;
      swingLows : list Swing.t;
      srLevels : list SRLevel.t;
      nearSR : option SRLevel.t }.
End Swings.

(** The bundle built by [computeAllIndicators].  [ema50], [ema200],
    [atr14] and [rsi14] are [number | null]: [None] is [null]. *)
Module Indicators.
Record t := mk
    { ema50 : option Q;
      ema200 : option Q;
      atr14 : option Q;
      rsi14 : option Q;
      swings : Swings.t;
      patterns : Patterns.t;
      trend : Trend.t;
      currentPrice : Q }.
End Indicators.

Module CandidateResult.
Record t := mk { isCandidate : bool; reason : string }.
End CandidateResult.

(** [!x] on a [number | null]: [null] and [0] are falsy. *)
Definition falsy (x : option Q) : bool :=
  match x with None => true | Some q => eqb q 0 end.

(** A [number | null] used as operand of a comparison or of arithmetic:
    [null] converts to [0]. *)
Definition ToNumber (x : option Q) : Q :=
  match x with Some q => q | None => 0 end.

(** [a / b < c] for [a >= 0]: with [b = 0] the quotient is [Infinity] or
    [NaN] and the test is false. *)
Definition quotientBelow (a b c : Q) : bool :=
  if eqb b 0 then false else ltb (a / b) c.

(** A returned [string | null] tested by [if (...)]. *)
Definition truthy (r : option string) : bool :=
  match r with
  | Some s => negb (String.eqb s EmptyString)
  | None => false
  end.

Definition getMinimumATR (price : Q) : Q :=
  if ltb price 10 then 0.0001 else price * 0.0001.

Definition checkTrendAlignedEngulfing (indicators : Indicators.t)
  : option string :=
  let patterns := Indicators.patterns indicators in
  let trend := Indicators.trend indicators in
  let currentPrice := Indicators.currentPrice indicators in
  let ema50 := ToNumber (Indicators.ema50 indicators) in
  if PatternResult.detected (Patterns.bullishEngulfing patterns)
     && String.eqb (Trend.direction trend) "uptrend"
     && gtb currentPrice ema50
  then Some "Bullish engulfing in uptrend"%string
  else if PatternResult.detected (Patterns.bearishEngulfing patterns)
     && String.eqb (Trend.direction trend) "downtrend"
     && ltb currentPrice ema50
  then Some "Bearish engulfing in downtrend"%string
  else None.

Definition checkPinBarAtStructure (indicators : Indicators.t)
    (lastCandle : option Candle.t) : option string :=
  let patterns := Indicators.patterns indicators in
  let swings := Indicators.swings indicators in
  match Swings.nearSR swings with
  | None => None
  | Some nearSR =>
      if PatternResult.detected (Patterns.bullishPin patterns)
         && String.eqb (SRLevel.type nearSR) "support"
      then Some ("Bullish pin bar at support level ("
                 ++ toFixed (SRLevel.price nearSR) 5 ++ ")")%string
      else if PatternResult.detected (Patterns.bearishPin patterns)
         && String.eqb (SRLevel.type nearSR) "resistance"
      then Some ("Bearish pin bar at resistance level ("
                 ++ toFixed (SRLevel.price nearSR) 5 ++ ")")%string
      else None
  end.

(** [candles.slice(-10).map(c => c.close)]. *)
Definition recentCloses (candles : list Candle.t) : list Q :=
  map Candle.close (skipn (length candles - 10) candles).

(** [closes[closes.length - 2] < currentPrice] and its mirror; the read is
    [undefined], and the test false, when there are fewer than two
    closes. *)
Definition secondLast (closes : list Q) : option Q :=
  if (length closes <? 2)%nat then None
  else closes !! (length closes - 2)%nat.

Definition checkPullbackIntoTrend (candles : list Candle.t)
    (indicators : Indicators.t) : option string :=
  let trend := Indicators.trend indicators in
  let currentPrice := Indicators.currentPrice indicators in
  let ema50 := ToNumber (Indicators.ema50 indicators) in
  let swings := Indicators.swings indicators in
  let dir := Trend.direction trend in
  if negb (String.eqb dir "uptrend") && negb (String.eqb dir "downtrend")
  then None
  else
    match recentCloses candles with
    | [] => None   (* Math.min() is Infinity, Math.max() is -Infinity:
                      neither bounce nor rejection *)
    | c0 :: cs =>
        let closes := c0 :: cs in
        let up :=
          if String.eqb dir "uptrend" then
            let minRecent := fold_left Qmin cs c0 in
            let priceBounced :=
              gtb currentPrice minRecent
              && match secondLast closes with
                 | Some c => ltb c currentPrice | None => false end in
            let touchedEMA50 :=
              quotientBelow (Qabs (minRecent - ema50)) ema50 0.005 in
            let nearSwingLow :=
              match last (Swings.swingLows swings) with
              | Some s =>
                  quotientBelow (Qabs (minRecent - Swing.price s))
                    minRecent 0.01
              | None => false
              end in
            priceBounced && (touchedEMA50 || nearSwingLow)
          else false in
        if up then Some "Pullback to support in uptrend, bouncing"%string
        else
          let down :=
            if String.eqb dir "downtrend" then
              let maxRecent := fold_left Qmax cs c0 in
              let priceRejected :=
                ltb currentPrice maxRecent
                && match secondLast closes with
                   | Some c => gtb c currentPrice | None => false end in
              let touchedEMA50 :=
                quotientBelow (Qabs (maxRecent - ema50)) ema50 0.005 in
              let nearSwingHigh :=
                match last (Swings.swingHighs swings) with
                | Some s =>
                    quotientBelow (Qabs (maxRecent - Swing.price s))
                      maxRecent 0.01
                | None => false
                end in
              priceRejected && (touchedEMA50 || nearSwingHigh)
            else false in
          if down
          then Some "Pullback to resistance in downtrend, rejecting"%string
          else None
    end.

Definition checkRSIDivergence (candles : list Candle.t)
    (indicators : Indicators.t) : option string :=
  let rsi14 := ToNumber (Indicators.rsi14 indicators) in
  let swings := Indicators.swings indicators in
  if (length (Swings.swingHighs swings) <? 2)%nat
     || (length (Swings.swingLows swings) <? 2)%nat
  then None
  else if ltb rsi14 30 && (2 <=? length (Swings.swingLows swings))%nat
  then Some "RSI oversold with potential bullish divergence"%string
  else if gtb rsi14 70 && (2 <=? length (Swings.swingHighs swings))%nat
  then Some "RSI overbought with potential bearish divergence"%string
  else None.

(** [[a, b].filter(Boolean).length]. *)
Definition countTrue (flags : list bool) : nat :=
  length (List.filter (fun b => b) flags).

Definition checkReversalAtSR (indicators : Indicators.t) : option string :=
  let patterns := Indicators.patterns indicators in
  let swings := Indicators.swings indicators in
  match Swings.nearSR swings with
  | None => None
  | Some nearSR =>
      if (SRLevel.touches nearSR <? 2)%nat then None
      else
        let atSupport :=
          String.eqb (SRLevel.type nearSR) "support"
          && (1 <=? countTrue
                [PatternResult.detected (Patterns.bullishEngulfing patterns);
                 PatternResult.detected (Patterns.bullishPin patterns)])%nat in
        if atSupport
        then Some ("Reversal setup at strong support ("
                   ++ string_of_nat (SRLevel.touches nearSR)
                   ++ " touches)")%string
        else
          let atResistance :=
            String.eqb (SRLevel.type nearSR) "resistance"
            && (1 <=? countTrue
                  [PatternResult.detected (Patterns.bearishEngulfing patterns);
                   PatternResult.detected (Patterns.bearishPin patterns)])%nat in
          if atResistance
          then Some ("Reversal setup at strong resistance ("
                     ++ string_of_nat (SRLevel.touches nearSR)
                     ++ " touches)")%string
          else None
  end.

(** [if (check(...)) reasons.push(check(...))]. *)
Definition pushReason (reasons : list string) (r : option string)
  : list string :=
  match r with
  | Some s => if truthy r then reasons ++ [s] else reasons
  | None => reasons
  end.

(** The [reasons] array once the five pre-filters have run. *)
Definition collectReasons (candles : list Candle.t)
    (indicators : Indicators.t) (mode : string) : list string :=
  let lastCandle := last candles in
  let reasons := [] in
  let reasons := pushReason reasons (checkTrendAlignedEngulfing indicators) in
  let reasons :=
    pushReason reasons (checkPinBarAtStructure indicators lastCandle) in
  let reasons :=
    pushReason reasons (checkPullbackIntoTrend candles indicators) in
  let reasons :=
    if String.eqb mode "aggressive"
    then pushReason reasons (checkRSIDivergence candles indicators)
    else reasons in
  let reasons := pushReason reasons (checkReversalAtSR indicators) in
  reasons.

Definition rejected (why : string) : CandidateResult.t :=
  {| CandidateResult.isCandidate := false; CandidateResult.reason := why |}.

Definition applyPrefilters (candles : list Candle.t)
    (indicators : Indicators.t) (mode : string) : CandidateResult.t :=
  if (length candles <? 50)%nat then rejected "Insufficient candle data"
  else if falsy (Indicators.atr14 indicators)
       || falsy (Indicators.ema50 indicators)
       || falsy (Indicators.ema200 indicators)
  then rejected "Missing required indicators"
  else
    let atr14 := ToNumber (Indicators.atr14 indicators) in
    let minAtr := getMinimumATR (Indicators.currentPrice indicators) in
    if ltb atr14 minAtr
    then rejected ("ATR too small (" ++ toFixed atr14 5 ++ " < "
                   ++ toFixed minAtr 5 ++ "), insufficient volatility")
    else if String.eqb (Trend.direction (Indicators.trend indicators)) "choppy"
    then rejected "Choppy market with flat EMAs, no clear trend"
    else
      let reasons := collectReasons candles indicators mode in
      if (length reasons =? 0)%nat then rejected EmptyString
      else
        let combinedReason :=
          String.concat " + "
            (List.filter
               (fun s => negb (String.eqb s EmptyString)) reasons) in
        {| CandidateResult.isCandidate := true;
           CandidateResult.reason := combinedReason |}.

(* ================================================================== *)
(** ** evaluation/checker.js: [checkPendingSignal]                      *)
(* ================================================================== *)

(** The fields of a pending signal row that [checkPendingSignal] reads. *)
Module PendingSignal.
Record t := mk { id : Z; entry : Q; created_at : Z }.
End PendingSignal.

(** The status update written for a pending signal: [triggered] with its
    [triggered_at], or [expired] with its [closed_at]. *)
Inductive PendingUpdate : Type :=
| Triggered (triggered_at : Z)
| Expired (closed_at : Z).

(** [candle.low <= entry && entry <= candle.high]. *)
Definition entryInside (entry : Q) (candle : Candle.t) : bool :=
  leb (Candle.low candle) entry && leb entry (Candle.high candle).

(** [checkPendingSignal(signal)] once [fetchCandles] has returned
    [candles]; [now] is the clock read by [new Date()] when the signal
    expires.  [None] means that nothing is written. *)
Definition checkPendingSignal (config : Config.t) (now : Z)
    (signal : PendingSignal.t) (candles : list Candle.t)
  : option PendingUpdate :=
  let entry := PendingSignal.entry signal in
  let created_at := PendingSignal.created_at signal in
  let candlesAfterCreation :=
    List.filter (fun c => (created_at <=? Candle.time c)%Z) candles in
  if (length candlesAfterCreation =? 0)%nat then None
  else
    let entryHit := existsb (entryInside entry) candlesAfterCreation in
    if entryHit then
      match List.find (entryInside entry) candlesAfterCreation with
      | Some c => Some (Triggered (Candle.time c))
      | None => None
      end
    else
      let candlesSinceCreation :=
        length
          (List.filter (fun c => (created_at <? Candle.time c)%Z) candles) in
      if (Config.expirationCandles config <=? candlesSinceCreation)%nat
      then Some (Expired now)
      else None.

(* ================================================================== *)
(** ** indicators/ema.js, rsi.js, atr.js: latest values and ATR         *)
(* ================================================================== *)

(** [isNaN(latest) ? null : latest] on the last cell of an array; [null]
    as well when the array is empty. *)
Definition latestValue (values : list num) : option Q :=
  if (length values =? 0)%nat then None
  else
    match last values with
    | Some (Some v) => Some v
    | _ => None
    end.

Definition getLatestEMA (prices : list Q) (period : Z) : option Q :=
  latestValue (calculateEMA prices period).

Definition getLatestRSI (prices : list Q) (period : nat) : option Q :=
  latestValue (calculateRSI prices period).

Definition isOversold (rsi threshold : Q) : bool := ltb rsi threshold.
Definition isOverbought (rsi threshold : Q) : bool := gtb rsi threshold.

(** [Math.max(highLow, highClose, lowClose)]. *)
Definition calculateTR (candle : Candle.t) (prevClose : Q) : Q :=
  let highLow := Candle.high candle - Candle.low candle in
  let highClose := Qabs (Candle.high candle - prevClose) in
  let lowClose := Qabs (Candle.low candle - prevClose) in
  Qmax (Qmax highLow highClose) lowClose.

(** The values pushed on [trValues] after its leading [NaN], by
    [for (i = 1; i < candles.length; i++)]; this is [trValues.slice(1)]. *)
Definition trueRanges (candles : list Candle.t) : list Q :=
  fold_left
    (fun trValues i =>
       match candles !! i, candles !! (i - 1)%nat with
       | Some candle, Some prev =>
           trValues ++ [calculateTR candle (Candle.close prev)]
       | _, _ => trValues
       end)
    (seq 1 (length candles - 1)) [].

Definition calculateATR (candles : list Candle.t) (period : Z) : list num :=
  let n := length candles in
  if (n <? 2)%nat then Array_fill_NaN n
  else if (period <=? 0)%Z || (period >? Z.of_nat n)%Z then Array_fill_NaN n
  else
    let atrValues := calculateEMA (trueRanges candles) period in
    NaN :: atrValues.

Definition getLatestATR (candles : list Candle.t) (period : Z) : option Q :=
  latestValue (calculateATR candles period).

(* ================================================================== *)
(** ** indicators/swings.js: swing points and proximity                 *)
(* ================================================================== *)

(** One of the two inner loops of the swing search: it leaves the flag
    set when no bar of [candles[from .. from + count - 1]] has a key that
    [beats] the current one.  The indices it reads are inside the array. *)
Definition windowClear (key : Candle.t -> Q) (beats : Q -> Q -> bool)
    (candles : list Candle.t) (from count : nat) (current : Q) : bool :=
  forallb
    (fun j =>
       match candles !! j with
       | Some c => negb (beats (key c) current)
       | None => true
       end)
    (seq from count).

(** Body of [for (i = leftBars; i < candles.length - rightBars; i++)]. *)
Definition swingStep (key : Candle.t -> Q) (beats : Q -> Q -> bool)
    (candles : list Candle.t) (leftBars rightBars : nat)
    (swings : list Swing.t) (i : nat) : list Swing.t :=
  match candles !! i with
  | Some c =>
      let current := key c in
      if windowClear key beats candles (i - leftBars) leftBars current
      then
        if windowClear key beats candles (i + 1) rightBars current
        then swings ++ [ {| Swing.price := current;
                            Swing.time := Candle.time c;
                            Swing.index := i |} ]
        else swings
      else swings
  | None => swings
  end.

Definition findSwingsBy (key : Candle.t -> Q) (beats : Q -> Q -> bool)
    (candles : list Candle.t) (leftBars rightBars : nat) : list Swing.t :=
  let n := length candles in
  if (n <? leftBars + rightBars + 1)%nat then []
  else
    fold_left (swingStep key beats candles leftBars rightBars)
      (seq leftBars (n - rightBars - leftBars)) [].

(** A neighbour disqualifies a swing high when its high is [>=] the
    current high, a swing low when its low is [<=] the current low. *)
Definition findSwingHighs (candles : list Candle.t)
    (leftBars rightBars : nat) : list Swing.t :=
  findSwingsBy Candle.high geb candles leftBars rightBars.

Definition findSwingLows (candles : list Candle.t)
    (leftBars rightBars : nat) : list Swing.t :=
  findSwingsBy Candle.low leb candles leftBars rightBars.

(** Body of [for (const level of srLevels)] in [isNearSRLevel]; the
    state is [(closest, minDistance)], with [None] for the initial
    [Infinity]. *)
Definition nearestStep (price : Q)
    (st : option SRLevel.t * option Q) (level : SRLevel.t)
  : option SRLevel.t * option Q :=
  let '(closest, minDistance) := st in
  let distance := Qabs (price - SRLevel.price level) in
  let closer :=
    match minDistance with
    | None => true
    | Some m => ltb distance m
    end in
  if closer then (Some level, Some distance) else (closest, minDistance).

Definition isNearSRLevel (price : Q) (srLevels : list SRLevel.t)
    (atrValue threshold : Q) : option SRLevel.t :=
  if (length srLevels =? 0)%nat || eqb atrValue 0 then None
  else
    let proximityThreshold := atrValue * threshold in
    let '(closest, minDistance) :=
      fold_left (nearestStep price) srLevels (None, None) in
    match minDistance with
    | Some m => if leb m proximityThreshold then closest else None
    | None => None
    end.

(* ================================================================== *)
(** ** indicators/patterns.js                                           *)
(* ================================================================== *)

Definition notDetected : PatternResult.t :=
  {| PatternResult.detected := false;
     PatternResult.description := EmptyString |}.

Definition patternResult (detected : bool) (text : string)
  : PatternResult.t :=
  {| PatternResult.detected := detected;
     PatternResult.description := if detected then text else EmptyString |}.

(** [candles[candles.length - 2]] and [candles[candles.length - 1]]. *)
Definition lastTwo (candles : list Candle.t)
  : option (Candle.t * Candle.t) :=
  if (length candles <? 2)%nat then None
  else
    match candles !! (length candles - 2)%nat,
          candles !! (length candles - 1)%nat with
    | Some prev, Some current => Some (prev, current)
    | _, _ => None
    end.

Definition detectBullishEngulfing (candles : list Candle.t)
  : PatternResult.t :=
  match lastTwo candles with
  | None => notDetected
  | Some (prev, current) =>
      let prevBearish := ltb (Candle.close prev) (Candle.open prev) in
      let currentBullish :=
        gtb (Candle.close current) (Candle.open current) in
      let currentBody :=
        Qabs (Candle.close current - Candle.open current) in
      let prevBody := Qabs (Candle.close prev - Candle.open prev) in
      let engulfs :=
        leb (Candle.open current) (Candle.close prev)
        && geb (Candle.close current) (Candle.open prev) in
      let detected :=
        prevBearish && currentBullish && engulfs
        && gtb currentBody prevBody in
      patternResult detected
        "Bullish engulfing: Current green candle fully engulfs previous red candle body"
  end.

Definition detectBearishEngulfing (candles : list Candle.t)
  : PatternResult.t :=
  match lastTwo candles with
  | None => notDetected
  | Some (prev, current) =>
      let prevBullish := gtb (Candle.close prev) (Candle.open prev) in
      let currentBearish :=
        ltb (Candle.close current) (Candle.open current) in
      let currentBody :=
        Qabs (Candle.close current - Candle.open current) in
      let prevBody := Qabs (Candle.close prev - Candle.open prev) in
      let engulfs :=
        geb (Candle.open current) (Candle.close prev)
        && leb (Candle.close current) (Candle.open prev) in
      let detected :=
        prevBullish && currentBearish && engulfs
        && gtb currentBody prevBody in
      patternResult detected
        "Bearish engulfing: Current red candle fully engulfs previous green candle body"
  end.

Definition detectBullishPinBar (candle : option Candle.t)
  : PatternResult.t :=
  match candle with
  | None => notDetected
  | Some candle =>
      let body := Qabs (Candle.close candle - Candle.open candle) in
      let upperWick :=
        Candle.high candle - Qmax (Candle.open candle) (Candle.close candle) in
      let lowerWick :=
        Qmin (Candle.open candle) (Candle.close candle) - Candle.low candle in
      let totalRange := Candle.high candle - Candle.low candle in
      let longLowerWick := geb lowerWick (body * 2) in
      let smallUpperWick := leb upperWick (body * 0.5) in
      let smallBody := ltb body (totalRange * 0.3) in
      let significantLowerWick := gtb lowerWick (totalRange * 0.5) in
      let detected :=
        longLowerWick && smallUpperWick && smallBody
        && significantLowerWick && gtb totalRange 0 in
      patternResult detected
        "Bullish pin bar: Long lower wick with small body at top, signals rejection of lower prices"
  end.

Definition detectBearishPinBar (candle : option Candle.t)
  : PatternResult.t :=
  match candle with
  | None => notDetected
  | Some candle =>
      let body := Qabs (Candle.close candle - Candle.open candle) in
      let upperWick :=
        Candle.high candle - Qmax (Candle.open candle) (Candle.close candle) in
      let lowerWick :=
        Qmin (Candle.open candle) (Candle.close candle) - Candle.low candle in
      let totalRange := Candle.high candle - Candle.low candle in
      let longUpperWick := geb upperWick (body * 2) in
      let smallLowerWick := leb lowerWick (body * 0.5) in
      let smallBody := ltb body (totalRange * 0.3) in
      let significantUpperWick := gtb upperWick (totalRange * 0.5) in
      let detected :=
        longUpperWick && smallLowerWick && smallBody
        && significantUpperWick && gtb totalRange 0 in
      patternResult detected
        "Bearish pin bar: Long upper wick with small body at bottom, signals rejection of higher prices"
  end.

Definition detectInsideBar (candles : list Candle.t) : PatternResult.t :=
  match lastTwo candles with
  | None => notDetected
  | Some (prev, current) =>
      let detected :=
        leb (Candle.high current) (Candle.high prev)
        && geb (Candle.low current) (Candle.low prev) in
      patternResult detected
        "Inside bar: Current candle range is completely inside previous candle range, signals consolidation"
  end.

(** The object returned by [analyzePatterns]: the four patterns read by
    the pre-filters, and the inside bar. *)
Module PatternAnalysis.
Record t := mk { patterns : Patterns.t; insideBar : PatternResult.t }.
End PatternAnalysis.

Definition analyzePatterns (candles : list Candle.t) : PatternAnalysis.t :=
  if (length candles <? 2)%nat then
    {| PatternAnalysis.patterns :=
         {| Patterns.bullishEngulfing := notDetected;
            Patterns.bearishEngulfing := notDetected;
            Patterns.bullishPin := notDetected;
            Patterns.bearishPin := notDetected |};
       PatternAnalysis.insideBar := notDetected |}
  else
    let lastCandle := last candles in
    {| PatternAnalysis.patterns :=
         {| Patterns.bullishEngulfing := detectBullishEngulfing candles;
            Patterns.bearishEngulfing := detectBearishEngulfing candles;
            Patterns.bullishPin := detectBullishPinBar lastCandle;
            Patterns.bearishPin := detectBearishPinBar lastCandle |};
       PatternAnalysis.insideBar := detectInsideBar candles |}.

(* ================================================================== *)
(** ** indicators/index.js                                              *)
(* ================================================================== *)

(** The object returned by [determineTrend]: direction and strength, the
    description, and the two groups of flags, which are absent from the
    early return for missing averages. *)
Module TrendAnalysis.
Record t := mk
    { trend : Trend.t;
      description : string;
      emaAlignment : option (bool * bool);
      swingStructure : option (bool * bool * bool * bool) }.
End TrendAnalysis.

(** [points.length >= 2 && cmp(points[points.length - 1].price,
    points[0].price)]. *)
Definition lastVsFirst (cmp : Q -> Q -> bool) (points : list Swing.t)
  : bool :=
  (2 <=? length points)%nat
  && match last points, head points with
     | Some l, Some f => cmp (Swing.price l) (Swing.price f)
     | _, _ => false
     end.

Definition trendOf (direction strength description : string)
    (alignment : bool * bool) (structure : bool * bool * bool * bool)
  : TrendAnalysis.t :=
  {| TrendAnalysis.trend :=
       {| Trend.direction := direction; Trend.strength := strength |};
     TrendAnalysis.description := description;
     TrendAnalysis.emaAlignment := Some alignment;
     TrendAnalysis.swingStructure := Some structure |}.

Definition determineTrend (price : Q) (ema50 ema200 : option Q)
    (candles : list Candle.t) : TrendAnalysis.t :=
  if falsy ema50 || falsy ema200 then
    {| TrendAnalysis.trend :=
         {| Trend.direction := "unclear"; Trend.strength := "weak" |};
       TrendAnalysis.description :=
         "Insufficient data for trend determination";
       TrendAnalysis.emaAlignment := None;
       TrendAnalysis.swingStructure := None |}
  else
    let e50 := ToNumber ema50 in
    let e200 := ToNumber ema200 in
    let priceAboveEma50 := gtb price e50 in
    let ema50AboveEma200 := gtb e50 e200 in
    let recentCandles := skipn (length candles - 20) candles in
    let recentHighs := findSwingHighs recentCandles 2 2 in
    let recentLows := findSwingLows recentCandles 2 2 in
    let hasHigherHighs := lastVsFirst gtb recentHighs in
    let hasHigherLows := lastVsFirst gtb recentLows in
    let hasLowerHighs := lastVsFirst ltb recentHighs in
    let hasLowerLows := lastVsFirst ltb recentLows in
    let alignment := (priceAboveEma50, ema50AboveEma200) in
    let structure :=
      (hasHigherHighs, hasHigherLows, hasLowerHighs, hasLowerLows) in
    if priceAboveEma50 && ema50AboveEma200 then
      if hasHigherHighs && hasHigherLows then
        trendOf "uptrend" "strong"
          "Strong uptrend: Price > EMA50 > EMA200 with HH/HL structure"
          alignment structure
      else if hasHigherHighs || hasHigherLows then
        trendOf "uptrend" "moderate"
          "Moderate uptrend: Price > EMA50 > EMA200, partial HH/HL structure"
          alignment structure
      else
        trendOf "uptrend" "weak"
          "Weak uptrend: Price > EMA50 > EMA200 but unclear swing structure"
          alignment structure
    else if negb priceAboveEma50 && negb ema50AboveEma200 then
      if hasLowerHighs && hasLowerLows then
        trendOf "downtrend" "strong"
          "Strong downtrend: Price < EMA50 < EMA200 with LH/LL structure"
          alignment structure
      else if hasLowerHighs || hasLowerLows then
        trendOf "downtrend" "moderate"
          "Moderate downtrend: Price < EMA50 < EMA200, partial LH/LL structure"
          alignment structure
      else
        trendOf "downtrend" "weak"
          "Weak downtrend: Price < EMA50 < EMA200 but unclear swing structure"
          alignment structure
    else
      let emaDistance := Qabs (e50 - e200) in
      let avgPrice := (e50 + e200) / 2 in
      (* [emaDistance / avgPrice * 100 < 0.5]; with [avgPrice = 0] the
         quotient is [Infinity] and the test is false *)
      let flat :=
        if eqb avgPrice 0 then false
        else ltb (emaDistance / avgPrice * 100) 0.5 in
      if flat then
        trendOf "choppy" "weak"
          "Choppy: EMAs are flat and close together, no clear trend"
          alignment structure
      else
        trendOf "transition" "weak"
          "Transitional: Mixed EMA signals, possible trend change"
          alignment structure.

(** The object returned by [computeAllIndicators]: the fields read by the
    pre-filters, the two momentum flags, the inside bar and the full trend
    analysis. *)
Module AllIndicators.
Record t := mk
    { indicators : Indicators.t;
      rsiOversold : bool;
      rsiOverbought : bool;
      insideBar : PatternResult.t;
      trendAnalysis : TrendAnalysis.t }.
End AllIndicators.

(** [computeAllIndicators(candles)]; [None] is the thrown error for fewer
    than 50 candles. *)
Definition computeAllIndicators (candles : list Candle.t)
  : option AllIndicators.t :=
  if (length candles <? 50)%nat then None
  else
    match last candles with
    | None => None
    | Some lastCandle =>
        let closes := map Candle.close candles in
        let ema50 := getLatestEMA closes 50 in
        let ema200 := getLatestEMA closes 200 in
        let atr14 := getLatestATR candles 14 in
        let rsi14 := getLatestRSI closes 14 in
        let swingHighs := findSwingHighs candles 3 3 in
        let swingLows := findSwingLows candles 3 3 in
        let srLevels :=
          if falsy atr14 then []
          else identifySRLevels swingHighs swingLows (ToNumber atr14) 0.5 in
        let patterns := analyzePatterns candles in
        let currentPrice := Candle.close lastCandle in
        let nearSR :=
          if falsy atr14 then None
          else isNearSRLevel currentPrice srLevels (ToNumber atr14) 0.3 in
        let trend := determineTrend currentPrice ema50 ema200 candles in
        Some
          {| AllIndicators.indicators :=
               {| Indicators.ema50 := ema50;
                  Indicators.ema200 := ema200;
                  Indicators.atr14 := atr14;
                  Indicators.rsi14 := rsi14;
                  Indicators.swings :=
                    {| Swings.swingHighs := swingHighs;
                       Swings.swingLows := swingLows;
                       Swings.srLevels := srLevels;
                       Swings.nearSR := nearSR |};
                  Indicators.patterns := PatternAnalysis.patterns patterns;
                  Indicators.trend := TrendAnalysis.trend trend;
                  Indicators.currentPrice := currentPrice |};
             AllIndicators.rsiOversold :=
               if falsy rsi14 then false else isOversold (ToNumber rsi14) 30;
             AllIndicators.rsiOverbought :=
               if falsy rsi14 then false
               else isOverbought (ToNumber rsi14) 70;
             AllIndicators.insideBar := PatternAnalysis.insideBar patterns;
             AllIndicators.trendAnalysis := trend |}
    end.

(* ================================================================== *)
(** ** scanner/marketData.js: [formatSymbolForAPI]                      *)
(* ================================================================== *)

(** The character ['/']. *)
Definition slash : Ascii.ascii :=
  Ascii.Ascii true true true true false true false false.

(** [symbol.includes('/')]. *)
Fixpoint includesSlash (s : string) : bool :=
  match s with
  | EmptyString => false
  | String c s' => Ascii.eqb c slash || includesSlash s'
  end.

Definition formatSymbolForAPI (symbol : string) : string :=
  let len := String.length symbol in
  if includesSlash symbol then symbol
  else if (len =? 6)%nat then
    let base := substring 0 3 symbol in
    let quote := substring 3 3 symbol in
    (base ++ "/" ++ quote)%string
  else if (6 <? len)%nat then
    let base := substring 0 (len - 3) symbol in
    let quote := substring (len - 3) 3 symbol in
    (base ++ "/" ++ quote)%string
  else symbol.

(* ================================================================== *)
(** ** openai/validator.js: [validateTradeResponse]                     *)
(* ================================================================== *)

(** A parsed response whose fields have the types of the response schema:
    [direction], [reason] and [management_hint] are strings, [entry] and
    [stop_loss] are numbers or [null], [take_profits] is an array of
    numbers, [confidence] is a number.  On such a response the
    required-field loop and the [typeof] / [Array.isArray] tests find
    nothing. *)
Module TradeResponse.
Record t := mk
    { direction : string;
      entry : option Q;
      stop_loss : option Q;
      take_profits : list Q;
      confidence : Q;
      reason : string;
      management_hint : string }.
End TradeResponse.

(** [config.trading]. *)
Module TradingConfig.
Record t := mk { minAtrMultiplier : Q; maxAtrMultiplier : Q }.
End TradingConfig.

Module Validation.
Record t := mk { valid : bool; errors : list string }.
End Validation.







Section Validator.

(** The text of a number interpolated in a template string. *)
Variable numberToString : Q -> string.


End Validator.

(* ================================================================== *)
(** ** openai/engine.js: [roundPrice]                                   *)
(* ================================================================== *)


(* ================================================================== *)
(** ** Auxiliary notions used in the statements                         *)
(* ================================================================== *)

(** What the scan writes on the first firing bar [b]. *)
Definition closingUpdate (signal : Signal.t) (b : Candle.t)
  : option Update.t :=
  if slHit signal b then Some (slUpdate signal b)
  else checkTPs signal b 0 (Signal.take_profits signal).

(** State of the array of [calculateEMA] once its main loop has filled
    the cells [p .. p + k - 1]. *)
Definition emaInv (prices : list Q) (period : Z) (k : nat) (ema : list num)
  : Prop :=
  let n := length prices in
  let p := Z.to_nat period in
  let k0 := 2 / (inject_Z period + 1) in
  let mean := sumFirst prices p / inject_Z period in
  length ema = n
  /\ (forall i, (i < p - 1)%nat -> get ema i = NaN)
  /\ get ema (p - 1) = Some mean
  /\ (forall i, (p <= i < p + k)%nat ->
        exists prev price,
          get ema (i - 1) = Some prev
          /\ prices !! i = Some price
          /\ get ema i = Some ((price - prev) * k0 + prev)).







Definition mkLevel (type : string) (cluster : Cluster.t) : SRLevel.t :=
  {| SRLevel.price := Cluster.avgPrice cluster;
     SRLevel.type := type;
     SRLevel.touches := Cluster.touches cluster |}.

(** [sum] of the member counts of a list of clusters. *)
Definition totalTouches (clusters : list Cluster.t) : nat :=
  fold_right (fun c acc => (Cluster.touches c + acc)%nat) 0%nat clusters.

(** The four fail-fast preconditions of [applyPrefilters], in source
    order. *)
Definition tooFewCandles (candles : list Candle.t) : bool :=
  (length candles <? 50)%nat.

Definition missingIndicators (indicators : Indicators.t) : bool :=
  falsy (Indicators.atr14 indicators)
  || falsy (Indicators.ema50 indicators)
  || falsy (Indicators.ema200 indicators).

Definition atrTooSmall (indicators : Indicators.t) : bool :=
  ltb (ToNumber (Indicators.atr14 indicators))
      (getMinimumATR (Indicators.currentPrice indicators)).

Definition choppy (indicators : Indicators.t) : bool :=
  String.eqb (Trend.direction (Indicators.trend indicators)) "choppy".

Definition passesPreconditions (candles : list Candle.t)
    (indicators : Indicators.t) : bool :=
  negb (tooFewCandles candles)
  && negb (missingIndicators indicators)
  && negb (atrTooSmall indicators)
  && negb (choppy indicators).

(** What each of the five heuristics returns, in evaluation order; the
    momentum heuristic is consulted in aggressive mode only. *)
Definition heuristicResults (candles : list Candle.t)
    (indicators : Indicators.t) (mode : string) : list (option string) :=
  [ checkTrendAlignedEngulfing indicators;
    checkPinBarAtStructure indicators (last candles);
    checkPullbackIntoTrend candles indicators;
    (if String.eqb mode "aggressive"
     then checkRSIDivergence candles indicators else None);
    checkReversalAtSR indicators ].

(** The reason strings of the heuristics that triggered. *)
Definition triggeredReasons (candles : list Candle.t)
    (indicators : Indicators.t) (mode : string) : list string :=
  omap id (heuristicResults candles indicators mode).

Definition rsiOversoldReason : string :=
  "RSI oversold with potential bullish divergence".
Definition rsiOverboughtReason : string :=
  "RSI overbought with potential bearish divergence".

(** The bundle with another momentum reading. *)
Definition withRsi14 (indicators : Indicators.t) (rsi14 : option Q)
  : Indicators.t :=
  {| Indicators.ema50 := Indicators.ema50 indicators;
     Indicators.ema200 := Indicators.ema200 indicators;
     Indicators.atr14 := Indicators.atr14 indicators;
     Indicators.rsi14 := rsi14;
     Indicators.swings := Indicators.swings indicators;
     Indicators.patterns := Indicators.patterns indicators;
     Indicators.trend := Indicators.trend indicators;
     Indicators.currentPrice := Indicators.currentPrice indicators |}.

(** A [number | null] indicator counts as missing when it is [null] or
    [0] (both are falsy), and as present with value [a] otherwise. *)
Definition missing (x : option Q) : Prop :=
  match x with None => True | Some q => q == 0 end.

Definition present (x : option Q) (a : Q) : Prop :=
  x = Some a /\ ~ a == 0.

(** The reason of the volatility precondition. *)
Definition atrTooSmallReason (indicators : Indicators.t) : string :=
  ("ATR too small ("
   ++ toFixed (ToNumber (Indicators.atr14 indicators)) 5 ++ " < "
   ++ toFixed (getMinimumATR (Indicators.currentPrice indicators)) 5
   ++ "), insufficient volatility")%string.



(** What one pass of the swing loop appends for index [i]. *)
Definition swingAt_ (key : Candle.t -> Q) (beats : Q -> Q -> bool)
    (candles : list Candle.t) (leftBars rightBars : nat) (i : nat)
  : list Swing.t :=
  swingStep key beats candles leftBars rightBars [] i.

(** Index [i] qualifies as a swing of candle [c]: it is far enough from
    both ends and no bar of the two windows has a key that [beats] the
    key of [c]. *)
Definition qualifies (key : Candle.t -> Q) (beats : Q -> Q -> bool)
    (candles : list Candle.t) (leftBars rightBars : nat)
    (i : nat) (c : Candle.t) : Prop :=
  candles !! i = Some c
  /\ (leftBars <= i)%nat /\ (i + rightBars < length candles)%nat
  /\ (forall j d, (i - leftBars <= j < i)%nat -> candles !! j = Some d ->
                  beats (key d) (key c) = false)
  /\ (forall j d, (i < j <= i + rightBars)%nat -> candles !! j = Some d ->
                  beats (key d) (key c) = false).

Definition ascendingIndex (l : list Swing.t) : Prop :=
  StronglySorted (fun a b => (Swing.index a < Swing.index b)%nat) l.

(** Distance of a level from a price. *)
Definition distanceTo (price : Q) (level : SRLevel.t) : Q :=
  Qabs (price - SRLevel.price level).

(** State of the search loop of [isNearSRLevel] after the levels [done_]. *)
Definition nearestInv (price : Q) (done_ : list SRLevel.t)
    (st : option SRLevel.t * option Q) : Prop :=
  match done_ with
  | [] => st = (None, None)
  | _ =>
      exists l,
        st = (Some l, Some (distanceTo price l))
        /\ In l done_
        /\ forall l', In l' done_ -> distanceTo price l <= distanceTo price l'
  end.

(** The reason of the pin-bar heuristic for a bullish pin at [level]. *)
Definition bullishPinReason (level : SRLevel.t) : string :=
  ("Bullish pin bar at support level ("
   ++ toFixed (SRLevel.price level) 5 ++ ")")%string.

(** Levels in descending order of price. *)
Definition descendingPrice (a b : SRLevel.t) : Prop :=
  SRLevel.price b <= SRLevel.price a.

(* ================================================================== *)
(** ** Concrete inputs                                                  *)
(* ================================================================== *)

(** The trade of the outcome contract: long, entry 1.1000, stop 1.0950,
    targets 1.1100 and 1.1200, triggered at time 1000. *)
Definition specSignal : Signal.t :=
  {| Signal.id := 1;
     Signal.entry := 1.1000;
     Signal.stop_loss := 1.0950;
     Signal.take_profits := [1.1100; 1.1200];
     Signal.direction := "long";
     Signal.triggered_at := 1000 |}.

Definition specConfig : Config.t :=
  {| Config.timeoutCandles := 100; Config.expirationCandles := 20 |}.

Definition bar (t : Z) (o h l c : Q) : Candle.t :=
  {| Candle.time := t; Candle.open := o; Candle.high := h;
     Candle.low := l; Candle.close := c; Candle.volume := 0 |}.

(** A bar that touches nothing, one beyond both targets, one through the
    stop, and one whose range covers the stop and the first target. *)
Definition quietBar (t : Z) : Candle.t := bar t 1.1000 1.1010 1.0990 1.1000.
Definition rallyBar (t : Z) : Candle.t := bar t 1.1000 1.1250 1.1000 1.1200.
Definition dropBar (t : Z) : Candle.t := bar t 1.1000 1.1000 1.0940 1.0950.
Definition wideBar (t : Z) : Candle.t := bar t 1.1000 1.1150 1.0940 1.1000.




(** Three rising closes: with period 2 both changes are gains and the
    average loss is 0. *)
Definition risingPrices : list Q := [1; 2; 3].

(** Five swing points, as prices. *)
Definition swingAt (p : Q) (i : nat) : Swing.t :=
  {| Swing.price := p; Swing.time := Z.of_nat i; Swing.index := i |}.

Definition sampleSwings : list Swing.t :=
  [swingAt 3 0; swingAt 1 1; swingAt 1.2 2; swingAt 1.6 3; swingAt 2.9 4].

(** Fifty quiet bars and a bundle that passes the four preconditions,
    with an oversold momentum reading, two swing lows and no swing high;
    no pattern is detected and the trend is a transition. *)
Definition fiftyBars : list Candle.t :=
  map (fun k => quietBar (Z.of_nat k)) (seq 1 50).

Definition noPattern : PatternResult.t :=
  {| PatternResult.detected := false;
     PatternResult.description := EmptyString |}.

Definition noPatterns : Patterns.t :=
  {| Patterns.bullishEngulfing := noPattern;
     Patterns.bearishEngulfing := noPattern;
     Patterns.bullishPin := noPattern;
     Patterns.bearishPin := noPattern |}.

Definition bundle (rsi : Q) (highs lows : list Swing.t) : Indicators.t :=
  {| Indicators.ema50 := Some 1.0900;
     Indicators.ema200 := Some 1.1100;
     Indicators.atr14 := Some 0.0020;
     Indicators.rsi14 := Some rsi;
     Indicators.swings :=
       {| Swings.swingHighs := highs;
          Swings.swingLows := lows;
          Swings.srLevels := [];
          Swings.nearSR := None |};
     Indicators.patterns := noPatterns;
     Indicators.trend :=
       {| Trend.direction := "transition"; Trend.strength := "weak" |};
     Indicators.currentPrice := 1.1000 |}.

Definition twoLows : list Swing.t := [swingAt 1.0950 10; swingAt 1.0960 20].
Definition twoHighs : list Swing.t := [swingAt 1.1050 15; swingAt 1.1060 25].

Definition oversoldNoHighs : Indicators.t := bundle 25 [] twoLows.
Definition oversoldBoth : Indicators.t := bundle 25 twoHighs twoLows.

(** A pending signal created at time 1000 with entry 1.1000. *)
Definition pendingSignal : PendingSignal.t :=
  {| PendingSignal.id := 1;
     PendingSignal.entry := 1.1000;
     PendingSignal.created_at := 1000 |}.

(** A bar wholly above the entry 1.1000. *)
Definition highBar (t : Z) : Candle.t := bar t 1.1050 1.1060 1.1040 1.1050.

(** A short trade mirroring [specSignal]. *)
Definition shortSignal : Signal.t :=
  {| Signal.id := 2;
     Signal.entry := 1.1000;
     Signal.stop_loss := 1.1050;
     Signal.take_profits := [1.0900; 1.0800];
     Signal.direction := "short";
     Signal.triggered_at := 1000 |}.

(** Seven bars with a peak at index 3. *)
Definition peakBars : list Candle.t :=
  [bar 0 1 2 1 1; bar 1 1 3 1 1; bar 2 1 4 1 1; bar 3 1 9 1 1;
   bar 4 1 4 1 1; bar 5 1 3 1 1; bar 6 1 2 1 1].

Definition levelAt (p : Q) (kind : string) (n : nat) : SRLevel.t :=
  {| SRLevel.price := p; SRLevel.type := kind; SRLevel.touches := n |}.

(** A bundle with a bullish pin bar next to a support level touched three
    times, in a transition. *)
Definition pinAtSupport : Indicators.t :=
  {| Indicators.ema50 := Some 1.0900;
     Indicators.ema200 := Some 1.1100;
     Indicators.atr14 := Some 0.0020;
     Indicators.rsi14 := Some 50;
     Indicators.swings :=
       {| Swings.swingHighs := [];
          Swings.swingLows := [];
          Swings.srLevels := [levelAt 1.0995 "support" 3];
          Swings.nearSR := Some (levelAt 1.0995 "support" 3) |};
     Indicators.patterns :=
       {| Patterns.bullishEngulfing := noPattern;
          Patterns.bearishEngulfing := noPattern;
          Patterns.bullishPin :=
            {| PatternResult.detected := true;
               PatternResult.description := "Bullish pin bar" |};
          Patterns.bearishPin := noPattern |};
     Indicators.trend :=
       {| Trend.direction := "transition"; Trend.strength := "weak" |};
     Indicators.currentPrice := 1.1000 |}.




(* ================================================================== *)
(** * Properties                                                        *)
(* ================================================================== *)

(** ** Comparisons *)

Lemma leb_true (a b : Q) : leb a b = true <-> a <= b.
Proof. unfold leb. apply Qle_bool_iff. Qed.

Lemma geb_true (a b : Q) : geb a b = true <-> b <= a.
Proof. unfold geb. apply Qle_bool_iff. Qed.

Lemma ltb_true (a b : Q) : ltb a b = true <-> a < b.
Proof.
  unfold ltb. rewrite negb_true_iff.
  destruct (Qle_bool b a) eqn:E.
  - apply Qle_bool_iff in E. split; [discriminate | intros H; lra].
  - split; [intros _ | reflexivity].
    apply Qnot_le_lt. intros H. apply Qle_bool_iff in H. congruence.
Qed.

Lemma gtb_true (a b : Q) : gtb a b = true <-> b < a.
Proof. unfold gtb. apply (ltb_true b a). Qed.

Lemma eqb_true (a b : Q) : eqb a b = true <-> a == b.
Proof. unfold eqb. apply Qeq_bool_iff. Qed.

Lemma eqb_false (a b : Q) : eqb a b = false <-> ~ a == b.
Proof.
  rewrite <- eqb_true. destruct (eqb a b); split; congruence.
Qed.

Lemma leb_false (a b : Q) : leb a b = false <-> b < a.
Proof.
  rewrite <- gtb_true. unfold gtb, leb.
  destruct (Qle_bool a b); simpl; split; congruence.
Qed.

Lemma ltb_false (a b : Q) : ltb a b = false <-> b <= a.
Proof.
  rewrite <- leb_true. unfold ltb, leb.
  destruct (Qle_bool b a); simpl; split; congruence.
Qed.

Lemma Qabs_zero_iff (x : Q) : Qabs x == 0 <-> x == 0.
Proof.
  split; intros H.
  - revert H. apply Qabs_case; intros; lra.
  - rewrite H. reflexivity.
Qed.

(** ** The outcome calculator *)

Lemma riskUnit_nonzero (signal : Signal.t) :
  ~ Signal.entry signal == Signal.stop_loss signal ->
  eqb (Qabs (Signal.entry signal - Signal.stop_loss signal)) 0 = false.
Proof.
  intros H. apply eqb_false. rewrite Qabs_zero_iff. lra.
Qed.

(** C1.  With [entry <> stopLoss], [calculateRMultiple] returns exactly
    [-1] for hit type ['sl'] and exactly [0] for ['timeout'], whatever hit
    price is passed; for ['tp1'], ['tp2'], ['tp3'] it returns
    [(hitPrice - entry) / |entry - stopLoss|] on a long signal and
    [(entry - hitPrice) / |entry - stopLoss|] on a short one.  With
    [|entry - stopLoss| = 0] it returns [0] for every hit type. *)
Theorem calculateRMultiple_contract (signal : Signal.t) (hitPrice : Q) :
  let entry := Signal.entry signal in
  let stop_loss := Signal.stop_loss signal in
  (~ entry == stop_loss ->
     calculateRMultiple signal hitPrice "sl" = -1
     /\ calculateRMultiple signal hitPrice "timeout" = 0
     /\ (forall hitType : string,
           In hitType ["tp1"; "tp2"; "tp3"]%string ->
           (Signal.direction signal = "long"%string ->
              calculateRMultiple signal hitPrice hitType
              = (hitPrice - entry) / Qabs (entry - stop_loss))
           /\ (Signal.direction signal = "short"%string ->
              calculateRMultiple signal hitPrice hitType
              = (entry - hitPrice) / Qabs (entry - stop_loss))))
  /\ (Qabs (entry - stop_loss) == 0 ->
      forall hitType : string,
        calculateRMultiple signal hitPrice hitType = 0).
Proof.
  intros entry stop_loss. split.
  - intros Hne. pose proof (riskUnit_nonzero signal Hne) as HR.
    unfold calculateRMultiple. rewrite HR.
    split; [reflexivity | split; [reflexivity |]].
    intros hitType Hin. fold entry stop_loss.
    split; intros Hd;
      destruct Hin as [<- | [<- | [<- | []]]]; simpl; rewrite Hd; reflexivity.
  - intros HR hitType. unfold calculateRMultiple.
    apply eqb_true in HR. fold entry stop_loss. rewrite HR. reflexivity.
Qed.

Lemma calculateRMultiple_contract_witness :
  calculateRMultiple specSignal 1.0940 "sl" = -1
  /\ calculateRMultiple specSignal 1.0940 "timeout" = 0.
Proof.
  destruct (calculateRMultiple_contract specSignal 1.0940) as [H _].
  assert (Hne : ~ Signal.entry specSignal == Signal.stop_loss specSignal)
    by (vm_compute; discriminate).
  destruct (H Hne) as (Hsl & Hto & _). split; assumption.
Defined.

(** ** The scan of a triggered signal *)

Lemma checkTPs_none (signal : Signal.t) (candle : Candle.t) (tps : list Q) :
  forall i,
    existsb (tpHit signal candle) tps = false ->
    checkTPs signal candle i tps = None.
Proof.
  induction tps as [|tp rest IH]; intros i H; simpl in *.
  - reflexivity.
  - apply orb_false_iff in H as [H1 H2]. rewrite H1. apply IH, H2.
Qed.

Lemma checkTPs_first (signal : Signal.t) (candle : Candle.t)
    (before : list Q) (tp : Q) (rest : list Q) :
  forall i,
    Forall (fun t => tpHit signal candle t = false) before ->
    tpHit signal candle tp = true ->
    checkTPs signal candle i (before ++ tp :: rest)
    = Some (tpUpdate signal candle (i + length before) tp).
Proof.
  induction before as [|t before IH]; intros i Hb Htp; simpl.
  - rewrite Htp, Nat.add_0_r. reflexivity.
  - inversion Hb as [|? ? Ht Hb']; subst. rewrite Ht.
    rewrite IH by assumption. rewrite Nat.add_succ_r. reflexivity.
Qed.

(** Some target is hit iff there is a first one in stored order. *)
Lemma existsb_first_split {A} (f : A -> bool) (l : list A) :
  existsb f l = true ->
  exists before x rest,
    l = before ++ x :: rest
    /\ Forall (fun y => f y = false) before /\ f x = true.
Proof.
  induction l as [|a l IH]; simpl; intros H; [discriminate|].
  destruct (f a) eqn:Ha.
  - exists [], a, l. repeat split; [constructor | assumption].
  - simpl in H. destruct (IH H) as (before & x & rest & -> & Hb & Hx).
    exists (a :: before), x, rest. repeat split; [|assumption].
    constructor; assumption.
Qed.

Lemma scanCandles_quiet (signal : Signal.t) (candles : list Candle.t) :
  Forall (fun c => fires signal c = false) candles ->
  scanCandles signal candles = None.
Proof.
  induction 1 as [|c l Hc _ IH]; simpl; [reflexivity|].
  unfold fires in Hc. apply orb_false_iff in Hc as [Hsl Htp].
  rewrite Hsl, (checkTPs_none _ _ _ 0%nat Htp). exact IH.
Qed.

Lemma scanCandles_app_quiet (signal : Signal.t)
    (pre rest : list Candle.t) :
  Forall (fun c => fires signal c = false) pre ->
  scanCandles signal (pre ++ rest) = scanCandles signal rest.
Proof.
  induction 1 as [|c l Hc _ IH]; simpl; [reflexivity|].
  unfold fires in Hc. apply orb_false_iff in Hc as [Hsl Htp].
  rewrite Hsl, (checkTPs_none _ _ _ 0%nat Htp). exact IH.
Qed.

(** Conversely a scan that returns nothing met no firing bar. *)
Lemma scanCandles_None_quiet (signal : Signal.t) (candles : list Candle.t) :
  scanCandles signal candles = None ->
  Forall (fun c => fires signal c = false) candles.
Proof.
  induction candles as [|c l IH]; simpl; intros H; [constructor|].
  destruct (slHit signal c) eqn:Hsl; [discriminate|].
  destruct (checkTPs signal c 0 (Signal.take_profits signal)) eqn:Htp;
    [discriminate|].
  constructor; [|apply IH, H].
  unfold fires. rewrite Hsl. simpl.
  destruct (existsb (tpHit signal c) (Signal.take_profits signal)) eqn:E;
    [|reflexivity].
  destruct (existsb_first_split _ _ E) as (before & x & rest & Hl & Hb & Hx).
  rewrite Hl, (checkTPs_first _ _ _ _ _ 0%nat Hb Hx) in Htp. discriminate.
Qed.

Lemma scanCandles_first (signal : Signal.t)
    (pre : list Candle.t) (b : Candle.t) (post : list Candle.t) :
  Forall (fun c => fires signal c = false) pre ->
  fires signal b = true ->
  scanCandles signal (pre ++ b :: post) = closingUpdate signal b
  /\ exists u, closingUpdate signal b = Some u.
Proof.
  intros Hpre Hb. rewrite (scanCandles_app_quiet _ _ _ Hpre).
  unfold closingUpdate. simpl.
  destruct (slHit signal b) eqn:Hsl.
  - split; [reflexivity | eauto].
  - unfold fires in Hb. rewrite Hsl in Hb. simpl in Hb.
    destruct (existsb_first_split _ _ Hb) as (before & x & rest & Hl & Hq & Hx).
    rewrite Hl, (checkTPs_first _ _ _ _ _ 0%nat Hq Hx).
    split; [reflexivity | eauto].
Qed.

Lemma checkTriggeredSignal_first (config : Config.t) (signal : Signal.t)
    (candles pre : list Candle.t) (b : Candle.t) (post : list Candle.t) :
  candlesAfterTrigger signal candles = pre ++ b :: post ->
  Forall (fun c => fires signal c = false) pre ->
  fires signal b = true ->
  checkTriggeredSignal config signal candles = closingUpdate signal b
  /\ exists u, closingUpdate signal b = Some u.
Proof.
  intros Hsplit Hpre Hb.
  destruct (scanCandles_first signal pre b post Hpre Hb) as [Hscan [u Hu]].
  split; [|eauto].
  unfold checkTriggeredSignal. rewrite Hsplit.
  rewrite length_app. simpl length.
  replace (length pre + S (length post) =? 0)%nat with false
    by (symmetry; apply Nat.eqb_neq; lia).
  rewrite Hscan, Hu. reflexivity.
Qed.

Lemma hit_slUpdate (signal : Signal.t) (b : Candle.t) :
  OutcomeDetail.hit (Update.outcome_detail (slUpdate signal b)) = "sl"%string
  /\ Update.outcome (slUpdate signal b) = "loss"%string
  /\ Update.status (slUpdate signal b) = "loss"%string
  /\ Update.closed_at (slUpdate signal b) = Candle.time b.
Proof. repeat split. Qed.

Lemma checkTPs_Some (signal : Signal.t) (candle : Candle.t) (tps : list Q) :
  forall i u,
    checkTPs signal candle i tps = Some u ->
    exists k tp,
      tps !! k = Some tp
      /\ tpHit signal candle tp = true
      /\ (forall j t, (j < k)%nat -> tps !! j = Some t ->
                      tpHit signal candle t = false)
      /\ u = tpUpdate signal candle (i + k) tp.
Proof.
  induction tps as [|tp rest IH]; intros i u H; simpl in H; [discriminate|].
  destruct (tpHit signal candle tp) eqn:Htp.
  - injection H as <-. exists 0%nat, tp. repeat split; auto.
    + intros j t Hj. lia.
    + rewrite Nat.add_0_r. reflexivity.
  - destruct (IH _ _ H) as (k & t & Hk & Ht & Hmin & ->).
    exists (S k), t. repeat split; auto.
    + intros [|j] t' Hj Hl; simpl in Hl.
      * injection Hl as <-. exact Htp.
      * apply (Hmin j); [lia | exact Hl].
    + rewrite Nat.add_succ_r. reflexivity.
Qed.

Lemma ascendingTime_filter (f : Candle.t -> bool) (l : list Candle.t) :
  ascendingTime l -> ascendingTime (List.filter f l).
Proof.
  unfold ascendingTime. induction 1 as [|a l Hs IH Ha]; simpl.
  - constructor.
  - destruct (f a); [|exact IH].
    constructor; [exact IH|].
    rewrite List.Forall_forall in *. intros x Hx.
    apply List.filter_In in Hx as [Hx _]. auto.
Qed.


Lemma scanCandles_Some_split (signal : Signal.t) (candles : list Candle.t) :
  forall u,
    scanCandles signal candles = Some u ->
    exists pre b post,
      candles = pre ++ b :: post
      /\ Forall (fun c => fires signal c = false) pre
      /\ fires signal b = true
      /\ closingUpdate signal b = Some u.
Proof.
  induction candles as [|c l IH]; simpl; intros u H; [discriminate|].
  destruct (slHit signal c) eqn:Hsl.
  - exists [], c, l. unfold closingUpdate, fires. rewrite Hsl.
    repeat split; [constructor | exact H].
  - destruct (checkTPs signal c 0 (Signal.take_profits signal)) eqn:Htp.
    + exists [], c, l. unfold closingUpdate, fires. rewrite Hsl, Htp. simpl.
      repeat split; [constructor | | exact H].
      destruct (existsb (tpHit signal c) (Signal.take_profits signal)) eqn:E;
        [reflexivity|].
      rewrite (checkTPs_none _ _ _ 0%nat E) in Htp. discriminate.
    + destruct (IH _ H) as (pre & b & post & -> & Hpre & Hb & Hu).
      exists (c :: pre), b, post. repeat split; auto.
      constructor; [|exact Hpre].
      unfold fires. rewrite Hsl. simpl.
      destruct (existsb (tpHit signal c) (Signal.take_profits signal)) eqn:E;
        [|reflexivity].
      destruct (existsb_first_split _ _ E) as (bf & x & rs & Hl & Hq & Hx).
      rewrite Hl, (checkTPs_first _ _ _ _ _ 0%nat Hq Hx) in Htp. discriminate.
Qed.


Lemma hit_timeoutUpdate (signal : Signal.t) (c : Candle.t) :
  OutcomeDetail.hit (Update.outcome_detail (timeoutUpdate signal c))
  = "timeout"%string.
Proof. reflexivity. Qed.




(** C3.  On the closing bar, when the stop loss is not hit, the targets
    are tested in stored order and the first index that matches is the
    recorded hit: index [i] gives hit ['tp(i+1)'] at price
    [take_profits[i]].  In particular a long trade with targets
    [[tp1, tp2]] whose first bar after the trigger has a high at or beyond
    both targets, and stays above the stop, records hit ['tp1']. *)
Theorem first_matching_target_recorded
    (config : Config.t) (signal : Signal.t) (candles : list Candle.t) :
  let after := candlesAfterTrigger signal candles in
  (forall pre b post i tp,
      after = pre ++ b :: post ->
      Forall (fun c => fires signal c = false) pre ->
      slHit signal b = false ->
      Signal.take_profits signal !! i = Some tp ->
      tpHit signal b tp = true ->
      (forall j t, (j < i)%nat -> Signal.take_profits signal !! j = Some t ->
                   tpHit signal b t = false) ->
      exists u,
        checkTriggeredSignal config signal candles = Some u
        /\ u = tpUpdate signal b i tp
        /\ OutcomeDetail.hit (Update.outcome_detail u)
           = ("tp" ++ string_of_nat (i + 1))%string
        /\ OutcomeDetail.hitPrice (Update.outcome_detail u) = tp
        /\ Update.closed_at u = Candle.time b)
  /\ (forall b post tp1 tp2,
        Signal.direction signal = "long"%string ->
        Signal.take_profits signal = [tp1; tp2] ->
        after = b :: post ->
        Signal.stop_loss signal < Candle.low b ->
        tp1 <= Candle.high b ->
        tp2 <= Candle.high b ->
        exists u,
          checkTriggeredSignal config signal candles = Some u
          /\ OutcomeDetail.hit (Update.outcome_detail u) = "tp1"%string
          /\ OutcomeDetail.hit (Update.outcome_detail u) <> "tp2"%string
          /\ OutcomeDetail.hitPrice (Update.outcome_detail u) = tp1).
Proof.
  intros after.
  assert (General : forall pre b post i tp,
      after = pre ++ b :: post ->
      Forall (fun c => fires signal c = false) pre ->
      slHit signal b = false ->
      Signal.take_profits signal !! i = Some tp ->
      tpHit signal b tp = true ->
      (forall j t, (j < i)%nat -> Signal.take_profits signal !! j = Some t ->
                   tpHit signal b t = false) ->
      checkTriggeredSignal config signal candles
      = Some (tpUpdate signal b i tp)).
  { intros pre b post i tp Hsplit Hpre Hsl Hi Htp Hmin.
    assert (Hb : fires signal b = true).
    { unfold fires. rewrite Hsl. simpl. apply existsb_exists.
      exists tp. split; [|exact Htp].
      apply list_elem_of_In, list_elem_of_lookup. eauto. }
    destruct (checkTriggeredSignal_first config signal candles pre b post
                Hsplit Hpre Hb) as [-> _].
    unfold closingUpdate. rewrite Hsl.
    pose proof (take_drop_middle _ _ _ Hi) as Hmid.
    rewrite <- Hmid.
    rewrite (checkTPs_first signal b
               (take i (Signal.take_profits signal)) tp
               (drop (S i) (Signal.take_profits signal)) 0%nat).
    - rewrite length_take. apply lookup_lt_Some in Hi.
      rewrite Nat.min_l by lia. reflexivity.
    - apply Forall_forall. intros t Ht.
      apply list_elem_of_lookup in Ht as [j Hj].
      apply lookup_take_Some in Hj as [Hj Hlt]. eauto.
    - exact Htp. }
  split.
  - intros pre b post i tp Hsplit Hpre Hsl Hi Htp Hmin.
    exists (tpUpdate signal b i tp).
    rewrite (General pre b post i tp) by assumption.
    repeat split.
  - intros b post tp1 tp2 Hdir Htps Hsplit Hlow H1 H2.
    assert (Hsl : slHit signal b = false).
    { unfold slHit. rewrite Hdir. simpl. apply leb_false. exact Hlow. }
    assert (Htp : tpHit signal b tp1 = true).
    { unfold tpHit. rewrite Hdir. simpl. apply geb_true. exact H1. }
    exists (tpUpdate signal b 0 tp1).
    rewrite (General [] b post 0%nat tp1); try assumption.
    + repeat split. discriminate.
    + constructor.
    + rewrite Htps. reflexivity.
    + intros j t Hj. lia.
Qed.

Lemma first_matching_target_recorded_witness :
  exists u,
    checkTriggeredSignal specConfig specSignal
      [quietBar 900; rallyBar 1100; dropBar 1200] = Some u
    /\ OutcomeDetail.hit (Update.outcome_detail u) = "tp1"%string
    /\ OutcomeDetail.hit (Update.outcome_detail u) <> "tp2"%string
    /\ OutcomeDetail.hitPrice (Update.outcome_detail u) = 1.1100.
Proof.
  destruct (first_matching_target_recorded specConfig specSignal
              [quietBar 900; rallyBar 1100; dropBar 1200]) as [_ H].
  apply (H (rallyBar 1100) [dropBar 1200] 1.1100 1.1200).
  - reflexivity.
  - reflexivity.
  - reflexivity.
  - vm_compute. reflexivity.
  - vm_compute. discriminate.
  - vm_compute. discriminate.
Defined.

(** ** Bar order *)














(** ** Exponential moving average *)

Lemma eqb_inject_Z_pos (z : Z) : (0 < z)%Z -> eqb (inject_Z z) 0 = false.
Proof.
  intros H. apply eqb_false. intros E.
  assert (0 < inject_Z z) by (rewrite <- (Zlt_Qlt 0); exact H). lra.
Qed.

Lemma eqb_inject_Z_succ (z : Z) :
  (0 < z)%Z -> eqb (inject_Z z + 1) 0 = false.
Proof.
  intros H. apply eqb_false. intros E.
  assert (0 < inject_Z z) by (rewrite <- (Zlt_Qlt 0); exact H). lra.
Qed.

Lemma get_insert_eq (arr : list num) (i : nat) (v : num) :
  (i < length arr)%nat -> get (<[i := v]> arr) i = v.
Proof.
  intros H. unfold get. rewrite list_lookup_insert_eq by exact H. reflexivity.
Qed.

Lemma get_insert_ne (arr : list num) (i j : nat) (v : num) :
  i <> j -> get (<[i := v]> arr) j = get arr j.
Proof.
  intros H. unfold get. rewrite list_lookup_insert_ne by exact H. reflexivity.
Qed.

Lemma get_replicate_NaN (n i : nat) : get (replicate n NaN) i = NaN.
Proof.
  unfold get. destruct (replicate n NaN !! i) as [v|] eqn:E; [|reflexivity].
  apply lookup_replicate in E as [-> _]. reflexivity.
Qed.

(** The seeding loop leaves the array as it was (all cells undefined) and
    accumulates the prices it visits. *)
Lemma emaSeed_fold (prices : list Q) (n : nat) :
  forall (k a : nat) (s : Q),
    (a + k <= length prices)%nat ->
    fold_left (emaSeedStep prices) (seq a k) (replicate n NaN, Some s)
    = (replicate n NaN,
       Some (fold_left Qplus (firstn k (skipn a prices)) s)).
Proof.
  induction k as [|k IH]; intros a s Hle; simpl.
  - reflexivity.
  - rewrite insert_replicate.
    destruct (prices !! a) as [x|] eqn:Hx.
    2:{ apply lookup_ge_None in Hx. lia. }
    unfold getQ. rewrite Hx. simpl nadd.
    rewrite IH by lia.
    rewrite (drop_S _ _ _ Hx). simpl. reflexivity.
Qed.

Section EmaLoop.
Variable prices : list Q.
Variable period : Z.
Hypothesis period_pos : (1 <= period)%Z.
Hypothesis period_le : (period <= Z.of_nat (length prices))%Z.

Let n := length prices.
Let p := Z.to_nat period.
Let k0 : Q := 2 / (inject_Z period + 1).
Let mean : Q := sumFirst prices p / inject_Z period.
Let emaInv := emaInv prices period.

Lemma emaInv_defined (k : nat) (ema : list num) :
  emaInv k ema ->
  forall i, (p - 1 <= i < p + k)%nat -> exists v, get ema i = Some v.
Proof.
  intros (_ & _ & Hm & Hrec) i Hi.
  destruct (decide (i = p - 1)%nat) as [-> | Hne]; [eauto|].
  destruct (Hrec i) as (prev & price & _ & _ & Hv); [lia | eauto].
Qed.

Lemma emaInv_step (k : nat) (ema : list num) :
  (p + k < n)%nat ->
  emaInv k ema ->
  emaInv (S k) (emaStep prices (Some k0) ema (p + k)).
Proof.
  intros Hlt Hinv.
  assert (Hp : (1 <= p)%nat) by (unfold p; lia).
  destruct (emaInv_defined k ema Hinv (p + k - 1)%nat) as [prev Hprev];
    [lia|].
  destruct Hinv as (Hlen & Hnan & Hm & Hrec).
  destruct (prices !! (p + k)%nat) as [price|] eqn:Hprice.
  2:{ apply lookup_ge_None in Hprice. fold n in Hprice. lia. }
  unfold emaStep, getQ. rewrite Hprice, Hprev. simpl.
  split; [rewrite length_insert; exact Hlen|].
  split; [intros i Hi; rewrite get_insert_ne by lia; auto|].
  split; [rewrite get_insert_ne by lia; exact Hm|].
  intros i Hi.
  destruct (decide (i = p + k)%nat) as [-> | Hne].
  - exists prev, price.
    rewrite get_insert_ne by lia. rewrite get_insert_eq by lia.
    auto.
  - destruct (Hrec i) as (pr & x & H1 & H2 & H3); [lia|].
    exists pr, x. rewrite !get_insert_ne by lia. auto.
Qed.

Lemma emaInv_loop (ema : list num) :
  emaInv 0 ema ->
  forall k, (p + k <= n)%nat ->
    emaInv k (fold_left (emaStep prices (Some k0)) (seq p k) ema).
Proof.
  intros H0. induction k as [|k IH]; intros Hle; [exact H0|].
  rewrite seq_S, fold_left_app. simpl.
  apply emaInv_step; [lia | apply IH; lia].
Qed.

Lemma calculateEMA_unfold :
  calculateEMA prices period
  = fold_left (emaStep prices (Some k0)) (seq p (n - p))
      (<[(p - 1)%nat := Some mean]> (replicate n NaN)).
Proof.
  assert (Hn : (1 <= n)%nat) by (unfold n; lia).
  unfold calculateEMA. fold n.
  replace (n =? 0)%nat with false by (symmetry; apply Nat.eqb_neq; lia).
  replace (period <=? 0)%Z with false by (symmetry; apply Z.leb_gt; lia).
  replace (period >? Z.of_nat n)%Z with false
    by (symmetry; rewrite Z.gtb_ltb; apply Z.ltb_ge; unfold n; lia).
  simpl orb. cbv iota. unfold new_Array. fold p.
  rewrite (emaSeed_fold prices n p 0 0) by (unfold p, n; lia).
  unfold ndiv.
  rewrite eqb_inject_Z_succ, eqb_inject_Z_pos by lia.
  rewrite drop_0. reflexivity.
Qed.

Lemma calculateEMA_inv : emaInv (n - p) (calculateEMA prices period).
Proof.
  assert (Hp : (1 <= p <= n)%nat) by (unfold p, n; lia).
  rewrite calculateEMA_unfold. apply emaInv_loop; [|lia].
  split; [rewrite length_insert, length_replicate; reflexivity|].
  split.
  { intros i Hi. rewrite get_insert_ne by lia. apply get_replicate_NaN. }
  split.
  { apply get_insert_eq. rewrite length_replicate. lia. }
  intros i Hi. lia.
Qed.
End EmaLoop.

(** C5.  For a series of length [n] and a period [p] with [1 <= p <= n],
    [calculateEMA] returns an array of length [n] whose first [p - 1]
    entries are undefined, whose entry [p - 1] is the arithmetic mean of
    the first [p] prices and whose entry at each [i >= p] is
    [(price[i] - ema[i-1]) * (2 / (p + 1)) + ema[i-1]]; when [n < p] the
    array has length [n] and every entry is undefined. *)
Theorem calculateEMA_spec (prices : list Q) (period : Z) :
  let n := length prices in
  let p := Z.to_nat period in
  let ema := calculateEMA prices period in
  ((1 <= period)%Z -> (period <= Z.of_nat n)%Z ->
     length ema = n
     /\ (forall i, (i < p - 1)%nat -> ema !! i = Some NaN)
     /\ ema !! (p - 1)%nat = Some (Some (sumFirst prices p / inject_Z period))
     /\ (forall i, (p <= i < n)%nat ->
           exists prev price,
             ema !! (i - 1)%nat = Some (Some prev)
             /\ prices !! i = Some price
             /\ ema !! i
                = Some (Some ((price - prev) * (2 / (inject_Z period + 1))
                              + prev))))
  /\ ((Z.of_nat n < period)%Z ->
      length ema = n /\ forall i, (i < n)%nat -> ema !! i = Some NaN).
Proof.
  intros n p ema. split.
  - intros H1 H2.
    destruct (calculateEMA_inv prices period H1 H2)
      as (Hlen & Hnan & Hm & Hrec).
    fold n p ema in Hlen, Hnan, Hm, Hrec.
    assert (Hp : (1 <= p <= n)%nat) by (unfold p, n; lia).
    assert (Hget : forall i v, (i < n)%nat -> get ema i = v ->
                               ema !! i = Some v).
    { intros i v Hi Hg. unfold get in Hg.
      destruct (ema !! i) as [w|] eqn:E; [congruence|].
      apply lookup_ge_None in E. lia. }
    split; [exact Hlen|].
    split; [intros i Hi; apply Hget; [lia | auto]|].
    split; [apply Hget; [lia | exact Hm]|].
    intros i Hi.
    destruct (Hrec i) as (prev & price & Ha & Hb & Hc); [lia|].
    exists prev, price.
    split; [apply Hget; [lia | exact Ha]|].
    split; [exact Hb | apply Hget; [lia | exact Hc]].
  - intros Hlt. subst ema. unfold calculateEMA. fold n.
    destruct (n =? 0)%nat eqn:E0.
    + apply Nat.eqb_eq in E0. split; [simpl; lia | intros i Hi; lia].
    + replace (period >? Z.of_nat n)%Z with true
        by (symmetry; rewrite Z.gtb_ltb; apply Z.ltb_lt; lia).
      rewrite orb_true_r. unfold Array_fill_NaN.
      split; [apply length_replicate|].
      intros i Hi. apply lookup_replicate. auto.
Qed.

Lemma calculateEMA_spec_witness :
  calculateEMA [1; 2; 3; 4; 5] 3 !! 2%nat
  = Some (Some (sumFirst [1; 2; 3; 4; 5] 3 / inject_Z 3))
  /\ length (calculateEMA [1; 2] 3) = 2%nat.
Proof.
  split.
  - destruct (calculateEMA_spec [1; 2; 3; 4; 5] 3) as [H _].
    apply H; simpl; lia.
  - destruct (calculateEMA_spec [1; 2] 3) as [_ H].
    apply H. simpl. lia.
Defined.

(** ** Relative strength index *)







(** With a zero average loss the value produced is [100 - 100/101], for
    any average gain. *)
Lemma rsiOf_zero_loss (g l : Q) :
  l == 0 -> rsiOf (Some g) (Some l) = Some (100 - 100 / (1 + 100)).
Proof.
  intros H. unfold rsiOf. simpl.
  replace (eqb l 0) with true by (symmetry; apply eqb_true; exact H).
  simpl. reflexivity.
Qed.







(** C4.  The series [1, 2, 3] with period 2 has a zero average loss at
    index 2, and the value produced there is [100 - 100/101 = 10000/101],
    not 100: the guard sets the ratio [rs], not the index, to 100. *)
Theorem calculateRSI_zero_loss_value :
  exists g l v,
    rsiRun risingPrices 2 = (Some g, Some l, [NaN; NaN; Some v])
    /\ calculateRSI risingPrices 2 = [NaN; NaN; Some v]
    /\ l == 0
    /\ v == 10000 # 101
    /\ ~ v == 100.
Proof.
  eexists _, _, _.
  split; [vm_compute; reflexivity|].
  split; [vm_compute; reflexivity|].
  split; [vm_compute; reflexivity|].
  split; [vm_compute; reflexivity|].
  vm_compute. discriminate.
Qed.

(** ** Support and resistance clustering *)

Lemma insertByPrice_perm (s : Swing.t) (l : list Swing.t) :
  Permutation (insertByPrice s l) (s :: l).
Proof.
  induction l as [|h l IH]; simpl; [reflexivity|].
  destruct (leb (Swing.price s) (Swing.price h)); [reflexivity|].
  rewrite IH. apply perm_swap.
Qed.

Lemma sortByPrice_perm (l : list Swing.t) : Permutation (sortByPrice l) l.
Proof.
  induction l as [|s l IH]; simpl; [reflexivity|].
  rewrite insertByPrice_perm. constructor. exact IH.
Qed.



Lemma sortByPrice_length (l : list Swing.t) :
  length (sortByPrice l) = length l.
Proof. apply Permutation_length, sortByPrice_perm. Qed.







(** The loop of [clusterSwings] computes the summaries of the groups. *)
Lemma clusterStep_groupStep_one (threshold : Q)
    (groups : list (list Swing.t)) (cur : list Swing.t) (s : Swing.t) :
  cur <> [] ->
  exists groups' cur',
    groupStep threshold (groups, cur) s = (groups', cur')
    /\ clusterStep threshold (map mkCluster groups, cur) s
       = (map mkCluster groups', cur')
    /\ cur' <> [].
Proof.
  intros Hne. unfold groupStep, clusterStep.
  destruct (leb (Qabs (Swing.price s - anchorPrice cur s)) threshold).
  - exists groups, (cur ++ [s]). repeat split.
    destruct cur; discriminate.
  - exists (groups ++ [cur]), [s]. repeat split; [|discriminate].
    unfold pushCluster. destruct cur as [|a cur']; [contradiction|].
    simpl. rewrite map_app. reflexivity.
Qed.

Lemma clusterStep_groupStep (threshold : Q) (rest : list Swing.t) :
  forall groups cur,
    cur <> [] ->
    exists groups' cur',
      fold_left (groupStep threshold) rest (groups, cur) = (groups', cur')
      /\ fold_left (clusterStep threshold) rest (map mkCluster groups, cur)
         = (map mkCluster groups', cur')
      /\ cur' <> [].
Proof.
  induction rest as [|s rest IH]; intros groups cur Hne; cbn [fold_left].
  - exists groups, cur. auto.
  - destruct (clusterStep_groupStep_one threshold groups cur s Hne)
      as (g1 & c1 & -> & -> & Hne1).
    apply IH, Hne1.
Qed.

Lemma clusterSwings_groups (swings : list Swing.t) (threshold : Q) :
  clusterSwings swings threshold
  = map mkCluster (clusterGroups swings threshold).
Proof.
  unfold clusterSwings, clusterGroups.
  destruct (length swings =? 0)%nat eqn:E.
  - apply Nat.eqb_eq in E. destruct swings; [reflexivity | discriminate].
  - destruct (sortByPrice swings) as [|first rest]; [reflexivity|].
    destruct (clusterStep_groupStep threshold rest [] [first])
      as (groups & cur & -> & H & Hne); [discriminate|].
    simpl map in H. rewrite H.
    unfold pushCluster. destruct cur as [|a cur]; [contradiction|].
    simpl. rewrite map_app. reflexivity.
Qed.





(** ** Touch counts of the levels *)

Lemma groupStep_partition (rest : list Swing.t) (threshold : Q) :
  forall groups cur done_,
    cur <> [] ->
    Forall (fun g => g <> []) groups ->
    concat (groups ++ [cur]) = done_ ->
    let '(groups', cur') :=
      fold_left (groupStep threshold) rest (groups, cur) in
    cur' <> []
    /\ Forall (fun g => g <> []) groups'
    /\ concat (groups' ++ [cur']) = done_ ++ rest.
Proof.
  induction rest as [|s rest IH]; intros groups cur done_ Hne Hall Hcat;
    cbn [fold_left].
  - rewrite app_nil_r. auto.
  - replace (done_ ++ s :: rest) with ((done_ ++ [s]) ++ rest)
      by (rewrite <- List.app_assoc; reflexivity).
    unfold groupStep at 2.
    destruct (leb (Qabs (Swing.price s - anchorPrice cur s)) threshold).
    + apply IH; [destruct cur; discriminate | exact Hall|].
      rewrite concat_app in *. simpl in *. rewrite !app_nil_r in *.
      rewrite <- Hcat, <- !List.app_assoc. reflexivity.
    + apply IH; [discriminate | |].
      * apply Forall_app. split; [exact Hall | repeat constructor; exact Hne].
      * rewrite concat_app, Hcat. simpl. reflexivity.
Qed.

Lemma clusterGroups_partition (swings : list Swing.t) (threshold : Q) :
  Forall (fun g => g <> []) (clusterGroups swings threshold)
  /\ concat (clusterGroups swings threshold) = sortByPrice swings.
Proof.
  unfold clusterGroups.
  destruct (sortByPrice swings) as [|first rest];
    [split; [constructor | reflexivity]|].
  pose proof (groupStep_partition rest threshold [] [first] [first]) as H.
  destruct (fold_left (groupStep threshold) rest ([], [first]))
    as [groups cur].
  destruct H as (Hne & Hall & Hcat);
    [discriminate | constructor | reflexivity|].
  split; [|exact Hcat].
  apply Forall_app. split; [exact Hall | repeat constructor; exact Hne].
Qed.

Lemma totalTouches_groups (groups : list (list Swing.t)) :
  totalTouches (map mkCluster groups) = length (concat groups).
Proof.
  induction groups as [|g groups IH]; simpl; [reflexivity|].
  rewrite length_app. f_equal. exact IH.
Qed.

Lemma clusterSwings_touches (swings : list Swing.t) (threshold : Q) :
  totalTouches (clusterSwings swings threshold) = length swings
  /\ Forall (fun c => (1 <= Cluster.touches c)%nat)
       (clusterSwings swings threshold).
Proof.
  rewrite clusterSwings_groups.
  destruct (clusterGroups_partition swings threshold) as [Hne Hcat].
  split.
  - rewrite totalTouches_groups, Hcat. apply sortByPrice_length.
  - apply List.Forall_map. eapply List.Forall_impl; [|exact Hne].
    intros [|a g] Hg; [contradiction | simpl; lia].
Qed.

Lemma pushLevels_eq (type : string) (clusters : list Cluster.t) :
  forall srLevels,
    pushLevels type clusters srLevels
    = srLevels ++ map (mkLevel type) clusters.
Proof.
  unfold pushLevels.
  induction clusters as [|c clusters IH]; intros srLevels; simpl.
  - rewrite app_nil_r. reflexivity.
  - rewrite IH, <- List.app_assoc. reflexivity.
Qed.

Lemma insertLevelDesc_perm (x : SRLevel.t) (l : list SRLevel.t) :
  Permutation (insertLevelDesc x l) (x :: l).
Proof.
  induction l as [|h l IH]; simpl; [reflexivity|].
  destruct (leb (SRLevel.price h) (SRLevel.price x)); [reflexivity|].
  rewrite IH. apply perm_swap.
Qed.

Lemma sortLevelsDesc_perm (l : list SRLevel.t) :
  Permutation (sortLevelsDesc l) l.
Proof.
  induction l as [|x l IH]; simpl; [reflexivity|].
  rewrite insertLevelDesc_perm. constructor. exact IH.
Qed.

Lemma touchesOf_perm (type : string) (l l' : list SRLevel.t) :
  Permutation l l' -> touchesOf type l = touchesOf type l'.
Proof.
  induction 1 as [|x l l' _ IH|x y l|l l' l'' _ IH1 _ IH2]; simpl.
  - reflexivity.
  - rewrite IH. reflexivity.
  - destruct (String.eqb (SRLevel.type y) type);
      destruct (String.eqb (SRLevel.type x) type); lia.
  - congruence.
Qed.

Lemma touchesOf_app (type : string) (l l' : list SRLevel.t) :
  touchesOf type (l ++ l')
  = (touchesOf type l + touchesOf type l')%nat.
Proof.
  induction l as [|x l IH]; simpl; [reflexivity|].
  rewrite IH. destruct (String.eqb (SRLevel.type x) type); lia.
Qed.

Lemma touchesOf_mkLevel (type type' : string) (clusters : list Cluster.t) :
  touchesOf type (map (mkLevel type') clusters)
  = if String.eqb type' type then totalTouches clusters else 0%nat.
Proof.
  induction clusters as [|c clusters IH]; simpl.
  - destruct (String.eqb type' type); reflexivity.
  - rewrite IH. destruct (String.eqb type' type); reflexivity.
Qed.

Lemma identifySRLevels_unfold (swingHighs swingLows : list Swing.t)
    (atrValue threshold : Q) :
  0 < atrValue ->
  identifySRLevels swingHighs swingLows atrValue threshold
  = sortLevelsDesc
      (map (mkLevel "resistance")
         (clusterSwings swingHighs (atrValue * threshold))
       ++ map (mkLevel "support")
            (clusterSwings swingLows (atrValue * threshold))).
Proof.
  intros H. unfold identifySRLevels.
  replace (eqb atrValue 0) with false by (symmetry; apply eqb_false; lra).
  replace (leb atrValue 0) with false by (symmetry; apply leb_false; lra).
  simpl orb. cbv iota zeta. rewrite !pushLevels_eq. reflexivity.
Qed.

(** C10.  For [atrValue > 0] the levels of [identifySRLevels] partition
    the input swings: every level has at least one touch, the touches of
    the resistance levels add up to the number of swing highs and the
    touches of the support levels to the number of swing lows. *)
Theorem identifySRLevels_partition
    (swingHighs swingLows : list Swing.t) (atrValue threshold : Q) :
  0 < atrValue ->
  let levels := identifySRLevels swingHighs swingLows atrValue threshold in
  Forall (fun l => (1 <= SRLevel.touches l)%nat) levels
  /\ touchesOf "resistance" levels = length swingHighs
  /\ touchesOf "support" levels = length swingLows.
Proof.
  intros Hatr levels. subst levels.
  rewrite (identifySRLevels_unfold _ _ _ _ Hatr).
  set (t := atrValue * threshold).
  destruct (clusterSwings_touches swingHighs t) as [Hh Hh1].
  destruct (clusterSwings_touches swingLows t) as [Hl Hl1].
  split; [|split].
  - rewrite (sortLevelsDesc_perm _). apply Forall_app. split.
    + apply List.Forall_map. exact Hh1.
    + apply List.Forall_map. exact Hl1.
  - rewrite (touchesOf_perm _ _ _ (sortLevelsDesc_perm _)).
    rewrite touchesOf_app, !touchesOf_mkLevel. simpl. lia.
  - rewrite (touchesOf_perm _ _ _ (sortLevelsDesc_perm _)).
    rewrite touchesOf_app, !touchesOf_mkLevel. simpl. lia.
Qed.

Lemma identifySRLevels_partition_witness :
  touchesOf "resistance"
    (identifySRLevels sampleSwings [swingAt 1 0; swingAt 1.1 1] 1 0.5)
  = 5%nat
  /\ touchesOf "support"
       (identifySRLevels sampleSwings [swingAt 1 0; swingAt 1.1 1] 1 0.5)
     = 2%nat.
Proof.
  assert (H : 0 < 1) by reflexivity.
  destruct (identifySRLevels_partition
              sampleSwings [swingAt 1 0; swingAt 1.1 1] 1 0.5 H)
    as (_ & Hr & Hs).
  split; [exact Hr | exact Hs].
Defined.


(** ** Candidate filter *)

Ltac top_if :=
  match goal with
  | |- (if ?b then _ else _) = _ -> _ => destruct b
  | |- match ?o with Some _ => _ | None => _ end = _ -> _ => destruct o
  end.

Lemma checkTrendAlignedEngulfing_reason
    (indicators : Indicators.t) (s : string) :
  checkTrendAlignedEngulfing indicators = Some s ->
  s = "Bullish engulfing in uptrend"%string
  \/ s = "Bearish engulfing in downtrend"%string.
Proof.
  unfold checkTrendAlignedEngulfing. cbv zeta.
  repeat top_if; intros [= <-]; auto.
Qed.

Lemma checkPinBarAtStructure_reason (indicators : Indicators.t)
    (lastCandle : option Candle.t) (s : string) :
  checkPinBarAtStructure indicators lastCandle = Some s ->
  exists x,
    s = ("Bullish pin bar at support level (" ++ x)%string
    \/ s = ("Bearish pin bar at resistance level (" ++ x)%string.
Proof.
  unfold checkPinBarAtStructure. cbv zeta.
  repeat top_if; intros [= <-]; eauto.
Qed.

Lemma checkPullbackIntoTrend_reason (candles : list Candle.t)
    (indicators : Indicators.t) (s : string) :
  checkPullbackIntoTrend candles indicators = Some s ->
  s = "Pullback to support in uptrend, bouncing"%string
  \/ s = "Pullback to resistance in downtrend, rejecting"%string.
Proof.
  unfold checkPullbackIntoTrend. cbv zeta.
  destruct (negb _ && negb _); [discriminate|].
  destruct (recentCloses candles); [discriminate|].
  repeat top_if; intros [= <-]; auto.
Qed.

Lemma checkRSIDivergence_reason (candles : list Candle.t)
    (indicators : Indicators.t) (s : string) :
  checkRSIDivergence candles indicators = Some s ->
  s = rsiOversoldReason \/ s = rsiOverboughtReason.
Proof.
  unfold checkRSIDivergence. cbv zeta.
  repeat top_if; intros [= <-]; auto.
Qed.

Lemma checkReversalAtSR_reason (indicators : Indicators.t) (s : string) :
  checkReversalAtSR indicators = Some s ->
  exists x, s = ("Reversal setup at strong " ++ x)%string.
Proof.
  unfold checkReversalAtSR. cbv zeta.
  destruct (Swings.nearSR _); [|discriminate].
  repeat top_if; intros [= <-]; eexists; reflexivity.
Qed.

(** Every reason a heuristic returns is a non-empty string. *)
Lemma heuristicResults_truthy (candles : list Candle.t)
    (indicators : Indicators.t) (mode : string) (s : string) :
  In (Some s) (heuristicResults candles indicators mode) ->
  truthy (Some s) = true.
Proof.
  unfold heuristicResults. simpl In.
  intros [H | [H | [H | [H | [H | []]]]]].
  - apply checkTrendAlignedEngulfing_reason in H as [-> | ->]; reflexivity.
  - apply checkPinBarAtStructure_reason in H as [x [-> | ->]]; reflexivity.
  - apply checkPullbackIntoTrend_reason in H as [-> | ->]; reflexivity.
  - destruct (String.eqb mode "aggressive"); [|discriminate].
    apply checkRSIDivergence_reason in H as [-> | ->]; reflexivity.
  - apply checkReversalAtSR_reason in H as [x ->]. reflexivity.
Qed.

Lemma pushReason_truthy (reasons : list string) (r : option string) :
  (forall s, r = Some s -> truthy (Some s) = true) ->
  pushReason reasons r = reasons ++ omap id [r].
Proof.
  intros H. destruct r as [s|]; unfold pushReason.
  - rewrite (H s eq_refl). reflexivity.
  - simpl. rewrite app_nil_r. reflexivity.
Qed.

Lemma collectReasons_triggered (candles : list Candle.t)
    (indicators : Indicators.t) (mode : string) :
  collectReasons candles indicators mode
  = triggeredReasons candles indicators mode.
Proof.
  pose proof (heuristicResults_truthy candles indicators mode) as Ht.
  unfold heuristicResults in Ht. simpl In in Ht.
  unfold collectReasons, triggeredReasons, heuristicResults. cbv zeta.
  rewrite (pushReason_truthy [] (checkTrendAlignedEngulfing indicators))
    by (intros s Hs; apply Ht; rewrite Hs; auto).
  rewrite (pushReason_truthy _
             (checkPinBarAtStructure indicators (last candles)))
    by (intros s Hs; apply Ht; rewrite Hs; auto).
  rewrite (pushReason_truthy _ (checkPullbackIntoTrend candles indicators))
    by (intros s Hs; apply Ht; rewrite Hs; auto).
  rewrite (pushReason_truthy _ (checkReversalAtSR indicators))
    by (intros s Hs; apply Ht; rewrite Hs; auto 10).
  destruct (String.eqb mode "aggressive").
  - rewrite (pushReason_truthy _ (checkRSIDivergence candles indicators))
      by (intros s Hs; apply Ht; rewrite Hs; auto 10).
    destruct (checkTrendAlignedEngulfing indicators);
      destruct (checkPinBarAtStructure indicators (last candles));
      destruct (checkPullbackIntoTrend candles indicators);
      destruct (checkRSIDivergence candles indicators);
      destruct (checkReversalAtSR indicators); reflexivity.
  - destruct (checkTrendAlignedEngulfing indicators);
      destruct (checkPinBarAtStructure indicators (last candles));
      destruct (checkPullbackIntoTrend candles indicators);
      destruct (checkReversalAtSR indicators); reflexivity.
Qed.

Lemma triggeredReasons_nonempty (candles : list Candle.t)
    (indicators : Indicators.t) (mode : string) :
  List.filter (fun s => negb (String.eqb s EmptyString))
    (triggeredReasons candles indicators mode)
  = triggeredReasons candles indicators mode.
Proof.
  pose proof (heuristicResults_truthy candles indicators mode) as Ht.
  unfold triggeredReasons.
  induction (heuristicResults candles indicators mode) as [|r l IH];
    [reflexivity|].
  destruct r as [s|]; simpl.
  - pose proof (Ht s (or_introl eq_refl)) as Hs. simpl in Hs. rewrite Hs.
    f_equal. apply IH. intros s' Hs'. apply Ht. right. exact Hs'.
  - apply IH. intros s' Hs'. apply Ht. right. exact Hs'.
Qed.

(** Once the four preconditions are passed the result is the join of the
    triggered reasons. *)
Lemma applyPrefilters_passed (candles : list Candle.t)
    (indicators : Indicators.t) (mode : string) :
  passesPreconditions candles indicators = true ->
  applyPrefilters candles indicators mode
  = {| CandidateResult.isCandidate :=
         negb (length (triggeredReasons candles indicators mode) =? 0)%nat;
       CandidateResult.reason :=
         String.concat " + " (triggeredReasons candles indicators mode) |}.
Proof.
  unfold passesPreconditions, tooFewCandles, missingIndicators,
    atrTooSmall, choppy.
  intros H. repeat (apply andb_true_iff in H as [H ?]).
  repeat match goal with
         | E : negb _ = true |- _ => apply negb_true_iff in E
         end.
  unfold applyPrefilters. cbv zeta.
  repeat match goal with E : _ = false |- _ => rewrite E; clear E end.
  rewrite collectReasons_triggered, triggeredReasons_nonempty.
  destruct (triggeredReasons candles indicators mode) as [|r l] eqn:E;
    reflexivity.
Qed.

Lemma falsy_missing (x : option Q) : falsy x = true <-> missing x.
Proof.
  destruct x as [q|]; simpl; [apply eqb_true | tauto].
Qed.

Lemma falsy_present (x : option Q) (a : Q) : present x a -> falsy x = false.
Proof. intros [-> H]. simpl. apply eqb_false, H. Qed.

Lemma getMinimumATR_floor (price : Q) :
  (price < 10 -> getMinimumATR price = 0.0001)
  /\ (10 <= price -> getMinimumATR price = price * 0.0001).
Proof.
  unfold getMinimumATR. split; intros H.
  - replace (ltb price 10) with true by (symmetry; apply ltb_true, H).
    reflexivity.
  - replace (ltb price 10) with false by (symmetry; apply ltb_false, H).
    reflexivity.
Qed.

(** When some precondition fails the result is one of the four rejections. *)
Lemma applyPrefilters_rejects (candles : list Candle.t)
    (indicators : Indicators.t) (mode : string) :
  passesPreconditions candles indicators = false ->
  CandidateResult.isCandidate (applyPrefilters candles indicators mode)
  = false
  /\ In (CandidateResult.reason (applyPrefilters candles indicators mode))
       [ "Insufficient candle data";
         "Missing required indicators";
         atrTooSmallReason indicators;
         "Choppy market with flat EMAs, no clear trend" ]%string.
Proof.
  unfold passesPreconditions, tooFewCandles, missingIndicators,
    atrTooSmall, choppy.
  intros H. unfold applyPrefilters, atrTooSmallReason. cbv zeta.
  destruct (length candles <? 50)%nat; [simpl; auto|].
  destruct (falsy (Indicators.atr14 indicators)
            || falsy (Indicators.ema50 indicators)
            || falsy (Indicators.ema200 indicators)); [simpl; auto|].
  destruct (ltb (ToNumber (Indicators.atr14 indicators))
              (getMinimumATR (Indicators.currentPrice indicators)));
    [split; [reflexivity | right; right; left; reflexivity]|].
  destruct (String.eqb (Trend.direction (Indicators.trend indicators))
              "choppy"); [simpl; auto 6|].
  discriminate.
Qed.

Lemma precondition_failure
    (candles : list Candle.t) (indicators : Indicators.t) :
  (length candles < 50)%nat
  \/ missing (Indicators.atr14 indicators)
  \/ missing (Indicators.ema50 indicators)
  \/ missing (Indicators.ema200 indicators)
  \/ ToNumber (Indicators.atr14 indicators)
     < getMinimumATR (Indicators.currentPrice indicators)
  \/ Trend.direction (Indicators.trend indicators) = "choppy"%string ->
  passesPreconditions candles indicators = false.
Proof.
  unfold passesPreconditions, tooFewCandles, missingIndicators,
    atrTooSmall, choppy.
  rewrite !andb_false_iff, !negb_false_iff, !orb_true_iff, !falsy_missing.
  rewrite Nat.ltb_lt, ltb_true, String.eqb_eq. tauto.
Qed.

(** C8.  [applyPrefilters] fails fast, in this order: fewer than 50 bars;
    ATR, fast MA or slow MA missing; ATR below the price-scaled floor
    ([0.0001] for a price below 10, else [price * 0.0001]); trend
    direction ['choppy'].  Each of them returns [isCandidate = false] with
    its own reason, a value in which no heuristic takes part.  When all
    four are passed the reason is the join, with separator [" + "], of the
    reasons of the heuristics that triggered, and the result is
    [isCandidate = false] with an empty reason when none did. *)
Theorem applyPrefilters_contract
    (candles : list Candle.t) (indicators : Indicators.t) (mode : string) :
  let result := applyPrefilters candles indicators mode in
  let atr14 := Indicators.atr14 indicators in
  let ema50 := Indicators.ema50 indicators in
  let ema200 := Indicators.ema200 indicators in
  let price := Indicators.currentPrice indicators in
  let direction := Trend.direction (Indicators.trend indicators) in
  let triggered := triggeredReasons candles indicators mode in
  ((length candles < 50)%nat
   \/ missing atr14 \/ missing ema50 \/ missing ema200
   \/ ToNumber atr14 < getMinimumATR price
   \/ direction = "choppy"%string ->
     CandidateResult.isCandidate result = false
     /\ In (CandidateResult.reason result)
          [ "Insufficient candle data";
            "Missing required indicators";
            atrTooSmallReason indicators;
            "Choppy market with flat EMAs, no clear trend" ]%string)
  /\ ((length candles < 50)%nat ->
     result = rejected "Insufficient candle data")
  /\ ((50 <= length candles)%nat ->
      missing atr14 \/ missing ema50 \/ missing ema200 ->
      result = rejected "Missing required indicators")
  /\ (forall a e50 e200,
        (50 <= length candles)%nat ->
        present atr14 a -> present ema50 e50 -> present ema200 e200 ->
        (a < getMinimumATR price ->
           result
           = rejected ("ATR too small (" ++ toFixed a 5 ++ " < "
                       ++ toFixed (getMinimumATR price) 5
                       ++ "), insufficient volatility"))
        /\ (getMinimumATR price <= a ->
            direction = "choppy"%string ->
            result = rejected "Choppy market with flat EMAs, no clear trend")
        /\ (getMinimumATR price <= a ->
            direction <> "choppy"%string ->
            result
            = {| CandidateResult.isCandidate :=
                   negb (length triggered =? 0)%nat;
                 CandidateResult.reason := String.concat " + " triggered |}
            /\ collectReasons candles indicators mode = triggered
            /\ (triggered = [] -> result = rejected EmptyString)))
  /\ ((price < 10 -> getMinimumATR price = 0.0001)
      /\ (10 <= price -> getMinimumATR price = price * 0.0001)).
Proof.
  intros result atr14 ema50 ema200 price direction triggered.
  subst atr14 ema50 ema200.
  split; [|split; [|split; [|split]]].
  - intros H. subst result.
    apply applyPrefilters_rejects, precondition_failure, H.
  - intros H. subst result. unfold applyPrefilters.
    replace (length candles <? 50)%nat with true
      by (symmetry; apply Nat.ltb_lt; exact H).
    reflexivity.
  - intros Hlen Hmiss. subst result. unfold applyPrefilters.
    replace (length candles <? 50)%nat with false
      by (symmetry; apply Nat.ltb_ge; exact Hlen).
    replace (falsy (Indicators.atr14 indicators)
             || falsy (Indicators.ema50 indicators)
             || falsy (Indicators.ema200 indicators)) with true;
      [reflexivity|].
    symmetry. rewrite !orb_true_iff, !falsy_missing. tauto.
  - intros a e50 e200 Hlen Ha He50 He200.
    assert (Hpre1 : tooFewCandles candles = false)
      by (apply Nat.ltb_ge; exact Hlen).
    assert (Hpre2 : missingIndicators indicators = false).
    { unfold missingIndicators.
      rewrite (falsy_present _ _ Ha), (falsy_present _ _ He50),
        (falsy_present _ _ He200). reflexivity. }
    assert (Hatr : ToNumber (Indicators.atr14 indicators) = a).
    { destruct Ha as [Ha _]. rewrite Ha. reflexivity. }
    split; [|split].
    + intros Hsmall. subst result. unfold applyPrefilters.
      unfold tooFewCandles in Hpre1. unfold missingIndicators in Hpre2.
      rewrite Hpre1, Hpre2. cbv zeta. rewrite Hatr. fold price.
      replace (ltb a (getMinimumATR price)) with true
        by (symmetry; apply ltb_true; exact Hsmall).
      reflexivity.
    + intros Hbig Hdir. subst result. unfold applyPrefilters.
      unfold tooFewCandles in Hpre1. unfold missingIndicators in Hpre2.
      rewrite Hpre1, Hpre2. cbv zeta. rewrite Hatr. fold price.
      replace (ltb a (getMinimumATR price)) with false
        by (symmetry; apply ltb_false; exact Hbig).
      fold direction. rewrite Hdir. reflexivity.
    + intros Hbig Hdir.
      assert (Hpass : passesPreconditions candles indicators = true).
      { unfold passesPreconditions. rewrite Hpre1, Hpre2.
        unfold atrTooSmall, choppy. rewrite Hatr. fold price direction.
        replace (ltb a (getMinimumATR price)) with false
          by (symmetry; apply ltb_false; exact Hbig).
        replace (String.eqb direction "choppy") with false
          by (symmetry; apply String.eqb_neq; exact Hdir).
        reflexivity. }
      subst result. rewrite (applyPrefilters_passed _ _ _ Hpass).
      fold triggered.
      split; [reflexivity|].
      split; [apply collectReasons_triggered|].
      intros ->. reflexivity.
  - apply getMinimumATR_floor.
Qed.

Lemma applyPrefilters_contract_witness :
  applyPrefilters [quietBar 1] oversoldBoth "aggressive"
  = rejected "Insufficient candle data"
  /\ applyPrefilters fiftyBars oversoldBoth "aggressive"
     = {| CandidateResult.isCandidate := true;
          CandidateResult.reason := rsiOversoldReason |}.
Proof.
  split.
  - destruct (applyPrefilters_contract [quietBar 1] oversoldBoth "aggressive")
      as (_ & H & _).
    apply H. simpl. lia.
  - destruct (applyPrefilters_contract fiftyBars oversoldBoth "aggressive")
      as (_ & _ & _ & H & _).
    destruct (H 0.0020 1.0900 1.1100) as (_ & _ & Hok).
    + vm_compute. lia.
    + split; [reflexivity | vm_compute; discriminate].
    + split; [reflexivity | vm_compute; discriminate].
    + split; [reflexivity | vm_compute; discriminate].
    + destruct Hok as (Hres & _).
      * vm_compute. discriminate.
      * discriminate.
      * rewrite Hres. vm_compute. reflexivity.
Defined.

(** ** The momentum-extreme heuristic *)

(** C7, as stated, fails: in aggressive mode, with RSI 25 and two swing
    lows but no swing high, [checkRSIDivergence] returns [null]; nothing
    is contributed and the bundle is not a candidate. *)
Lemma momentum_extreme_needs_both_sides :
  passesPreconditions fiftyBars oversoldNoHighs = true
  /\ Indicators.rsi14 oversoldNoHighs = Some 25
  /\ length (Swings.swingLows (Indicators.swings oversoldNoHighs)) = 2%nat
  /\ checkRSIDivergence fiftyBars oversoldNoHighs = None
  /\ ~ In rsiOversoldReason
        (collectReasons fiftyBars oversoldNoHighs "aggressive")
  /\ applyPrefilters fiftyBars oversoldNoHighs "aggressive"
     = rejected EmptyString.
Proof.
  split; [vm_compute; reflexivity|].
  split; [reflexivity|].
  split; [reflexivity|].
  split; [vm_compute; reflexivity|].
  split; [vm_compute; tauto|].
  vm_compute. reflexivity.
Qed.

Lemma checkRSIDivergence_oversold (candles : list Candle.t)
    (indicators : Indicators.t) :
  (2 <= length (Swings.swingHighs (Indicators.swings indicators)))%nat ->
  (2 <= length (Swings.swingLows (Indicators.swings indicators)))%nat ->
  ToNumber (Indicators.rsi14 indicators) < 30 ->
  checkRSIDivergence candles indicators = Some rsiOversoldReason.
Proof.
  intros Hh Hl Hr. unfold checkRSIDivergence. cbv zeta.
  replace (length (Swings.swingHighs (Indicators.swings indicators)) <? 2)%nat
    with false by (symmetry; apply Nat.ltb_ge; exact Hh).
  replace (length (Swings.swingLows (Indicators.swings indicators)) <? 2)%nat
    with false by (symmetry; apply Nat.ltb_ge; exact Hl).
  replace (ltb (ToNumber (Indicators.rsi14 indicators)) 30) with true
    by (symmetry; apply ltb_true; exact Hr).
  replace (2 <=? length (Swings.swingLows (Indicators.swings indicators)))%nat
    with true by (symmetry; apply Nat.leb_le; exact Hl).
  reflexivity.
Qed.

Lemma checkRSIDivergence_overbought (candles : list Candle.t)
    (indicators : Indicators.t) :
  (2 <= length (Swings.swingHighs (Indicators.swings indicators)))%nat ->
  (2 <= length (Swings.swingLows (Indicators.swings indicators)))%nat ->
  70 < ToNumber (Indicators.rsi14 indicators) ->
  checkRSIDivergence candles indicators = Some rsiOverboughtReason.
Proof.
  intros Hh Hl Hr. unfold checkRSIDivergence. cbv zeta.
  replace (length (Swings.swingHighs (Indicators.swings indicators)) <? 2)%nat
    with false by (symmetry; apply Nat.ltb_ge; exact Hh).
  replace (length (Swings.swingLows (Indicators.swings indicators)) <? 2)%nat
    with false by (symmetry; apply Nat.ltb_ge; exact Hl).
  replace (ltb (ToNumber (Indicators.rsi14 indicators)) 30) with false
    by (symmetry; apply ltb_false; lra).
  replace (gtb (ToNumber (Indicators.rsi14 indicators)) 70) with true
    by (symmetry; apply gtb_true; exact Hr).
  replace (2 <=? length (Swings.swingHighs (Indicators.swings indicators)))%nat
    with true by (symmetry; apply Nat.leb_le; exact Hh).
  reflexivity.
Qed.

(** In aggressive mode a reason returned by the momentum heuristic sits
    in the list of triggered reasons, after the reasons of the first three
    heuristics and before that of the last. *)
Lemma triggeredReasons_aggressive (candles : list Candle.t)
    (indicators : Indicators.t) (s : string) :
  checkRSIDivergence candles indicators = Some s ->
  exists before after_,
    triggeredReasons candles indicators "aggressive"
    = before ++ s :: after_.
Proof.
  intros H. unfold triggeredReasons, heuristicResults. simpl String.eqb.
  cbv iota. rewrite H.
  exists (omap id [checkTrendAlignedEngulfing indicators;
                   checkPinBarAtStructure indicators (last candles);
                   checkPullbackIntoTrend candles indicators]),
         (omap id [checkReversalAtSR indicators]).
  destruct (checkTrendAlignedEngulfing indicators);
    destruct (checkPinBarAtStructure indicators (last candles));
    destruct (checkPullbackIntoTrend candles indicators);
    destruct (checkReversalAtSR indicators); reflexivity.
Qed.

Lemma aggressive_contribution (candles : list Candle.t)
    (indicators : Indicators.t) (s : string) :
  passesPreconditions candles indicators = true ->
  checkRSIDivergence candles indicators = Some s ->
  let result := applyPrefilters candles indicators "aggressive" in
  CandidateResult.isCandidate result = true
  /\ exists before after_,
       collectReasons candles indicators "aggressive"
       = before ++ s :: after_
       /\ CandidateResult.reason result
          = String.concat " + " (before ++ s :: after_).
Proof.
  intros Hpass Hs result. subst result.
  rewrite (applyPrefilters_passed _ _ _ Hpass).
  destruct (triggeredReasons_aggressive candles indicators s Hs)
    as (before & after_ & Heq).
  rewrite collectReasons_triggered, Heq. simpl. split.
  - rewrite length_app. simpl.
    replace (length before + S (length after_) =? 0)%nat with false
      by (symmetry; apply Nat.eqb_neq; lia).
    reflexivity.
  - exists before, after_. split; reflexivity.
Qed.

(** Outside aggressive mode the heuristics consulted do not read the
    momentum value and none of them returns a momentum reason. *)
Lemma heuristicResults_conservative (candles : list Candle.t)
    (indicators : Indicators.t) (mode : string) :
  mode <> "aggressive"%string ->
  (forall rsi14,
      heuristicResults candles (withRsi14 indicators rsi14) mode
      = heuristicResults candles indicators mode)
  /\ ~ In (Some rsiOversoldReason) (heuristicResults candles indicators mode)
  /\ ~ In (Some rsiOverboughtReason)
         (heuristicResults candles indicators mode).
Proof.
  intros Hmode. apply String.eqb_neq in Hmode.
  unfold heuristicResults. rewrite Hmode.
  split; [intros rsi14; reflexivity|].
  split; simpl In; intros [H | [H | [H | [H | [H | []]]]]];
    try discriminate.
  - apply checkTrendAlignedEngulfing_reason in H as [H | H];
      discriminate.
  - apply checkPinBarAtStructure_reason in H as [x [H | H]]; discriminate.
  - apply checkPullbackIntoTrend_reason in H as [H | H]; discriminate.
  - apply checkReversalAtSR_reason in H as [x H]. discriminate.
  - apply checkTrendAlignedEngulfing_reason in H as [H | H];
      discriminate.
  - apply checkPinBarAtStructure_reason in H as [x [H | H]]; discriminate.
  - apply checkPullbackIntoTrend_reason in H as [H | H]; discriminate.
  - apply checkReversalAtSR_reason in H as [x H]. discriminate.
Qed.

Lemma In_omap_id (s : string) (l : list (option string)) :
  In s (omap id l) <-> In (Some s) l.
Proof.
  induction l as [|[x|] l IH]; simpl; [tauto | |].
  - rewrite IH. split; intros [H | H]; auto; left; congruence.
  - rewrite IH. split; [auto | intros [H | H]; [discriminate | auto]].
Qed.

Lemma applyPrefilters_rejected_any_rsi (candles : list Candle.t)
    (indicators : Indicators.t) (mode : string) :
  passesPreconditions candles indicators = false ->
  forall rsi14,
    applyPrefilters candles (withRsi14 indicators rsi14) mode
    = applyPrefilters candles indicators mode.
Proof.
  unfold passesPreconditions, tooFewCandles, missingIndicators,
    atrTooSmall, choppy.
  intros H rsi14. unfold applyPrefilters. cbv zeta. simpl.
  destruct (length candles <? 50)%nat; [reflexivity|].
  destruct (falsy (Indicators.atr14 indicators)
            || falsy (Indicators.ema50 indicators)
            || falsy (Indicators.ema200 indicators)); [reflexivity|].
  destruct (ltb (ToNumber (Indicators.atr14 indicators))
              (getMinimumATR (Indicators.currentPrice indicators)));
    [reflexivity|].
  destruct (String.eqb (Trend.direction (Indicators.trend indicators))
              "choppy"); [reflexivity|].
  discriminate.
Qed.

(** C7 (amended).  In aggressive mode, for a bundle that passes the four
    preconditions and records at least 2 swing highs and at least 2 swing
    lows, the momentum-extreme heuristic triggers when the RSI is below
    30, and when it is above 70, and its reason string is one of the
    reasons joined in the candidate result.  In any other mode the
    heuristic is not consulted: the result does not depend on the RSI and
    holds no momentum reason. *)
Theorem momentum_extreme_aggressive_only
    (candles : list Candle.t) (indicators : Indicators.t) :
  let swings := Indicators.swings indicators in
  let rsi14 := ToNumber (Indicators.rsi14 indicators) in
  (passesPreconditions candles indicators = true ->
   (2 <= length (Swings.swingHighs swings))%nat ->
   (2 <= length (Swings.swingLows swings))%nat ->
   let result := applyPrefilters candles indicators "aggressive" in
   (rsi14 < 30 ->
      checkRSIDivergence candles indicators = Some rsiOversoldReason
      /\ CandidateResult.isCandidate result = true
      /\ exists before after_,
           collectReasons candles indicators "aggressive"
           = before ++ rsiOversoldReason :: after_
           /\ CandidateResult.reason result
              = String.concat " + " (before ++ rsiOversoldReason :: after_))
   /\ (70 < rsi14 ->
       checkRSIDivergence candles indicators = Some rsiOverboughtReason
       /\ CandidateResult.isCandidate result = true
       /\ exists before after_,
            collectReasons candles indicators "aggressive"
            = before ++ rsiOverboughtReason :: after_
            /\ CandidateResult.reason result
               = String.concat " + "
                   (before ++ rsiOverboughtReason :: after_)))
  /\ (forall mode : string,
        mode <> "aggressive"%string ->
        (forall other,
            applyPrefilters candles (withRsi14 indicators other) mode
            = applyPrefilters candles indicators mode)
        /\ ~ In rsiOversoldReason (collectReasons candles indicators mode)
        /\ ~ In rsiOverboughtReason (collectReasons candles indicators mode)).
Proof.
  intros swings rsi14. split.
  - intros Hpass Hh Hl result. split; intros Hr.
    + pose proof (checkRSIDivergence_oversold candles indicators Hh Hl Hr)
        as Hs.
      split; [exact Hs|]. apply aggressive_contribution; assumption.
    + pose proof (checkRSIDivergence_overbought candles indicators Hh Hl Hr)
        as Hs.
      split; [exact Hs|]. apply aggressive_contribution; assumption.
  - intros mode Hmode.
    destruct (heuristicResults_conservative candles indicators mode Hmode)
      as (Hsame & Hlow & Hhigh).
    split; [|split].
    + intros other.
      destruct (passesPreconditions candles indicators) eqn:Hpass.
      * assert (Hpass' : passesPreconditions candles (withRsi14 indicators other)
                         = true) by exact Hpass.
        rewrite (applyPrefilters_passed _ _ _ Hpass),
          (applyPrefilters_passed _ _ _ Hpass').
        unfold triggeredReasons. rewrite Hsame. reflexivity.
      * apply applyPrefilters_rejected_any_rsi, Hpass.
    + rewrite collectReasons_triggered. unfold triggeredReasons.
      rewrite In_omap_id. exact Hlow.
    + rewrite collectReasons_triggered. unfold triggeredReasons.
      rewrite In_omap_id. exact Hhigh.
Qed.

Lemma momentum_extreme_aggressive_only_witness :
  checkRSIDivergence fiftyBars oversoldBoth = Some rsiOversoldReason
  /\ CandidateResult.isCandidate
       (applyPrefilters fiftyBars oversoldBoth "aggressive") = true.
Proof.
  destruct (momentum_extreme_aggressive_only fiftyBars oversoldBoth)
    as [H _].
  destruct H as [Hlow _].
  - vm_compute. reflexivity.
  - simpl. lia.
  - simpl. lia.
  - destruct Hlow as (Hs & Hc & _).
    + vm_compute. reflexivity.
    + split; [exact Hs | exact Hc].
Defined.

(* ================================================================== *)
(** * Further properties                                                *)
(* ================================================================== *)

(** ** Outcome records *)

Lemma Math_round_near (x : Q) :
  x - (1 # 2) < Math_round x /\ Math_round x <= x + (1 # 2).
Proof.
  unfold Math_round.
  pose proof (Qfloor_le (x + (1 # 2))) as Hle.
  pose proof (Qlt_floor (x + (1 # 2))) as Hlt.
  rewrite inject_Z_plus in Hlt. change (inject_Z 1) with 1 in Hlt.
  split; lra.
Qed.


Lemma Math_round_inject_Z (z : Z) : Math_round (inject_Z z) == inject_Z z.
Proof.
  destruct (Math_round_near (inject_Z z)) as [Hlo Hhi].
  unfold Math_round in *.
  set (f := Qfloor (inject_Z z + (1 # 2))) in *.
  assert (H1 : (z < f + 1)%Z).
  { rewrite Zlt_Qlt, inject_Z_plus. change (inject_Z 1) with 1. lra. }
  assert (H2 : (f < z + 1)%Z).
  { rewrite Zlt_Qlt, inject_Z_plus. change (inject_Z 1) with 1. lra. }
  replace f with z by lia. reflexivity.
Qed.

(** X2.  When the stop loss is hit the stored record names the stop-loss
    price, not a price of the bar: outcome ['loss'], hit ['sl'], hit price
    [stop_loss], and a stored multiple of exactly -1; for a signal whose
    entry equals its stop loss the stored multiple is 0 and the outcome is
    still ['loss']. *)
Theorem slUpdate_record (signal : Signal.t) (candle : Candle.t) :
  let u := slUpdate signal candle in
  let detail := Update.outcome_detail u in
  Update.status u = "loss"%string
  /\ Update.outcome u = "loss"%string
  /\ OutcomeDetail.hit detail = "sl"%string
  /\ OutcomeDetail.hitPrice detail = Signal.stop_loss signal
  /\ Update.closed_at u = Candle.time candle
  /\ OutcomeDetail.hitTime detail = Candle.time candle
  /\ (~ Signal.entry signal == Signal.stop_loss signal ->
      OutcomeDetail.rr detail == -1)
  /\ (Signal.entry signal == Signal.stop_loss signal ->
      OutcomeDetail.rr detail == 0).
Proof.
  intros u detail. subst u detail. unfold slUpdate, createOutcomeDetail.
  cbn [Update.status Update.outcome Update.outcome_detail Update.closed_at
       OutcomeDetail.rr OutcomeDetail.hit OutcomeDetail.hitPrice
       OutcomeDetail.hitTime].
  repeat (split; [reflexivity|]). split; intros H.
  - unfold calculateRMultiple. rewrite (riskUnit_nonzero signal H).
    simpl String.eqb. cbv iota.
    change (-1 * 100) with (inject_Z (-100)).
    rewrite Math_round_inject_Z. reflexivity.
  - unfold calculateRMultiple.
    replace (eqb (Qabs (Signal.entry signal - Signal.stop_loss signal)) 0)
      with true.
    + change (0 * 100) with (inject_Z 0).
      rewrite Math_round_inject_Z. reflexivity.
    + symmetry. apply eqb_true, Qabs_zero_iff. lra.
Qed.

Lemma slUpdate_record_witness :
  OutcomeDetail.rr (Update.outcome_detail (slUpdate specSignal (dropBar 1200)))
  == -1.
Proof.
  destruct (slUpdate_record specSignal (dropBar 1200))
    as (_ & _ & _ & _ & _ & _ & H & _).
  apply H. vm_compute. discriminate.
Defined.

(** ** Timeout and what an update can hold *)

Lemma timeoutUpdate_record (signal : Signal.t) (c : Candle.t) :
  let u := timeoutUpdate signal c in
  Update.status u = "timeout"%string
  /\ Update.outcome u = "timeout"%string
  /\ Update.closed_at u = Candle.time c
  /\ OutcomeDetail.hit (Update.outcome_detail u) = "timeout"%string
  /\ OutcomeDetail.hitPrice (Update.outcome_detail u) = Candle.close c
  /\ OutcomeDetail.rr (Update.outcome_detail u) == 0.
Proof.
  intros u. subst u. unfold timeoutUpdate, createOutcomeDetail.
  cbn [Update.status Update.outcome Update.outcome_detail Update.closed_at
       OutcomeDetail.rr OutcomeDetail.hit OutcomeDetail.hitPrice
       OutcomeDetail.hitTime].
  repeat (split; [reflexivity|]).
  assert (H : calculateRMultiple signal (Candle.close c) "timeout" = 0).
  { unfold calculateRMultiple.
    destruct (eqb (Qabs (Signal.entry signal - Signal.stop_loss signal)) 0);
      reflexivity. }
  rewrite H. change (0 * 100) with (inject_Z 0).
  rewrite Math_round_inject_Z. reflexivity.
Qed.

(** X3.  When no bar after the trigger reaches the stop or a target,
    [checkTriggeredSignal] writes nothing as long as fewer than
    [timeoutCandles] bars have followed the trigger (in particular when
    none has); from [timeoutCandles] bars on it closes the trade as
    ['timeout'] at the last bar, recording that bar's close as hit price
    and a stored multiple of 0 whatever that close is. *)
Theorem checkTriggeredSignal_timeout
    (config : Config.t) (signal : Signal.t) (candles : list Candle.t) :
  let after := candlesAfterTrigger signal candles in
  Forall (fun c => fires signal c = false) after ->
  (after = [] -> checkTriggeredSignal config signal candles = None)
  /\ ((length after < Config.timeoutCandles config)%nat ->
      checkTriggeredSignal config signal candles = None)
  /\ (forall lastCandle,
        last after = Some lastCandle ->
        (Config.timeoutCandles config <= length after)%nat ->
        exists u,
          checkTriggeredSignal config signal candles = Some u
          /\ u = timeoutUpdate signal lastCandle
          /\ Update.outcome u = "timeout"%string
          /\ Update.closed_at u = Candle.time lastCandle
          /\ OutcomeDetail.hitPrice (Update.outcome_detail u)
             = Candle.close lastCandle
          /\ OutcomeDetail.rr (Update.outcome_detail u) == 0).
Proof.
  intros after Hquiet. unfold checkTriggeredSignal. fold after.
  rewrite (scanCandles_quiet signal after Hquiet).
  split; [intros ->; reflexivity|]. split.
  - intros Hlt. destruct (length after =? 0)%nat; [reflexivity|].
    replace (Config.timeoutCandles config <=? length after)%nat with false
      by (symmetry; apply Nat.leb_gt; exact Hlt).
    reflexivity.
  - intros lastCandle Hlast Hle.
    assert (Hne : (length after =? 0)%nat = false).
    { apply Nat.eqb_neq. destruct after; [discriminate | simpl; lia]. }
    rewrite Hne.
    replace (Config.timeoutCandles config <=? length after)%nat with true
      by (symmetry; apply Nat.leb_le; exact Hle).
    rewrite Hlast. exists (timeoutUpdate signal lastCandle).
    destruct (timeoutUpdate_record signal lastCandle)
      as (_ & Ho & Hc & _ & Hp & Hr).
    repeat split; assumption.
Qed.

Lemma checkTriggeredSignal_timeout_witness :
  checkTriggeredSignal
    {| Config.timeoutCandles := 2; Config.expirationCandles := 20 |}
    specSignal [quietBar 900; quietBar 1100; quietBar 1200]
  = Some (timeoutUpdate specSignal (quietBar 1200))
  /\ checkTriggeredSignal specConfig specSignal
       [quietBar 900; quietBar 1100; quietBar 1200] = None.
Proof.
  split.
  - destruct (checkTriggeredSignal_timeout
                {| Config.timeoutCandles := 2; Config.expirationCandles := 20 |}
                specSignal [quietBar 900; quietBar 1100; quietBar 1200])
      as (_ & _ & H).
    + repeat constructor.
    + destruct (H (quietBar 1200)) as (u & Hu & -> & _).
      * reflexivity.
      * simpl. lia.
      * exact Hu.
  - destruct (checkTriggeredSignal_timeout specConfig specSignal
                [quietBar 900; quietBar 1100; quietBar 1200])
      as (_ & H & _).
    + repeat constructor.
    + apply H. simpl. lia.
Defined.

Lemma determineOutcome_tp (k : string) (r : Q) :
  In (determineOutcome ("tp" ++ k) r)
     ["win"; "breakeven"; "loss"]%string.
Proof.
  unfold determineOutcome.
  replace (String.eqb ("tp" ++ k) "timeout") with false by reflexivity.
  replace (String.eqb ("tp" ++ k) "sl") with false by reflexivity.
  replace (String.prefix "tp" ("tp" ++ k)) with true
    by (simpl; destruct k; reflexivity).
  destruct (gtb r 0); [left; reflexivity|].
  destruct (eqb r 0); [right; left | right; right; left]; reflexivity.
Qed.

Lemma candlesAfterTrigger_In (signal : Signal.t) (candles : list Candle.t)
    (c : Candle.t) :
  In c (candlesAfterTrigger signal candles) ->
  In c candles /\ (Signal.triggered_at signal < Candle.time c)%Z.
Proof.
  unfold candlesAfterTrigger. intros H.
  apply List.filter_In in H as [Hin Ht]. split; [exact Hin|].
  apply Z.ltb_lt, Ht.
Qed.

Lemma last_In {A} (l : list A) (x : A) : last l = Some x -> In x l.
Proof.
  intros H. apply last_Some in H as [l' ->].
  apply List.in_or_app. right. left. reflexivity.
Qed.

(** X4.  Whatever [checkTriggeredSignal] writes, the new status equals the
    outcome, which is one of ['win'], ['loss'], ['breakeven'] and
    ['timeout']; the hit is ['sl'], ['timeout'] or ['tpK'] for a stored
    target index; and [closed_at], equal to the recorded hit time, is the
    timestamp of a fetched bar strictly later than [triggered_at]. *)
Theorem checkTriggeredSignal_update_invariant
    (config : Config.t) (signal : Signal.t) (candles : list Candle.t)
    (u : Update.t) :
  checkTriggeredSignal config signal candles = Some u ->
  Update.status u = Update.outcome u
  /\ In (Update.outcome u) ["win"; "loss"; "breakeven"; "timeout"]%string
  /\ (OutcomeDetail.hit (Update.outcome_detail u) = "sl"%string
      \/ OutcomeDetail.hit (Update.outcome_detail u) = "timeout"%string
      \/ exists i,
           (i < length (Signal.take_profits signal))%nat
           /\ OutcomeDetail.hit (Update.outcome_detail u)
              = ("tp" ++ string_of_nat (i + 1))%string)
  /\ OutcomeDetail.hitTime (Update.outcome_detail u) = Update.closed_at u
  /\ (Signal.triggered_at signal < Update.closed_at u)%Z
  /\ exists c, In c candles /\ Candle.time c = Update.closed_at u.
Proof.
  unfold checkTriggeredSignal.
  set (after := candlesAfterTrigger signal candles).
  destruct (length after =? 0)%nat; [discriminate|].
  destruct (scanCandles signal after) as [u'|] eqn:Hscan.
  - intros [= ->].
    destruct (scanCandles_Some_split _ _ _ Hscan)
      as (pre & b & post & Hs & _ & _ & Hu).
    assert (Hb : In b after).
    { rewrite Hs. apply List.in_or_app. right. left. reflexivity. }
    apply candlesAfterTrigger_In in Hb as [Hin Ht].
    unfold closingUpdate in Hu. destruct (slHit signal b).
    + injection Hu as <-. simpl.
      repeat split; auto. exists b. auto.
    + apply checkTPs_Some in Hu as (k & tp & Hk & _ & _ & ->).
      unfold tpUpdate, createOutcomeDetail.
      cbn [Update.status Update.outcome Update.outcome_detail
           Update.closed_at OutcomeDetail.hit OutcomeDetail.hitTime].
      split; [reflexivity|]. split.
      { pose proof (determineOutcome_tp (string_of_nat (0 + k + 1))
                      (calculateRMultiple signal tp
                         ("tp" ++ string_of_nat (0 + k + 1)))) as H.
        simpl In in *. tauto. }
      split.
      { right. right. exists k. split; [|reflexivity].
        apply lookup_lt_Some in Hk. exact Hk. }
      split; [reflexivity|]. split; [exact Ht|]. exists b. auto.
  - destruct (Config.timeoutCandles config <=? length after)%nat;
      [|discriminate].
    destruct (last after) as [c|] eqn:Hlast; [|discriminate].
    intros [= <-].
    apply last_In, candlesAfterTrigger_In in Hlast as [Hin Ht].
    simpl. repeat split; auto 6. exists c. auto.
Qed.

Lemma checkTriggeredSignal_update_invariant_witness :
  (Signal.triggered_at specSignal
   < Update.closed_at (slUpdate specSignal (wideBar 1200)))%Z.
Proof.
  apply (checkTriggeredSignal_update_invariant specConfig specSignal
           [quietBar 900; quietBar 1100; wideBar 1200; rallyBar 1300]).
  vm_compute. reflexivity.
Defined.

(** ** Targets beyond the nearest one *)

Lemma tpHit_nearest (signal : Signal.t) (b : Candle.t) (tp1 tp : Q) :
  (Signal.direction signal = "long"%string /\ tp1 <= tp
   \/ Signal.direction signal <> "long"%string /\ tp <= tp1) ->
  tpHit signal b tp1 = false -> tpHit signal b tp = false.
Proof.
  unfold tpHit. intros [[Hd Hle] | [Hd Hle]].
  - rewrite Hd. simpl. unfold geb. fold (leb tp1 (Candle.high b)).
    fold (leb tp (Candle.high b)). rewrite !leb_false. lra.
  - apply String.eqb_neq in Hd. rewrite Hd. rewrite !leb_false. lra.
Qed.

(** X5.  When the first stored target is the nearest one (no other
    target below it for a long trade, none above it otherwise), as the
    ordering enforced on accepted proposals makes it, a bar that reaches
    any target reaches the first: [checkTriggeredSignal] only ever records
    the hits ['sl'], ['tp1'] and ['timeout'], and ['tp1'] at the price of
    the first target. *)
Theorem only_nearest_target_recorded
    (config : Config.t) (signal : Signal.t) (candles : list Candle.t)
    (tp1 : Q) (rest : list Q) (u : Update.t) :
  Signal.take_profits signal = tp1 :: rest ->
  (Signal.direction signal = "long"%string
   /\ Forall (fun tp => tp1 <= tp) rest)
  \/ (Signal.direction signal <> "long"%string
      /\ Forall (fun tp => tp <= tp1) rest) ->
  checkTriggeredSignal config signal candles = Some u ->
  let hit := OutcomeDetail.hit (Update.outcome_detail u) in
  (hit = "sl"%string \/ hit = "tp1"%string \/ hit = "timeout"%string)
  /\ (hit = "tp1"%string ->
      OutcomeDetail.hitPrice (Update.outcome_detail u) = tp1).
Proof.
  intros Htps Hnear Hres hit. subst hit.
  unfold checkTriggeredSignal in Hres.
  set (after := candlesAfterTrigger signal candles) in *.
  destruct (length after =? 0)%nat; [discriminate|].
  destruct (scanCandles signal after) as [u'|] eqn:Hscan.
  - injection Hres as ->.
    destruct (scanCandles_Some_split _ _ _ Hscan)
      as (pre & b & post & _ & _ & _ & Hu).
    unfold closingUpdate in Hu. destruct (slHit signal b).
    + injection Hu as <-. split; [left; reflexivity | discriminate].
    + rewrite Htps in Hu. simpl in Hu.
      destruct (tpHit signal b tp1) eqn:H1.
      * injection Hu as <-. split; [right; left; reflexivity | reflexivity].
      * rewrite checkTPs_none in Hu; [discriminate|].
        apply not_true_is_false. intros Hex.
        apply existsb_exists in Hex as (tp & Hin & Hhit).
        rewrite (tpHit_nearest signal b tp1 tp) in Hhit;
          [discriminate | | exact H1].
        destruct Hnear as [[Hd Hall] | [Hd Hall]];
          rewrite List.Forall_forall in Hall; [left | right]; auto.
  - destruct (Config.timeoutCandles config <=? length after)%nat;
      [|discriminate].
    destruct (last after); [|discriminate].
    injection Hres as <-. split; [right; right; reflexivity | discriminate].
Qed.

Lemma only_nearest_target_recorded_witness :
  OutcomeDetail.hit
    (Update.outcome_detail (tpUpdate specSignal (rallyBar 1100) 0 1.1100))
  = "sl"%string
  \/ OutcomeDetail.hit
       (Update.outcome_detail (tpUpdate specSignal (rallyBar 1100) 0 1.1100))
     = "tp1"%string
  \/ OutcomeDetail.hit
       (Update.outcome_detail (tpUpdate specSignal (rallyBar 1100) 0 1.1100))
     = "timeout"%string.
Proof.
  apply (only_nearest_target_recorded specConfig specSignal
           [quietBar 900; rallyBar 1100; dropBar 1200] 1.1100 [1.1200]).
  - reflexivity.
  - left. split; [reflexivity|]. repeat constructor. vm_compute. discriminate.
  - vm_compute. reflexivity.
Defined.

(** ** Pending signals *)

Lemma find_first_split {A} (f : A -> bool) (pre : list A) (c : A)
    (post : list A) :
  Forall (fun x => f x = false) pre -> f c = true ->
  List.find f (pre ++ c :: post) = Some c
  /\ existsb f (pre ++ c :: post) = true.
Proof.
  induction 1 as [|x l Hx _ IH]; intros Hc; simpl.
  - rewrite Hc. auto.
  - rewrite Hx. simpl. auto.
Qed.

(** X6.  A pending signal is triggered by the first bar, among the bars
    stamped at or after its creation time, whose [low, high] range
    contains the entry; [triggered_at] is that bar's timestamp.  This
    holds whatever the expiration threshold is: an entry hit is looked for
    before expiry.  Conversely a trigger is only ever written for such a
    bar. *)
Theorem checkPendingSignal_trigger
    (config : Config.t) (now : Z) (signal : PendingSignal.t)
    (candles : list Candle.t) :
  let entry := PendingSignal.entry signal in
  let created_at := PendingSignal.created_at signal in
  let after :=
    List.filter (fun c => (created_at <=? Candle.time c)%Z) candles in
  (forall pre c post,
      after = pre ++ c :: post ->
      Forall (fun x => entryInside entry x = false) pre ->
      entryInside entry c = true ->
      checkPendingSignal config now signal candles
      = Some (Triggered (Candle.time c))
      /\ (created_at <= Candle.time c)%Z
      /\ Candle.low c <= entry <= Candle.high c)
  /\ (forall t,
        checkPendingSignal config now signal candles = Some (Triggered t) ->
        exists pre c post,
          after = pre ++ c :: post
          /\ Forall (fun x => entryInside entry x = false) pre
          /\ entryInside entry c = true
          /\ t = Candle.time c).
Proof.
  intros entry created_at after. split.
  - intros pre c post Hsplit Hpre Hc.
    destruct (find_first_split _ pre c post Hpre Hc) as [Hfind Hex].
    split; [|split].
    + unfold checkPendingSignal. fold entry created_at after.
      rewrite Hsplit, length_app. simpl length.
      replace (length pre + S (length post) =? 0)%nat with false
        by (symmetry; apply Nat.eqb_neq; lia).
      rewrite Hex, Hfind. reflexivity.
    + assert (Hin : In c after)
        by (rewrite Hsplit; apply List.in_or_app; right; left; reflexivity).
      apply List.filter_In in Hin as [_ Ht]. apply Z.leb_le, Ht.
    + unfold entryInside in Hc. apply andb_true_iff in Hc as [H1 H2].
      apply leb_true in H1, H2. auto.
  - intros t. unfold checkPendingSignal. fold entry created_at after.
    destruct (length after =? 0)%nat; [discriminate|].
    destruct (existsb (entryInside entry) after) eqn:Hex.
    + destruct (existsb_first_split _ _ Hex)
        as (pre & c & post & Hs & Hpre & Hc).
      destruct (find_first_split _ pre c post Hpre Hc) as [Hfind _].
      rewrite Hs, Hfind. intros [= <-].
      exists pre, c, post. rewrite <- Hs. auto.
    + destruct (Config.expirationCandles config <=? _)%nat; discriminate.
Qed.

Lemma checkPendingSignal_trigger_witness :
  checkPendingSignal
    {| Config.timeoutCandles := 100; Config.expirationCandles := 1 |}
    5000 pendingSignal
    [quietBar 900; highBar 1000; highBar 1100; quietBar 1200; quietBar 1300]
  = Some (Triggered 1200).
Proof.
  destruct (checkPendingSignal_trigger
              {| Config.timeoutCandles := 100; Config.expirationCandles := 1 |}
              5000 pendingSignal
              [quietBar 900; highBar 1000; highBar 1100; quietBar 1200;
               quietBar 1300]) as [H _].
  apply (H [highBar 1000; highBar 1100] (quietBar 1200) [quietBar 1300]).
  - reflexivity.
  - repeat constructor.
  - reflexivity.
Defined.

(** X7.  A pending signal expires, with [closed_at] the current time,
    exactly when some bar is stamped at or after its creation time, no
    such bar contains the entry, and the bars stamped strictly after the
    creation time number at least [expirationCandles]; below that number,
    or with no bar at or after creation, nothing is written. *)
Theorem checkPendingSignal_expiry
    (config : Config.t) (now : Z) (signal : PendingSignal.t)
    (candles : list Candle.t) :
  let entry := PendingSignal.entry signal in
  let created_at := PendingSignal.created_at signal in
  let after :=
    List.filter (fun c => (created_at <=? Candle.time c)%Z) candles in
  let since :=
    List.filter (fun c => (created_at <? Candle.time c)%Z) candles in
  (forall t,
      checkPendingSignal config now signal candles = Some (Expired t) <->
      t = now
      /\ after <> []
      /\ Forall (fun x => entryInside entry x = false) after
      /\ (Config.expirationCandles config <= length since)%nat)
  /\ (after = [] -> checkPendingSignal config now signal candles = None)
  /\ (Forall (fun x => entryInside entry x = false) after ->
      (length since < Config.expirationCandles config)%nat ->
      checkPendingSignal config now signal candles = None).
Proof.
  intros entry created_at after since.
  assert (Hquiet : forall l,
             existsb (entryInside entry) l = false
             <-> Forall (fun x => entryInside entry x = false) l).
  { intros l. induction l as [|x l IH]; simpl.
    - split; [constructor | reflexivity].
    - rewrite orb_false_iff, IH. split.
      + intros [H1 H2]. constructor; assumption.
      + intros H. inversion H; subst. auto. }
  unfold checkPendingSignal. fold entry created_at after since.
  split; [|split].
  - intros t. split.
    + destruct (length after =? 0)%nat eqn:E0; [discriminate|].
      destruct (existsb (entryInside entry) after) eqn:Hex.
      * destruct (List.find (entryInside entry) after); discriminate.
      * destruct (Config.expirationCandles config <=? length since)%nat
          eqn:Hle; [|discriminate].
        intros [= <-]. split; [reflexivity|]. split.
        { intros ->. discriminate. }
        split; [apply Hquiet, Hex | apply Nat.leb_le, Hle].
    + intros (-> & Hne & Hq & Hle).
      replace (length after =? 0)%nat with false
        by (symmetry; apply Nat.eqb_neq; destruct after;
            [contradiction | simpl; lia]).
      rewrite (proj2 (Hquiet after) Hq).
      replace (Config.expirationCandles config <=? length since)%nat
        with true by (symmetry; apply Nat.leb_le; exact Hle).
      reflexivity.
  - intros ->. reflexivity.
  - intros Hq Hlt. destruct (length after =? 0)%nat; [reflexivity|].
    rewrite (proj2 (Hquiet after) Hq).
    replace (Config.expirationCandles config <=? length since)%nat
      with false by (symmetry; apply Nat.leb_gt; exact Hlt).
    reflexivity.
Qed.

Lemma checkPendingSignal_expiry_witness :
  checkPendingSignal
    {| Config.timeoutCandles := 100; Config.expirationCandles := 3 |}
    5000 pendingSignal [highBar 1000; highBar 1100; highBar 1200]
  = None.
Proof.
  destruct (checkPendingSignal_expiry
              {| Config.timeoutCandles := 100; Config.expirationCandles := 3 |}
              5000 pendingSignal [highBar 1000; highBar 1100; highBar 1200])
    as (_ & _ & H).
  apply H.
  - repeat constructor.
  - simpl. lia.
Defined.

(** ** Fetched candles *)

Lemma validCandle_sound (c : Candle.t) :
  validCandle c = true ->
  0 < Candle.low c
  /\ Candle.low c <= Candle.open c <= Candle.high c
  /\ Candle.low c <= Candle.close c <= Candle.high c.
Proof.
  unfold validCandle. cbv zeta.
  destruct (leb (Candle.open c) 0 || leb (Candle.high c) 0
            || leb (Candle.low c) 0 || leb (Candle.close c) 0) eqn:E1;
    [discriminate|].
  destruct (ltb (Candle.high c) (Candle.low c)) eqn:E2; [discriminate|].
  destruct (ltb (Candle.high c) (Candle.open c)
            || ltb (Candle.high c) (Candle.close c)) eqn:E3; [discriminate|].
  destruct (gtb (Candle.low c) (Candle.open c)
            || gtb (Candle.low c) (Candle.close c)) eqn:E4; [discriminate|].
  intros _.
  repeat (apply orb_false_iff in E1 as [E1 ?]).
  apply orb_false_iff in E3 as [E3 E3'].
  apply orb_false_iff in E4 as [E4 E4'].
  unfold gtb in E4, E4'. fold (ltb (Candle.open c) (Candle.low c)) in E4.
  fold (ltb (Candle.close c) (Candle.low c)) in E4'.
  repeat match goal with
         | H : leb _ _ = false |- _ => apply leb_false in H
         | H : ltb _ _ = false |- _ => apply ltb_false in H
         end.
  repeat split; lra.
Qed.

(** X8.  Candles that [fetchCandles] hands out are the response in
    reverse order, at least 50 of them, and each has positive prices with
    [low <= open, close <= high]; a response with fewer than 50 values, or
    with one candle breaking these relations, is refused as a whole. *)
Theorem fetchCandles_postcondition (values : list Candle.t) :
  (forall candles,
      fetchCandles values = Some candles ->
      candles = rev values
      /\ (50 <= length candles)%nat
      /\ forall c, In c candles ->
           0 < Candle.low c
           /\ Candle.low c <= Candle.open c <= Candle.high c
           /\ Candle.low c <= Candle.close c <= Candle.high c)
  /\ ((length values < 50)%nat -> fetchCandles values = None)
  /\ (forall c, In c values -> validCandle c = false ->
                fetchCandles values = None).
Proof.
  unfold fetchCandles. rewrite length_rev. split; [|split].
  - intros candles.
    destruct (length values <? 50)%nat eqn:E; [discriminate|].
    destruct (validateCandles (rev values)) eqn:V; [|discriminate].
    intros [= <-]. split; [reflexivity|].
    split; [rewrite length_rev; apply Nat.ltb_ge, E|].
    intros c Hc. apply validCandle_sound.
    unfold validateCandles in V. rewrite forallb_forall in V. auto.
  - intros H. replace (length values <? 50)%nat with true
      by (symmetry; apply Nat.ltb_lt; exact H).
    reflexivity.
  - intros c Hc Hbad. destruct (length values <? 50)%nat; [reflexivity|].
    destruct (validateCandles (rev values)) eqn:V; [|reflexivity].
    unfold validateCandles in V. rewrite forallb_forall in V.
    rewrite V in Hbad; [discriminate|]. apply List.in_rev.
    rewrite rev_involutive. exact Hc.
Qed.

Lemma fetchCandles_postcondition_witness :
  fetchCandles [quietBar 3; quietBar 2; quietBar 1] = None.
Proof.
  destruct (fetchCandles_postcondition [quietBar 3; quietBar 2; quietBar 1])
    as (_ & H & _).
  apply H. simpl. lia.
Defined.

(** ** Moving average: range and latest value *)

Lemma sumFirst_bounds (lo hi : Q) (l : list Q) :
  Forall (fun x => lo <= x <= hi) l ->
  forall s,
    s + lo * Qnat (length l) <= fold_left Qplus l s
    /\ fold_left Qplus l s <= s + hi * Qnat (length l).
Proof.
  induction 1 as [|x l Hx _ IH]; intros s; cbn [length fold_left].
  - change (Qnat 0) with 0. split; lra.
  - destruct (IH (s + x)) as [H1 H2].
    assert (Hn : Qnat (S (length l)) == Qnat (length l) + 1).
    { unfold Qnat. rewrite Nat2Z.inj_succ, <- Z.add_1_r, inject_Z_plus.
      reflexivity. }
    rewrite Hn. split; lra.
Qed.

Lemma Forall_firstn {A} (P : A -> Prop) (n : nat) (l : list A) :
  Forall P l -> Forall P (firstn n l).
Proof.
  intros H. apply Forall_take, H.
Qed.

Lemma mean_bounds (lo hi : Q) (prices : list Q) (period : Z) :
  (1 <= period)%Z -> (period <= Z.of_nat (length prices))%Z ->
  Forall (fun x => lo <= x <= hi) prices ->
  lo <= sumFirst prices (Z.to_nat period) / inject_Z period <= hi.
Proof.
  intros H1 H2 Hall. unfold sumFirst.
  destruct (sumFirst_bounds lo hi (firstn (Z.to_nat period) prices)
              (Forall_firstn _ _ _ Hall) 0) as [Hlo Hhi].
  rewrite length_firstn, Nat.min_l in Hlo, Hhi by lia.
  unfold Qnat in Hlo, Hhi. rewrite Z2Nat.id in Hlo, Hhi by lia.
  assert (Hp : 0 < inject_Z period) by (rewrite <- (Zlt_Qlt 0); lia).
  split.
  - apply Qle_shift_div_l; [exact Hp | lra].
  - apply Qle_shift_div_r; [exact Hp | lra].
Qed.

Lemma ema_factor_range (period : Z) :
  (1 <= period)%Z ->
  0 < 2 / (inject_Z period + 1) /\ 2 / (inject_Z period + 1) <= 1.
Proof.
  intros H.
  assert (Hp : 1 <= inject_Z period) by (rewrite <- (Zle_Qle 1); exact H).
  split.
  - apply Qlt_shift_div_l; lra.
  - apply Qle_shift_div_r; lra.
Qed.

Lemma get_lookup (arr : list num) (i : nat) (v : num) :
  arr !! i = Some v -> get arr i = v.
Proof. unfold get. intros ->. reflexivity. Qed.

Lemma calculateEMA_range
    (prices : list Q) (period : Z) (lo hi : Q) :
  Forall (fun x => lo <= x <= hi) prices ->
  forall i v,
    calculateEMA prices period !! i = Some (Some v) -> lo <= v <= hi.
Proof.
  intros Hall.
  destruct (Z_le_gt_dec 1 period) as [H1 | H1];
    [destruct (Z_le_gt_dec period (Z.of_nat (length prices))) as [H2 | H2]|].
  - destruct (calculateEMA_inv prices period H1 H2)
      as (Hlen & Hnan & Hm & Hrec).
    set (p := Z.to_nat period) in *.
    set (ema := calculateEMA prices period) in *.
    destruct (ema_factor_range period H1) as [Hk0 Hk1].
    assert (Hall' : forall i x, prices !! i = Some x -> lo <= x <= hi).
    { intros i x Hx. rewrite List.Forall_forall in Hall. apply Hall.
      apply list_elem_of_In, list_elem_of_lookup. eauto. }
    assert (Hget : forall d i v, (i = p - 1 + d)%nat ->
                     get ema i = Some v -> lo <= v <= hi).
    { induction d as [|d IH]; intros i v Hi Hv.
      - replace i with (p - 1)%nat in Hv by lia.
        rewrite Hm in Hv. injection Hv as <-.
        apply mean_bounds; assumption.
      - destruct (le_lt_dec (length prices) i) as [Hge | Hlt].
        + unfold get in Hv. rewrite lookup_ge_None_2 in Hv by lia.
          discriminate.
        + destruct (Hrec i) as (prev & price & Hprev & Hprice & Hi');
            [subst p; lia|].
          rewrite Hi' in Hv. injection Hv as <-.
          pose proof (IH (i - 1)%nat prev ltac:(lia) Hprev) as Hb.
          pose proof (Hall' _ _ Hprice) as Hx.
          set (k := 2 / (inject_Z period + 1)) in *.
          split; nra. }
    intros i v Hv. apply get_lookup in Hv. fold ema in Hv.
    destruct (le_lt_dec (p - 1) i) as [Hge | Hlt].
    + apply (Hget (i - (p - 1))%nat i v); [lia | exact Hv].
    + specialize (Hnan i Hlt). rewrite Hv in Hnan. discriminate.
  - intros i v Hv. unfold calculateEMA in Hv.
    destruct (length prices =? 0)%nat; [rewrite lookup_nil in Hv; discriminate|].
    replace (period >? Z.of_nat (length prices))%Z with true in Hv
      by (symmetry; rewrite Z.gtb_ltb; apply Z.ltb_lt; lia).
    rewrite orb_true_r in Hv. unfold Array_fill_NaN in Hv.
    apply lookup_replicate in Hv as [Hv _]. discriminate.
  - intros i v Hv. unfold calculateEMA in Hv.
    destruct (length prices =? 0)%nat; [rewrite lookup_nil in Hv; discriminate|].
    replace (period <=? 0)%Z with true in Hv
      by (symmetry; apply Z.leb_le; lia).
    simpl in Hv. unfold Array_fill_NaN in Hv.
    apply lookup_replicate in Hv as [Hv _]. discriminate.
Qed.










(** ** Average true range *)




Lemma list_upper_bound (l : list Q) :
  exists hi, Forall (fun x => x <= hi) l.
Proof.
  induction l as [|x l [hi IH]].
  - exists 0. constructor.
  - exists (Qmax x hi). constructor; [apply Q.le_max_l|].
    eapply List.Forall_impl; [|exact IH]. simpl. intros a Ha.
    eapply Qle_trans; [exact Ha | apply Q.le_max_r].
Qed.

(** X9.  On prices none of which is negative, no defined value of
    [calculateEMA] is negative. *)
Theorem calculateEMA_nonnegative (prices : list Q) (period : Z) :
  Forall (fun x => 0 <= x) prices ->
  forall i v,
    calculateEMA prices period !! i = Some (Some v) -> 0 <= v.
Proof.
  intros Hpos i v Hv.
  destruct (list_upper_bound prices) as [hi Hhi].
  assert (Hall : Forall (fun x => 0 <= x <= hi) prices).
  { apply List.Forall_forall. intros x Hx.
    rewrite List.Forall_forall in Hpos, Hhi. auto. }
  exact (proj1 (calculateEMA_range prices period 0 hi Hall i v Hv)).
Qed.

Lemma calculateEMA_nonnegative_witness :
  calculateEMA [1; 0; 3; 0; 5] 3 !! 2%nat = Some (Some (4 # 3))
  /\ 0 <= 4 # 3.
Proof.
  assert (H : calculateEMA [1; 0; 3; 0; 5] 3 !! 2%nat = Some (Some (4 # 3)))
    by (vm_compute; reflexivity).
  split; [exact H|].
  apply (calculateEMA_nonnegative [1; 0; 3; 0; 5] 3) with (i := 2%nat).
  - repeat constructor; vm_compute; discriminate.
  - exact H.
Defined.




(** ** Relative strength index: where it is defined *)






(** ** Swing points *)

Lemma swingStep_app (key : Candle.t -> Q) (beats : Q -> Q -> bool)
    (candles : list Candle.t) (L R : nat) (swings : list Swing.t) (i : nat) :
  swingStep key beats candles L R swings i
  = swings ++ swingAt_ key beats candles L R i.
Proof.
  unfold swingAt_, swingStep. destruct (candles !! i) as [c|].
  - cbv zeta.
    destruct (windowClear key beats candles (i - L) L (key c));
      [|rewrite app_nil_r; reflexivity].
    destruct (windowClear key beats candles (i + 1) R (key c));
      [reflexivity | rewrite app_nil_r; reflexivity].
  - rewrite app_nil_r. reflexivity.
Qed.

Lemma swing_fold (key : Candle.t -> Q) (beats : Q -> Q -> bool)
    (candles : list Candle.t) (L R : nat) (l : list nat) :
  forall acc,
    fold_left (swingStep key beats candles L R) l acc
    = acc ++ flat_map (swingAt_ key beats candles L R) l.
Proof.
  induction l as [|i l IH]; intros acc; cbn [fold_left flat_map].
  - rewrite app_nil_r. reflexivity.
  - rewrite IH, swingStep_app, <- List.app_assoc. reflexivity.
Qed.

Lemma windowClear_spec (key : Candle.t -> Q) (beats : Q -> Q -> bool)
    (candles : list Candle.t) (from count : nat) (current : Q) :
  windowClear key beats candles from count current = true <->
  forall j d, (from <= j < from + count)%nat -> candles !! j = Some d ->
              beats (key d) current = false.
Proof.
  unfold windowClear. rewrite forallb_forall. split.
  - intros H j d Hj Hd. specialize (H j). rewrite Hd in H.
    apply negb_true_iff, H, in_seq. lia.
  - intros H j Hj. apply in_seq in Hj.
    destruct (candles !! j) as [d|] eqn:Hd; [|reflexivity].
    apply negb_true_iff. eapply H; eauto.
Qed.

Lemma swingAt_spec (key : Candle.t -> Q) (beats : Q -> Q -> bool)
    (candles : list Candle.t) (L R : nat) (i : nat) (s : Swing.t) :
  (L <= i)%nat -> (i + R < length candles)%nat ->
  In s (swingAt_ key beats candles L R i) <->
  exists c,
    qualifies key beats candles L R i c
    /\ s = {| Swing.price := key c; Swing.time := Candle.time c;
              Swing.index := i |}.
Proof.
  intros HL HR. unfold swingAt_, swingStep, qualifies.
  destruct (candles !! i) as [c|] eqn:Hc.
  - cbv zeta.
    destruct (windowClear key beats candles (i - L) L (key c)) eqn:E1.
    + destruct (windowClear key beats candles (i + 1) R (key c)) eqn:E2.
      * rewrite windowClear_spec in E1, E2. simpl. split.
        -- intros [<- | []]. exists c. repeat split; auto.
           ++ intros j d Hj. apply E1. lia.
           ++ intros j d Hj. apply E2. lia.
        -- intros (c' & (Hc' & _) & ->). left. congruence.
      * simpl. split; [contradiction|].
        intros (c' & (Hc' & _ & _ & _ & Hr) & _).
        assert (c' = c) by congruence. subst c'.
        assert (windowClear key beats candles (i + 1) R (key c) = true).
        { apply windowClear_spec. intros j d Hj. apply Hr. lia. }
        congruence.
    + simpl. split; [contradiction|].
      intros (c' & (Hc' & _ & _ & Hl & _) & _).
      assert (c' = c) by congruence. subst c'.
      assert (windowClear key beats candles (i - L) L (key c) = true).
      { apply windowClear_spec. intros j d Hj. apply Hl. lia. }
      congruence.
  - simpl. split; [contradiction|].
    intros (c' & (Hc' & _) & _). discriminate.
Qed.

Lemma findSwingsBy_spec (key : Candle.t -> Q) (beats : Q -> Q -> bool)
    (candles : list Candle.t) (L R : nat) (s : Swing.t) :
  In s (findSwingsBy key beats candles L R) <->
  exists c,
    qualifies key beats candles L R (Swing.index s) c
    /\ Swing.price s = key c /\ Swing.time s = Candle.time c.
Proof.
  unfold findSwingsBy. cbv zeta.
  destruct (length candles <? L + R + 1)%nat eqn:E.
  - apply Nat.ltb_lt in E. split; [contradiction|].
    intros (c & (_ & H1 & H2 & _) & _). lia.
  - apply Nat.ltb_ge in E. rewrite swing_fold. simpl app.
    rewrite in_flat_map. split.
    + intros (i & Hi & Hs). apply in_seq in Hi.
      apply swingAt_spec in Hs as (c & Hq & ->); [|lia|lia].
      exists c. simpl. auto.
    + intros (c & Hq & Hp & Ht).
      pose proof Hq as (_ & H1 & H2 & _).
      exists (Swing.index s). split; [apply in_seq; lia|].
      apply swingAt_spec; [lia | lia|].
      exists c. split; [exact Hq|].
      destruct s as [p t i]. simpl in *. congruence.
Qed.

Lemma swingAt_index (key : Candle.t -> Q) (beats : Q -> Q -> bool)
    (candles : list Candle.t) (L R : nat) (i : nat) (s : Swing.t) :
  In s (swingAt_ key beats candles L R i) -> Swing.index s = i.
Proof.
  unfold swingAt_, swingStep. destruct (candles !! i) as [c|];
    [|contradiction].
  cbv zeta.
  destruct (windowClear key beats candles (i - L) L (key c));
    [|contradiction].
  destruct (windowClear key beats candles (i + 1) R (key c));
    [|contradiction].
  intros [<- | []]. reflexivity.
Qed.

Lemma swingAt_short (key : Candle.t -> Q) (beats : Q -> Q -> bool)
    (candles : list Candle.t) (L R : nat) (i : nat) :
  ascendingIndex (swingAt_ key beats candles L R i).
Proof.
  unfold swingAt_, swingStep, ascendingIndex.
  destruct (candles !! i) as [c|]; [|constructor]. cbv zeta.
  destruct (windowClear key beats candles (i - L) L (key c));
    [|constructor].
  destruct (windowClear key beats candles (i + 1) R (key c));
    repeat constructor.
Qed.

Lemma StronglySorted_app {A} (R : A -> A -> Prop) (l1 l2 : list A) :
  StronglySorted R l1 -> StronglySorted R l2 ->
  (forall a b, In a l1 -> In b l2 -> R a b) ->
  StronglySorted R (l1 ++ l2).
Proof.
  induction 1 as [|a l1 Hs IH Ha]; intros H2 Hc; simpl; [exact H2|].
  constructor.
  - apply IH; [exact H2|]. intros x y Hx Hy. apply Hc; [right|]; auto.
  - apply Forall_app. split; [exact Ha|].
    apply List.Forall_forall. intros y Hy. apply Hc; [left|]; auto.
Qed.

Lemma swings_ascending (key : Candle.t -> Q) (beats : Q -> Q -> bool)
    (candles : list Candle.t) (L R : nat) :
  forall k a,
    ascendingIndex (flat_map (swingAt_ key beats candles L R) (seq a k))
    /\ forall s, In s (flat_map (swingAt_ key beats candles L R) (seq a k))
                 -> (a <= Swing.index s)%nat.
Proof.
  induction k as [|k IH]; intros a; cbn [seq flat_map].
  - split; [constructor | contradiction].
  - destruct (IH (S a)) as [Hs Hge]. split.
    + apply StronglySorted_app; [apply swingAt_short | exact Hs|].
      intros x y Hx Hy. apply swingAt_index in Hx. apply Hge in Hy. lia.
    + intros s Hin. apply List.in_app_or in Hin as [Hin | Hin].
      * apply swingAt_index in Hin. lia.
      * apply Hge in Hin. lia.
Qed.

Lemma findSwingsBy_ascending (key : Candle.t -> Q) (beats : Q -> Q -> bool)
    (candles : list Candle.t) (L R : nat) :
  ascendingIndex (findSwingsBy key beats candles L R).
Proof.
  unfold findSwingsBy. cbv zeta.
  destruct (length candles <? L + R + 1)%nat; [constructor|].
  rewrite swing_fold. simpl app. apply swings_ascending.
Qed.

Lemma findSwingsBy_spacing (key : Candle.t -> Q) (beats : Q -> Q -> bool)
    (candles : list Candle.t) (L R : nat) (s1 s2 : Swing.t) :
  (forall a b, beats a b = false -> beats b a = false -> False) ->
  In s1 (findSwingsBy key beats candles L R) ->
  In s2 (findSwingsBy key beats candles L R) ->
  (Swing.index s1 < Swing.index s2)%nat ->
  (Nat.min L R < Swing.index s2 - Swing.index s1)%nat.
Proof.
  intros Htot H1 H2 Hlt.
  apply findSwingsBy_spec in H1 as (c1 & (Hc1 & _ & _ & _ & Hr1) & _).
  apply findSwingsBy_spec in H2 as (c2 & (Hc2 & _ & _ & Hl2 & _) & _).
  destruct (le_lt_dec (Swing.index s2 - Swing.index s1) (Nat.min L R))
    as [Hclose | Hfar]; [|exact Hfar].
  exfalso. apply (Htot (key c2) (key c1)).
  - apply (Hr1 (Swing.index s2)); [lia | exact Hc2].
  - apply (Hl2 (Swing.index s1)); [lia | exact Hc1].
Qed.

Lemma geb_false (a b : Q) : geb a b = false <-> a < b.
Proof. unfold geb. fold (leb b a). apply leb_false. Qed.

(** X13.  [findSwingHighs] returns exactly the bars, at least [leftBars]
    from the start and more than [rightBars] from the end, whose high is
    strictly above the high of each of the [leftBars] bars before and of
    the [rightBars] bars after; a neighbour with an equal high rules the
    bar out.  Each swing carries that bar's high, time and index. *)
Theorem findSwingHighs_characterization
    (candles : list Candle.t) (leftBars rightBars : nat) (s : Swing.t) :
  In s (findSwingHighs candles leftBars rightBars) <->
  exists c,
    candles !! Swing.index s = Some c
    /\ (leftBars <= Swing.index s)%nat
    /\ (Swing.index s + rightBars < length candles)%nat
    /\ Swing.price s = Candle.high c
    /\ Swing.time s = Candle.time c
    /\ (forall j d,
          (Swing.index s - leftBars <= j < Swing.index s)%nat ->
          candles !! j = Some d -> Candle.high d < Candle.high c)
    /\ (forall j d,
          (Swing.index s < j <= Swing.index s + rightBars)%nat ->
          candles !! j = Some d -> Candle.high d < Candle.high c).
Proof.
  unfold findSwingHighs. rewrite findSwingsBy_spec. unfold qualifies.
  split.
  - intros (c & (Hc & H1 & H2 & Hl & Hr) & Hp & Ht). exists c.
    repeat split; auto.
    + intros j d Hj Hd. apply geb_false. eapply Hl; eauto.
    + intros j d Hj Hd. apply geb_false. eapply Hr; eauto.
  - intros (c & Hc & H1 & H2 & Hp & Ht & Hl & Hr). exists c.
    repeat split; auto.
    + intros j d Hj Hd. apply geb_false. eapply Hl; eauto.
    + intros j d Hj Hd. apply geb_false. eapply Hr; eauto.
Qed.

(** X14.  [findSwingLows] returns exactly the bars, inside the same
    margins, whose low is strictly below the low of each of the
    [leftBars] bars before and of the [rightBars] bars after. *)
Theorem findSwingLows_characterization
    (candles : list Candle.t) (leftBars rightBars : nat) (s : Swing.t) :
  In s (findSwingLows candles leftBars rightBars) <->
  exists c,
    candles !! Swing.index s = Some c
    /\ (leftBars <= Swing.index s)%nat
    /\ (Swing.index s + rightBars < length candles)%nat
    /\ Swing.price s = Candle.low c
    /\ Swing.time s = Candle.time c
    /\ (forall j d,
          (Swing.index s - leftBars <= j < Swing.index s)%nat ->
          candles !! j = Some d -> Candle.low c < Candle.low d)
    /\ (forall j d,
          (Swing.index s < j <= Swing.index s + rightBars)%nat ->
          candles !! j = Some d -> Candle.low c < Candle.low d).
Proof.
  unfold findSwingLows. rewrite findSwingsBy_spec. unfold qualifies.
  split.
  - intros (c & (Hc & H1 & H2 & Hl & Hr) & Hp & Ht). exists c.
    repeat split; auto.
    + intros j d Hj Hd. apply leb_false. eapply Hl; eauto.
    + intros j d Hj Hd. apply leb_false. eapply Hr; eauto.
  - intros (c & Hc & H1 & H2 & Hp & Ht & Hl & Hr). exists c.
    repeat split; auto.
    + intros j d Hj Hd. apply leb_false. eapply Hl; eauto.
    + intros j d Hj Hd. apply leb_false. eapply Hr; eauto.
Qed.

(** X15.  The swings are returned oldest first, with strictly increasing
    indices, so the last element is the most recent swing; and two swing
    highs (or two swing lows) are always more than
    [min(leftBars, rightBars)] bars apart, in particular never adjacent
    when both windows are non-empty. *)
Theorem swings_ordered_and_spaced
    (candles : list Candle.t) (leftBars rightBars : nat) :
  ascendingIndex (findSwingHighs candles leftBars rightBars)
  /\ ascendingIndex (findSwingLows candles leftBars rightBars)
  /\ (forall s1 s2,
        In s1 (findSwingHighs candles leftBars rightBars) ->
        In s2 (findSwingHighs candles leftBars rightBars) ->
        (Swing.index s1 < Swing.index s2)%nat ->
        (Nat.min leftBars rightBars
         < Swing.index s2 - Swing.index s1)%nat)
  /\ (forall s1 s2,
        In s1 (findSwingLows candles leftBars rightBars) ->
        In s2 (findSwingLows candles leftBars rightBars) ->
        (Swing.index s1 < Swing.index s2)%nat ->
        (Nat.min leftBars rightBars
         < Swing.index s2 - Swing.index s1)%nat).
Proof.
  split; [apply findSwingsBy_ascending|].
  split; [apply findSwingsBy_ascending|].
  split; intros s1 s2; apply findSwingsBy_spacing.
  - intros a b Ha Hb. apply geb_false in Ha, Hb. lra.
  - intros a b Ha Hb. apply leb_false in Ha, Hb. lra.
Qed.

Lemma swings_ordered_and_spaced_witness :
  findSwingHighs peakBars 3 3 = [swingAt 9 3]
  /\ ascendingIndex (findSwingHighs peakBars 3 3).
Proof.
  split; [vm_compute; reflexivity|].
  apply (swings_ordered_and_spaced peakBars 3 3).
Defined.

(** ** Proximity to a level *)

Lemma nearestStep_inv (price : Q) (done_ : list SRLevel.t)
    (st : option SRLevel.t * option Q) (level : SRLevel.t) :
  nearestInv price done_ st ->
  nearestInv price (done_ ++ [level]) (nearestStep price st level).
Proof.
  unfold nearestInv. destruct done_ as [|x done'].
  - intros ->. simpl. exists level. split; [reflexivity|].
    split; [left; reflexivity|]. intros l' [<- | []]. apply Qle_refl.
  - intros (l & -> & Hin & Hmin).
    change ((x :: done') ++ [level]) with (x :: (done' ++ [level])).
    unfold nearestStep. fold (distanceTo price level).
    destruct (ltb (distanceTo price level) (distanceTo price l)) eqn:E.
    + apply ltb_true in E. exists level. split; [reflexivity|]. split.
      * apply (List.in_or_app (x :: done') [level]). right. left. reflexivity.
      * intros l' Hl'.
        apply (List.in_app_or (x :: done') [level]) in Hl' as [Hl' | [<- | []]].
        -- specialize (Hmin l' Hl'). lra.
        -- apply Qle_refl.
    + apply ltb_false in E. exists l. split; [reflexivity|]. split.
      * apply (List.in_or_app (x :: done') [level]). left. exact Hin.
      * intros l' Hl'.
        apply (List.in_app_or (x :: done') [level]) in Hl' as [Hl' | [<- | []]].
        -- apply Hmin, Hl'.
        -- exact E.
Qed.

Lemma nearest_fold (price : Q) (rest : list SRLevel.t) :
  forall done_ st,
    nearestInv price done_ st ->
    nearestInv price (done_ ++ rest)
      (fold_left (nearestStep price) rest st).
Proof.
  induction rest as [|level rest IH]; intros done_ st H; cbn [fold_left].
  - rewrite app_nil_r. exact H.
  - replace (done_ ++ level :: rest) with ((done_ ++ [level]) ++ rest)
      by (rewrite <- List.app_assoc; reflexivity).
    apply IH, nearestStep_inv, H.
Qed.

(** X16.  [isNearSRLevel] returns a level of the list that is nearest to
    the price among all levels and lies within [atrValue * threshold] of
    it; it returns [null] when the list is empty, when the ATR is 0, and
    otherwise exactly when every level is farther than
    [atrValue * threshold] from the price. *)
Theorem isNearSRLevel_nearest
    (price : Q) (srLevels : list SRLevel.t) (atrValue threshold : Q) :
  let result := isNearSRLevel price srLevels atrValue threshold in
  (forall level,
      result = Some level ->
      In level srLevels
      /\ distanceTo price level <= atrValue * threshold
      /\ forall other, In other srLevels ->
           distanceTo price level <= distanceTo price other)
  /\ (srLevels = [] \/ atrValue == 0 -> result = None)
  /\ (srLevels <> [] -> ~ atrValue == 0 ->
      (result = None <->
       forall other, In other srLevels ->
         atrValue * threshold < distanceTo price other)).
Proof.
  intros result. subst result. unfold isNearSRLevel.
  destruct srLevels as [|x levels].
  - simpl. split; [discriminate|]. split; [reflexivity|]. contradiction.
  - change (length (x :: levels) =? 0)%nat with false. rewrite orb_false_l.
    destruct (eqb atrValue 0) eqn:Ez.
    + apply eqb_true in Ez. split; [discriminate|].
      split; [reflexivity|]. intros _ H. contradiction.
    + apply eqb_false in Ez. cbv zeta.
      pose proof (nearest_fold price (x :: levels) [] (None, None) eq_refl)
        as Hinv.
      simpl app in Hinv. unfold nearestInv in Hinv.
      destruct Hinv as (l & -> & Hin & Hmin).
      destruct (leb (distanceTo price l) (atrValue * threshold)) eqn:El.
      * apply leb_true in El. split; [|split].
        -- intros level [= <-]. auto.
        -- intros [H | H]; [discriminate | contradiction].
        -- intros _ _. split; [discriminate|].
           intros H. specialize (H l Hin). lra.
      * apply leb_false in El. split; [discriminate|].
        split; [reflexivity|]. intros _ _. split; [|reflexivity].
        intros _ other Ho. specialize (Hmin other Ho). lra.
Qed.

Lemma isNearSRLevel_nearest_witness :
  isNearSRLevel 1.1000
    [levelAt 1.2000 "resistance" 2; levelAt 1.1010 "support" 3] 0.0100 0.3
  = Some (levelAt 1.1010 "support" 3)
  /\ distanceTo 1.1000 (levelAt 1.1010 "support" 3) <= 0.0100 * 0.3.
Proof.
  assert (H : isNearSRLevel 1.1000
                [levelAt 1.2000 "resistance" 2; levelAt 1.1010 "support" 3]
                0.0100 0.3
              = Some (levelAt 1.1010 "support" 3))
    by (vm_compute; reflexivity).
  split; [exact H|].
  destruct (isNearSRLevel_nearest 1.1000
              [levelAt 1.2000 "resistance" 2; levelAt 1.1010 "support" 3]
              0.0100 0.3) as (Hs & _).
  apply (Hs _ H).
Defined.

(** ** Trend classification *)

Lemma trend_direction_cases (price e50 e200 : Q) (candles : list Candle.t)
    (ema50 ema200 : option Q) :
  present ema50 e50 -> present ema200 e200 ->
  let d :=
    Trend.direction
      (TrendAnalysis.trend (determineTrend price ema50 ema200 candles)) in
  (gtb price e50 && gtb e50 e200 = true /\ d = "uptrend"%string)
  \/ (gtb price e50 && gtb e50 e200 = false
      /\ negb (gtb price e50) && negb (gtb e50 e200) = true
      /\ d = "downtrend"%string)
  \/ (gtb price e50 && gtb e50 e200 = false
      /\ negb (gtb price e50) && negb (gtb e50 e200) = false
      /\ ((exists half, half = (e50 + e200) / 2 /\ ~ half == 0
                        /\ Qabs (e50 - e200) / half * 100 < 0.5)
          /\ d = "choppy"%string
          \/ d = "transition"%string)).
Proof.
  intros H50 H200 d. subst d. unfold determineTrend.
  rewrite (falsy_present _ _ H50), (falsy_present _ _ H200).
  destruct H50 as [-> _]. destruct H200 as [-> _].
  cbn [orb ToNumber]. cbv zeta.
  destruct (gtb price e50 && gtb e50 e200) eqn:Eup.
  - left. split; [reflexivity|].
    destruct (lastVsFirst gtb _ && lastVsFirst gtb _); [reflexivity|].
    destruct (lastVsFirst gtb _ || lastVsFirst gtb _); reflexivity.
  - right.
    destruct (negb (gtb price e50) && negb (gtb e50 e200)) eqn:Edown.
    + left. split; [reflexivity|]. split; [reflexivity|].
      destruct (lastVsFirst ltb _ && lastVsFirst ltb _); [reflexivity|].
      destruct (lastVsFirst ltb _ || lastVsFirst ltb _); reflexivity.
    + right. split; [reflexivity|]. split; [reflexivity|].
      destruct (eqb ((e50 + e200) / 2) 0) eqn:Ez; [right; reflexivity|].
      destruct (ltb (Qabs (e50 - e200) / ((e50 + e200) / 2) * 100) 0.5)
        eqn:Ef; [|right; reflexivity].
      left. split; [|reflexivity].
      exists ((e50 + e200) / 2). apply eqb_false in Ez.
      apply ltb_true in Ef. auto.
Qed.

(** X17.  With both averages present (not [null], not 0), [determineTrend]
    reports ['uptrend'] exactly when [price > ema50 > ema200] and
    ['downtrend'] exactly when [price <= ema50 <= ema200], equalities
    included; every other ordering gives ['choppy'] or ['transition'], and
    ['choppy'] only when the gap between the averages is below 0.5 percent
    of their mean.  With an average missing the trend is ['unclear'] and
    ['weak']. *)
Theorem determineTrend_direction
    (price : Q) (ema50 ema200 : option Q) (candles : list Candle.t) :
  let t := TrendAnalysis.trend (determineTrend price ema50 ema200 candles) in
  (forall e50 e200,
      present ema50 e50 -> present ema200 e200 ->
      (Trend.direction t = "uptrend"%string <-> e50 < price /\ e200 < e50)
      /\ (Trend.direction t = "downtrend"%string <->
          price <= e50 /\ e50 <= e200)
      /\ (Trend.direction t = "choppy"%string ->
          Qabs (e50 - e200) / ((e50 + e200) / 2) * 100 < 0.5)
      /\ In (Trend.direction t)
            ["uptrend"; "downtrend"; "choppy"; "transition"]%string)
  /\ (missing ema50 \/ missing ema200 ->
      Trend.direction t = "unclear"%string
      /\ Trend.strength t = "weak"%string).
Proof.
  intros t. split.
  - intros e50 e200 H50 H200.
    pose proof (trend_direction_cases price e50 e200 candles ema50 ema200
                  H50 H200) as Hc.
    cbv zeta in Hc. fold t in Hc.
    assert (Hup : gtb price e50 && gtb e50 e200 = true
                  <-> e50 < price /\ e200 < e50)
      by (rewrite andb_true_iff, !gtb_true; tauto).
    assert (Hdn : negb (gtb price e50) && negb (gtb e50 e200) = true
                  <-> price <= e50 /\ e50 <= e200).
    { rewrite andb_true_iff, !negb_true_iff. unfold gtb.
      rewrite !negb_false_iff. fold (leb price e50). fold (leb e50 e200).
      rewrite !leb_true. tauto. }
    destruct Hc as [[Hb Hd] | [(Hb & Hb' & Hd) | (Hb & Hb' & Hd)]].
    + rewrite Hd. split; [tauto|]. split.
      * split; [discriminate|]. intros H. apply Hup in Hb. lra.
      * split; [discriminate | simpl; auto].
    + rewrite Hd. split.
      * split; [discriminate|]. intros H. apply Hup in H. congruence.
      * split; [tauto|]. split; [discriminate | simpl; auto].
    + assert (Hnup : ~ (e50 < price /\ e200 < e50))
        by (intros H; apply Hup in H; congruence).
      assert (Hndn : ~ (price <= e50 /\ e50 <= e200))
        by (intros H; apply Hdn in H; congruence).
      destruct Hd as [[(half & -> & _ & Hf) Hd] | Hd]; rewrite Hd.
      * split; [split; [discriminate | tauto]|].
        split; [split; [discriminate | tauto]|].
        split; [intros _; exact Hf | simpl; auto].
      * split; [split; [discriminate | tauto]|].
        split; [split; [discriminate | tauto]|].
        split; [discriminate | simpl; auto 6].
  - intros Hm. subst t. unfold determineTrend.
    replace (falsy ema50 || falsy ema200) with true; [split; reflexivity|].
    symmetry. rewrite orb_true_iff, !falsy_missing. exact Hm.
Qed.

Lemma determineTrend_direction_witness :
  Trend.direction
    (TrendAnalysis.trend
       (determineTrend 1.1000 (Some 1.1000) (Some 1.1000) []))
  = "downtrend"%string.
Proof.
  destruct (determineTrend_direction 1.1000 (Some 1.1000) (Some 1.1000) [])
    as [H _].
  destruct (H 1.1000 1.1000) as (_ & Hd & _).
  - split; [reflexivity | vm_compute; discriminate].
  - split; [reflexivity | vm_compute; discriminate].
  - apply Hd. split; apply Qle_refl.
Defined.

(** ** Candle patterns *)

Lemma patternResult_detected (d : bool) (text : string) :
  PatternResult.detected (patternResult d text) = d.
Proof. reflexivity. Qed.

Lemma engulfing_exclusive (candles : list Candle.t) :
  PatternResult.detected (detectBullishEngulfing candles)
  && PatternResult.detected (detectBearishEngulfing candles) = false.
Proof.
  unfold detectBullishEngulfing, detectBearishEngulfing.
  destruct (lastTwo candles) as [[prev current]|]; [|reflexivity].
  cbv zeta. rewrite !patternResult_detected.
  destruct (ltb (Candle.close prev) (Candle.open prev)) eqn:E1;
    [|reflexivity].
  destruct (gtb (Candle.close prev) (Candle.open prev)) eqn:E2;
    [|rewrite andb_false_r; reflexivity].
  apply ltb_true in E1. apply gtb_true in E2. lra.
Qed.

Lemma wick_identity (o c h l : Q) :
  (h - Qmax o c) + (Qmin o c - l) + Qabs (c - o) == h - l.
Proof.
  destruct (Q.max_spec o c) as [[H1 ->] | [H1 ->]];
    destruct (Q.min_spec o c) as [[H2 ->] | [H2 ->]];
    try lra.
  - rewrite Qabs_pos by lra. lra.
  - rewrite Qabs_neg by lra. lra.
Qed.

Lemma pin_exclusive (candle : option Candle.t) :
  PatternResult.detected (detectBullishPinBar candle)
  && PatternResult.detected (detectBearishPinBar candle) = false.
Proof.
  destruct candle as [c|]; [|reflexivity].
  unfold detectBullishPinBar, detectBearishPinBar. cbv zeta.
  rewrite !patternResult_detected.
  pose proof (wick_identity (Candle.open c) (Candle.close c)
                (Candle.high c) (Candle.low c)) as Hid.
  pose proof (Qabs_nonneg (Candle.close c - Candle.open c)) as Hb.
  destruct (gtb (Qmin (Candle.open c) (Candle.close c) - Candle.low c)
              ((Candle.high c - Candle.low c) * 0.5)) eqn:E1;
    [|rewrite !andb_false_r; reflexivity].
  destruct (gtb (Candle.high c - Qmax (Candle.open c) (Candle.close c))
              ((Candle.high c - Candle.low c) * 0.5)) eqn:E2;
    [|rewrite !andb_false_r; reflexivity].
  apply gtb_true in E1. apply gtb_true in E2. lra.
Qed.

Lemma lastTwo_short (candles : list Candle.t) :
  (length candles < 2)%nat -> lastTwo candles = None.
Proof.
  intros H. unfold lastTwo.
  destruct (Nat.ltb_spec (length candles) 2); [reflexivity | lia].
Qed.

(** X18.  [analyzePatterns] never reports a bullish and a bearish engulfing
    on the same candles, nor a bullish and a bearish pin bar on the same
    last candle; with fewer than two candles it reports no pattern at
    all. *)
Theorem analyzePatterns_exclusive (candles : list Candle.t) :
  let a := analyzePatterns candles in
  let p := PatternAnalysis.patterns a in
  PatternResult.detected (Patterns.bullishEngulfing p)
  && PatternResult.detected (Patterns.bearishEngulfing p) = false
  /\ PatternResult.detected (Patterns.bullishPin p)
     && PatternResult.detected (Patterns.bearishPin p) = false
  /\ ((length candles < 2)%nat ->
      PatternResult.detected (Patterns.bullishEngulfing p) = false
      /\ PatternResult.detected (Patterns.bearishEngulfing p) = false
      /\ PatternResult.detected (Patterns.bullishPin p) = false
      /\ PatternResult.detected (Patterns.bearishPin p) = false
      /\ PatternResult.detected (PatternAnalysis.insideBar a) = false).
Proof.
  cbv zeta. unfold analyzePatterns.
  destruct (Nat.ltb_spec (length candles) 2) as [Hs | Hl].
  - cbn. repeat split; reflexivity.
  - cbn [PatternAnalysis.patterns PatternAnalysis.insideBar
         Patterns.bullishEngulfing Patterns.bearishEngulfing
         Patterns.bullishPin Patterns.bearishPin].
    split; [apply engulfing_exclusive|].
    split; [apply pin_exclusive|]. lia.
Qed.

(** X19.  The lower wick, the upper wick and the body of a candle add up
    to its range, so the 50 percent wick test of the pin-bar detectors
    never decides: a bullish pin bar is detected exactly when the range is
    above 0, the lower wick is at least twice the body, the upper wick is
    at most half the body and the body is below 30 percent of the range,
    and its lower wick is then more than 55 percent of the range.  The
    bearish detector is the mirror image.  A bar whose high equals its low
    is never a pin bar. *)
Theorem pin_bar_shape (c : Candle.t) :
  let body := Qabs (Candle.close c - Candle.open c) in
  let range := Candle.high c - Candle.low c in
  let upperWick := Candle.high c - Qmax (Candle.open c) (Candle.close c) in
  let lowerWick := Qmin (Candle.open c) (Candle.close c) - Candle.low c in
  (PatternResult.detected (detectBullishPinBar (Some c)) = true <->
   0 < range /\ body * 2 <= lowerWick /\ upperWick <= body * 0.5
   /\ body < range * 0.3)
  /\ (PatternResult.detected (detectBullishPinBar (Some c)) = true ->
      range * 0.55 < lowerWick)
  /\ (PatternResult.detected (detectBearishPinBar (Some c)) = true <->
      0 < range /\ body * 2 <= upperWick /\ lowerWick <= body * 0.5
      /\ body < range * 0.3)
  /\ (PatternResult.detected (detectBearishPinBar (Some c)) = true ->
      range * 0.55 < upperWick)
  /\ (Candle.high c == Candle.low c ->
      PatternResult.detected (detectBullishPinBar (Some c)) = false
      /\ PatternResult.detected (detectBearishPinBar (Some c)) = false).
Proof.
  cbv zeta.
  pose proof (wick_identity (Candle.open c) (Candle.close c)
                (Candle.high c) (Candle.low c)) as Hid.
  unfold detectBullishPinBar, detectBearishPinBar. cbv zeta.
  rewrite !patternResult_detected.
  rewrite !andb_true_iff, !geb_true, !leb_true, !ltb_true, !gtb_true.
  split; [|split; [|split; [|split]]].
  - split.
    + intros ((((H1 & H2) & H3) & H4) & H5). repeat split; lra.
    + intros (H1 & H2 & H3 & H4). repeat split; lra.
  - intros ((((H1 & H2) & H3) & H4) & H5). lra.
  - split.
    + intros ((((H1 & H2) & H3) & H4) & H5). repeat split; lra.
    + intros (H1 & H2 & H3 & H4). repeat split; lra.
  - intros ((((H1 & H2) & H3) & H4) & H5). lra.
  - intros Heq.
    assert (E : gtb (Candle.high c - Candle.low c) 0 = false).
    { unfold gtb. rewrite negb_false_iff. apply Qle_bool_iff. lra. }
    rewrite E, !andb_false_r. split; reflexivity.
Qed.

Lemma pin_bar_shape_witness :
  PatternResult.detected
    (detectBullishPinBar (Some (bar 0 1.1040 1.1050 1.1000 1.1050))) = true
  /\ (Candle.high (bar 0 1.1040 1.1050 1.1000 1.1050)
      - Candle.low (bar 0 1.1040 1.1050 1.1000 1.1050)) * 0.55
     < Qmin (Candle.open (bar 0 1.1040 1.1050 1.1000 1.1050))
            (Candle.close (bar 0 1.1040 1.1050 1.1000 1.1050))
       - Candle.low (bar 0 1.1040 1.1050 1.1000 1.1050).
Proof.
  assert (H : PatternResult.detected
                (detectBullishPinBar
                   (Some (bar 0 1.1040 1.1050 1.1000 1.1050))) = true)
    by (vm_compute; reflexivity).
  split; [exact H|].
  destruct (pin_bar_shape (bar 0 1.1040 1.1050 1.1000 1.1050))
    as (_ & Hb & _).
  apply (Hb H).
Defined.

(** ** The pre-filter heuristics *)

Lemma heuristics_without_trend (candles : list Candle.t)
    (indicators : Indicators.t) :
  Trend.direction (Indicators.trend indicators) <> "uptrend"%string ->
  Trend.direction (Indicators.trend indicators) <> "downtrend"%string ->
  checkTrendAlignedEngulfing indicators = None
  /\ checkPullbackIntoTrend candles indicators = None.
Proof.
  intros Hu Hd. apply String.eqb_neq in Hu, Hd.
  unfold checkTrendAlignedEngulfing, checkPullbackIntoTrend. cbv zeta.
  rewrite Hu, Hd, !andb_false_r. split; reflexivity.
Qed.

Lemma heuristics_without_level (indicators : Indicators.t)
    (lastCandle : option Candle.t) :
  Swings.nearSR (Indicators.swings indicators) = None ->
  checkPinBarAtStructure indicators lastCandle = None
  /\ checkReversalAtSR indicators = None.
Proof.
  intros H. unfold checkPinBarAtStructure, checkReversalAtSR. cbv zeta.
  rewrite H. split; reflexivity.
Qed.

Lemma checkRSIDivergence_cases (candles : list Candle.t)
    (indicators : Indicators.t) :
  checkRSIDivergence candles indicators = None
  \/ checkRSIDivergence candles indicators = Some rsiOversoldReason
  \/ checkRSIDivergence candles indicators = Some rsiOverboughtReason.
Proof.
  unfold checkRSIDivergence. cbv zeta.
  destruct (_ || _); [auto|].
  destruct (_ && _); [auto|].
  destruct (_ && _); auto.
Qed.

(** X20.  The engulfing and pullback heuristics stay silent unless the
    trend is an uptrend or a downtrend, and the pin-bar and reversal
    heuristics stay silent without a nearby level.  So with neither,
    [applyPrefilters] yields no candidate outside aggressive mode, and in
    aggressive mode the reason of a candidate is one of the two momentum
    reasons. *)
Theorem heuristics_need_trend_or_level
    (candles : list Candle.t) (indicators : Indicators.t) (mode : string) :
  Trend.direction (Indicators.trend indicators) <> "uptrend"%string ->
  Trend.direction (Indicators.trend indicators) <> "downtrend"%string ->
  Swings.nearSR (Indicators.swings indicators) = None ->
  let result := applyPrefilters candles indicators mode in
  checkTrendAlignedEngulfing indicators = None
  /\ checkPullbackIntoTrend candles indicators = None
  /\ checkPinBarAtStructure indicators (last candles) = None
  /\ checkReversalAtSR indicators = None
  /\ (mode <> "aggressive"%string ->
      CandidateResult.isCandidate result = false)
  /\ (CandidateResult.isCandidate result = true ->
      mode = "aggressive"%string
      /\ (CandidateResult.reason result = rsiOversoldReason
          \/ CandidateResult.reason result = rsiOverboughtReason)).
Proof.
  intros Hu Hd Hn result.
  destruct (heuristics_without_trend candles indicators Hu Hd) as [H1 H3].
  destruct (heuristics_without_level indicators (last candles) Hn)
    as [H2 H5].
  do 4 (split; [assumption|]).
  assert (Hres :
    result = rejected "Insufficient candle data"
    \/ result = rejected "Missing required indicators"
    \/ result = rejected (atrTooSmallReason indicators)
    \/ result = rejected "Choppy market with flat EMAs, no clear trend"
    \/ result = rejected EmptyString
    \/ (mode = "aggressive"%string
        /\ exists s,
             (s = rsiOversoldReason \/ s = rsiOverboughtReason)
             /\ result = {| CandidateResult.isCandidate := true;
                            CandidateResult.reason := s |})).
  { subst result. unfold applyPrefilters. cbv zeta.
    destruct (length candles <? 50)%nat; [auto|].
    destruct (_ || _); [auto|].
    destruct (ltb _ _); [auto|].
    destruct (String.eqb _ "choppy"); [auto 6|].
    unfold collectReasons. cbv zeta. rewrite H1, H2, H3, H5.
    cbn [pushReason].
    destruct (String.eqb_spec mode "aggressive") as [-> | Hm];
      [|cbn; auto 6].
    destruct (checkRSIDivergence_cases candles indicators)
      as [-> | [-> | ->]]; [cbn; auto 6 | |];
      do 5 right; (split; [reflexivity|]).
    - exists rsiOversoldReason. split; [auto | reflexivity].
    - exists rsiOverboughtReason. split; [auto | reflexivity]. }
  split.
  - intros Hm.
    destruct Hres as [-> | [-> | [-> | [-> | [-> | [Hm' _]]]]]];
      try reflexivity. contradiction.
  - intros Hc.
    destruct Hres as [E | [E | [E | [E | [E | [Hm' (s & Hs & E)]]]]]];
      rewrite E in Hc; try discriminate Hc.
    split; [exact Hm'|]. rewrite E. exact Hs.
Qed.

Lemma heuristics_need_trend_or_level_witness :
  CandidateResult.isCandidate
    (applyPrefilters fiftyBars oversoldBoth "conservative") = false
  /\ checkPullbackIntoTrend fiftyBars oversoldBoth = None.
Proof.
  destruct (heuristics_need_trend_or_level fiftyBars oversoldBoth
              "conservative")
    as (_ & H3 & _ & _ & Hc & _);
    [discriminate | discriminate | reflexivity |].
  split; [apply Hc; discriminate | exact H3].
Defined.

Lemma reasons_in_collect (candles : list Candle.t)
    (indicators : Indicators.t) (mode : string) (s : string) :
  In s (collectReasons candles indicators mode)
  <-> In (Some s) (heuristicResults candles indicators mode).
Proof.
  rewrite collectReasons_triggered. unfold triggeredReasons.
  apply In_omap_id.
Qed.

(** X21.  A pin bar reported at a level with at least two touches is
    reported a second time by the reversal heuristic: the reasons
    collected by [applyPrefilters] then hold both the pin-bar reason and a
    different reversal reason, in every mode.  Conversely the reversal
    heuristic only ever fires at a nearby level with at least two
    touches. *)
Theorem pin_bar_at_strong_level_counted_twice
    (candles : list Candle.t) (indicators : Indicators.t) (mode : string) :
  (forall level s,
      Swings.nearSR (Indicators.swings indicators) = Some level ->
      (2 <= SRLevel.touches level)%nat ->
      checkPinBarAtStructure indicators (last candles) = Some s ->
      exists s',
        checkReversalAtSR indicators = Some s'
        /\ s <> s'
        /\ In s (collectReasons candles indicators mode)
        /\ In s' (collectReasons candles indicators mode))
  /\ (forall s',
      checkReversalAtSR indicators = Some s' ->
      exists level,
        Swings.nearSR (Indicators.swings indicators) = Some level
        /\ (2 <= SRLevel.touches level)%nat
        /\ (SRLevel.type level = "support"%string
            \/ SRLevel.type level = "resistance"%string)).
Proof.
  split.
  - intros level s Hn Ht Hp.
    assert (Hr : exists s',
               checkReversalAtSR indicators = Some s' /\ s <> s').
    { unfold checkPinBarAtStructure in Hp. unfold checkReversalAtSR.
      cbv zeta in *. rewrite Hn in *.
      replace (SRLevel.touches level <? 2)%nat with false
        by (symmetry; apply Nat.ltb_ge; exact Ht).
      unfold countTrue.
      destruct (PatternResult.detected
                  (Patterns.bullishPin (Indicators.patterns indicators)))
        eqn:Ebp;
        destruct (String.eqb_spec (SRLevel.type level) "support")
          as [Es | Es];
        cbn [andb] in Hp.
      - injection Hp as <-.
        destruct (PatternResult.detected (Patterns.bullishEngulfing _));
          cbn; eexists; (split; [reflexivity | discriminate]).
      - destruct (PatternResult.detected
                    (Patterns.bearishPin (Indicators.patterns indicators)))
          eqn:Ebr;
          destruct (String.eqb_spec (SRLevel.type level) "resistance")
            as [Er | Er];
          cbn [andb] in Hp; try discriminate Hp.
        injection Hp as <-.
        destruct (PatternResult.detected (Patterns.bullishEngulfing _));
          destruct (PatternResult.detected (Patterns.bearishEngulfing _));
          cbn; eexists; (split; [reflexivity | discriminate]).
      - destruct (PatternResult.detected
                    (Patterns.bearishPin (Indicators.patterns indicators)))
          eqn:Ebr;
          destruct (String.eqb_spec (SRLevel.type level) "resistance")
            as [Er | Er];
          cbn [andb] in Hp; try discriminate Hp.
        rewrite Er in Es. discriminate Es.
      - destruct (PatternResult.detected
                    (Patterns.bearishPin (Indicators.patterns indicators)))
          eqn:Ebr;
          destruct (String.eqb_spec (SRLevel.type level) "resistance")
            as [Er | Er];
          cbn [andb] in Hp; try discriminate Hp.
        injection Hp as <-.
        destruct (PatternResult.detected (Patterns.bearishEngulfing _));
          cbn; eexists; (split; [reflexivity | discriminate]). }
    destruct Hr as (s' & Hr & Hne). exists s'.
    split; [exact Hr|]. split; [exact Hne|].
    rewrite !reasons_in_collect. unfold heuristicResults.
    rewrite Hp, Hr. simpl. split; auto 6.
  - intros s' Hr. unfold checkReversalAtSR in Hr. cbv zeta in Hr.
    destruct (Swings.nearSR (Indicators.swings indicators)) as [level|];
      [|discriminate Hr].
    exists level. split; [reflexivity|].
    destruct (Nat.ltb_spec (SRLevel.touches level) 2);
      [discriminate Hr|]. split; [assumption|].
    destruct (String.eqb_spec (SRLevel.type level) "support");
      [auto|].
    destruct (String.eqb_spec (SRLevel.type level) "resistance");
      [auto|]. discriminate Hr.
Qed.

Lemma pin_bar_at_strong_level_counted_twice_witness :
  exists s',
    checkReversalAtSR pinAtSupport = Some s'
    /\ In s' (collectReasons fiftyBars pinAtSupport "conservative").
Proof.
  destruct (pin_bar_at_strong_level_counted_twice fiftyBars pinAtSupport
              "conservative") as [H _].
  destruct (H (levelAt 1.0995 "support" 3)
              (bullishPinReason (levelAt 1.0995 "support" 3)))
    as (s' & Hr & _ & _ & Hin).
  - reflexivity.
  - simpl. lia.
  - reflexivity.
  - exists s'. split; assumption.
Defined.

(** ** The indicator bundle *)




Lemma computeAllIndicators_unfold (candles : list Candle.t) :
  (50 <= length candles)%nat ->
  exists lastCandle a,
    last candles = Some lastCandle
    /\ computeAllIndicators candles = Some a
    /\ Indicators.ema50 (AllIndicators.indicators a)
       = getLatestEMA (map Candle.close candles) 50
    /\ Indicators.ema200 (AllIndicators.indicators a)
       = getLatestEMA (map Candle.close candles) 200
    /\ Indicators.atr14 (AllIndicators.indicators a)
       = getLatestATR candles 14
    /\ Indicators.rsi14 (AllIndicators.indicators a)
       = getLatestRSI (map Candle.close candles) 14
    /\ Indicators.currentPrice (AllIndicators.indicators a)
       = Candle.close lastCandle
    /\ Indicators.patterns (AllIndicators.indicators a)
       = PatternAnalysis.patterns (analyzePatterns candles)
    /\ Indicators.trend (AllIndicators.indicators a)
       = TrendAnalysis.trend
           (determineTrend (Candle.close lastCandle)
              (getLatestEMA (map Candle.close candles) 50)
              (getLatestEMA (map Candle.close candles) 200) candles).
Proof.
  intros Hn. unfold computeAllIndicators.
  replace (length candles <? 50)%nat with false
    by (symmetry; apply Nat.ltb_ge; exact Hn).
  destruct (last candles) as [lastCandle|] eqn:El.
  - exists lastCandle. eexists. split; [reflexivity|].
    split; [reflexivity|]. cbv zeta.
    cbn [AllIndicators.indicators Indicators.ema50 Indicators.ema200
         Indicators.atr14 Indicators.rsi14 Indicators.currentPrice
         Indicators.patterns Indicators.trend].
    repeat split; reflexivity.
  - apply last_None in El. subst candles. simpl in Hn. lia.
Qed.



Lemma present_not_missing (x : option Q) :
  falsy x = false -> exists a, present x a.
Proof.
  destruct x as [q|]; [|discriminate]. cbn [falsy]. intros H.
  exists q. split; [reflexivity | apply eqb_false, H].
Qed.

Lemma trend_up_down (price : Q) (ema50 ema200 : option Q)
    (candles : list Candle.t) :
  let d :=
    Trend.direction
      (TrendAnalysis.trend (determineTrend price ema50 ema200 candles)) in
  (d = "uptrend"%string <->
   exists e50 e200,
     present ema50 e50 /\ present ema200 e200
     /\ e50 < price /\ e200 < e50)
  /\ (d = "downtrend"%string <->
      exists e50 e200,
        present ema50 e50 /\ present ema200 e200
        /\ price <= e50 /\ e50 <= e200).
Proof.
  intros d.
  destruct (falsy ema50) eqn:F50; [|destruct (falsy ema200) eqn:F200].
  - assert (Hd : d = "unclear"%string)
      by (subst d; unfold determineTrend; rewrite F50; reflexivity).
    rewrite Hd. split; (split; [discriminate|]);
      intros (e50 & e200 & H50 & _);
      apply falsy_present in H50; congruence.
  - assert (Hd : d = "unclear"%string)
      by (subst d; unfold determineTrend; rewrite F50, F200; reflexivity).
    rewrite Hd. split; (split; [discriminate|]);
      intros (e50 & e200 & _ & H200 & _);
      apply falsy_present in H200; congruence.
  - destruct (present_not_missing _ F50) as [e50 H50].
    destruct (present_not_missing _ F200) as [e200 H200].
    pose proof (trend_direction_cases price e50 e200 candles ema50 ema200
                  H50 H200) as Hc.
    cbv zeta in Hc. fold d in Hc.
    assert (Hup : gtb price e50 && gtb e50 e200 = true
                  <-> e50 < price /\ e200 < e50)
      by (rewrite andb_true_iff, !gtb_true; tauto).
    assert (Hdn : negb (gtb price e50) && negb (gtb e50 e200) = true
                  <-> price <= e50 /\ e50 <= e200).
    { rewrite andb_true_iff, !negb_true_iff. unfold gtb.
      rewrite !negb_false_iff. fold (leb price e50). fold (leb e50 e200).
      rewrite !leb_true. tauto. }
    assert (Huniq : forall a b, present ema50 a -> present ema200 b ->
                                a = e50 /\ b = e200).
    { intros a b [Ea _] [Eb _]. destruct H50 as [E1 _], H200 as [E2 _].
      split; congruence. }
    split; split.
    + intros Hd. exists e50, e200. split; [exact H50|].
      split; [exact H200|]. apply Hup.
      destruct Hc as [[Hb _] | [(_ & _ & Hd') | (_ & _ & [[_ Hd'] | Hd'])]];
        [exact Hb | congruence ..].
    + intros (a & b & Ha & Hb & Hlt).
      destruct (Huniq a b Ha Hb) as [-> ->]. apply Hup in Hlt.
      destruct Hc as [[_ Hd] | [(Hb' & _) | (Hb' & _)]];
        [exact Hd | congruence ..].
    + intros Hd. exists e50, e200. split; [exact H50|].
      split; [exact H200|]. apply Hdn.
      destruct Hc as [[_ Hd'] | [(_ & Hb & _) | (_ & _ & [[_ Hd'] | Hd'])]];
        [congruence | exact Hb | congruence ..].
    + intros (a & b & Ha & Hb & Hle).
      destruct (Huniq a b Ha Hb) as [-> ->]. apply Hdn in Hle.
      destruct Hc as [[Hb' _] | [(_ & _ & Hd) | (_ & Hb' & _)]];
        [|exact Hd | congruence].
      apply Hup in Hb'. apply Hdn in Hle. lra.
Qed.

(** X22.  On a bundle computed by [computeAllIndicators],
    [checkTrendAlignedEngulfing] reports a bullish engulfing exactly when
    [detectBullishEngulfing] fires on the candles and both averages are
    present with [ema200 < ema50 < price]; it reports a bearish engulfing
    exactly when [detectBearishEngulfing] fires and both averages are
    present with [price < ema50 <= ema200].  A downtrend whose price
    equals [ema50] therefore reports nothing. *)
Theorem engulfing_reason_on_computed_bundle
    (candles : list Candle.t) (a : AllIndicators.t) :
  computeAllIndicators candles = Some a ->
  let ind := AllIndicators.indicators a in
  let price := Indicators.currentPrice ind in
  (checkTrendAlignedEngulfing ind = Some "Bullish engulfing in uptrend"%string
   <-> PatternResult.detected (detectBullishEngulfing candles) = true
       /\ exists e50 e200,
            present (Indicators.ema50 ind) e50
            /\ present (Indicators.ema200 ind) e200
            /\ e50 < price /\ e200 < e50)
  /\ (checkTrendAlignedEngulfing ind
      = Some "Bearish engulfing in downtrend"%string
      <-> PatternResult.detected (detectBearishEngulfing candles) = true
          /\ exists e50 e200,
               present (Indicators.ema50 ind) e50
               /\ present (Indicators.ema200 ind) e200
               /\ price < e50 /\ e50 <= e200)
  /\ (checkTrendAlignedEngulfing ind <> None ->
      checkTrendAlignedEngulfing ind
      = Some "Bullish engulfing in uptrend"%string
      \/ checkTrendAlignedEngulfing ind
         = Some "Bearish engulfing in downtrend"%string).
Proof.
  intros Ha ind price.
  assert (Hn : (50 <= length candles)%nat).
  { destruct (Nat.ltb_spec (length candles) 50) as [Hlt | Hge];
      [|exact Hge].
    unfold computeAllIndicators in Ha.
    replace (length candles <? 50)%nat with true in Ha
      by (symmetry; apply Nat.ltb_lt; exact Hlt).
    discriminate Ha. }
  destruct (computeAllIndicators_unfold candles Hn)
    as (lastCandle & a' & _ & Ha' & H50 & H200 & _ & _ & Hp & Hpat & Ht).
  assert (a' = a) by congruence. subst a'.
  fold ind in H50, H200, Hp, Hpat, Ht. fold price in Hp.
  rewrite <- H50, <- H200, <- Hp in Ht.
  destruct (trend_up_down price (Indicators.ema50 ind)
              (Indicators.ema200 ind) candles) as [Hup Hdn].
  cbv zeta in Hup, Hdn. rewrite <- Ht in Hup, Hdn.
  assert (Hbull : PatternResult.detected
                    (Patterns.bullishEngulfing (Indicators.patterns ind))
                  = PatternResult.detected (detectBullishEngulfing candles)).
  { rewrite Hpat. unfold analyzePatterns.
    replace (length candles <? 2)%nat with false
      by (symmetry; apply Nat.ltb_ge; lia).
    reflexivity. }
  assert (Hbear : PatternResult.detected
                    (Patterns.bearishEngulfing (Indicators.patterns ind))
                  = PatternResult.detected (detectBearishEngulfing candles)).
  { rewrite Hpat. unfold analyzePatterns.
    replace (length candles <? 2)%nat with false
      by (symmetry; apply Nat.ltb_ge; lia).
    reflexivity. }
  unfold checkTrendAlignedEngulfing. cbv zeta. fold price.
  rewrite Hbull, Hbear.
  set (B := PatternResult.detected (detectBullishEngulfing candles)).
  set (S_ := PatternResult.detected (detectBearishEngulfing candles)).
  set (d := Trend.direction (Indicators.trend ind)) in *.
  set (e := ToNumber (Indicators.ema50 ind)).
  assert (He : forall e50, present (Indicators.ema50 ind) e50 -> e = e50)
    by (intros e50 [E _]; unfold e; rewrite E; reflexivity).
  split; [|split].
  - destruct (B && String.eqb d "uptrend" && gtb price e) eqn:C1.
    + apply andb_true_iff in C1 as [C1 C3].
      apply andb_true_iff in C1 as [C1 C2].
      apply String.eqb_eq in C2. split; [|reflexivity].
      intros _. split; [exact C1|]. apply Hup, C2.
    + split.
      * destruct (S_ && String.eqb d "downtrend" && ltb price e);
          discriminate.
      * intros (HB & e50 & e200 & P50 & P200 & L1 & L2).
        assert (Hd : d = "uptrend"%string)
          by (apply Hup; exists e50, e200; auto).
        rewrite HB, Hd, (He e50 P50) in C1.
        replace (gtb price e50) with true in C1
          by (symmetry; apply gtb_true, L1).
        discriminate C1.
  - destruct (B && String.eqb d "uptrend" && gtb price e) eqn:C1.
    + split; [discriminate|].
      intros (_ & e50 & e200 & P50 & P200 & L1 & L2).
      apply andb_true_iff in C1 as [C1 C3].
      apply gtb_true in C3. rewrite (He e50 P50) in C3. lra.
    + destruct (S_ && String.eqb d "downtrend" && ltb price e) eqn:C2.
      * apply andb_true_iff in C2 as [C2 C4].
        apply andb_true_iff in C2 as [C2 C3].
        apply String.eqb_eq in C3. split; [|reflexivity].
        intros _. split; [exact C2|].
        apply Hdn in C3 as (e50 & e200 & P50 & P200 & L1 & L2).
        exists e50, e200. apply ltb_true in C4.
        rewrite (He e50 P50) in C4. auto.
      * split; [discriminate|].
        intros (HS & e50 & e200 & P50 & P200 & L1 & L2).
        assert (Hd : d = "downtrend"%string)
          by (apply Hdn; exists e50, e200; split; [exact P50|];
              split; [exact P200|]; split; [lra | exact L2]).
        rewrite HS, Hd, (He e50 P50) in C2.
        replace (ltb price e50) with true in C2
          by (symmetry; apply ltb_true, L1).
        discriminate C2.
  - destruct (B && String.eqb d "uptrend" && gtb price e); [auto|].
    destruct (S_ && String.eqb d "downtrend" && ltb price e); [auto|].
    intros H. contradiction.
Qed.

Lemma engulfing_reason_on_computed_bundle_witness :
  exists a,
    computeAllIndicators fiftyBars = Some a
    /\ checkTrendAlignedEngulfing (AllIndicators.indicators a)
       <> Some "Bullish engulfing in uptrend"%string.
Proof.
  eexists. split; [reflexivity|].
  intros H.
  apply (engulfing_reason_on_computed_bundle fiftyBars _ eq_refl) in H
    as [H _].
  vm_compute in H. discriminate H.
Defined.

(** ** Symbols of the market-data API *)

Lemma substring_all (s : string) : substring 0 (String.length s) s = s.
Proof. induction s as [|c s IH]; simpl; [reflexivity | rewrite IH; reflexivity]. Qed.

Lemma substring_split (n : nat) :
  forall s, (n <= String.length s)%nat ->
    (substring 0 n s ++ substring n (String.length s - n) s)%string = s.
Proof.
  induction n as [|n IH]; intros s Hn.
  - rewrite Nat.sub_0_r, substring_all. destruct s; reflexivity.
  - destruct s as [|c s]; simpl in Hn; [lia|].
    change (String c (substring 0 n s
                      ++ substring n (String.length s - n) s)%string
            = String c s).
    f_equal. apply IH. lia.
Qed.

Lemma substring_length (n m : nat) :
  forall s, (n + m <= String.length s)%nat ->
    String.length (substring n m s) = m.
Proof.
  induction n as [|n IH]; intros s H.
  - revert s H. induction m as [|m IHm]; intros s H.
    + destruct s; reflexivity.
    + destruct s as [|c s]; simpl in H; [lia|].
      simpl. rewrite IHm by lia. reflexivity.
  - destruct s as [|c s]; simpl in H; [lia|].
    simpl. apply IH. lia.
Qed.

Lemma includesSlash_app (a b : string) :
  includesSlash (a ++ "/" ++ b) = true.
Proof.
  induction a as [|c a IH]; simpl; [reflexivity|].
  rewrite IH. apply orb_true_r.
Qed.

Lemma formatSymbolForAPI_split (symbol : string) :
  includesSlash symbol = false ->
  (6 <= String.length symbol)%nat ->
  formatSymbolForAPI symbol
  = (substring 0 (String.length symbol - 3) symbol ++ "/"
     ++ substring (String.length symbol - 3) 3 symbol)%string.
Proof.
  intros Hs Hl. unfold formatSymbolForAPI. cbv zeta. rewrite Hs.
  destruct (Nat.eqb_spec (String.length symbol) 6) as [E | E].
  - rewrite E. reflexivity.
  - replace (6 <? String.length symbol)%nat with true
      by (symmetry; apply Nat.ltb_lt; lia).
    reflexivity.
Qed.

(** X24.  [formatSymbolForAPI] returns a symbol that contains a slash, or
    has fewer than six characters, unchanged.  A symbol of six or more
    characters without a slash is cut before its last three characters:
    the result is [base/quote] with [base ++ quote] the symbol and [quote]
    of length 3.  Formatting a formatted symbol changes nothing. *)
Theorem formatSymbolForAPI_spec (symbol : string) :
  (includesSlash symbol = true -> formatSymbolForAPI symbol = symbol)
  /\ (includesSlash symbol = false -> (String.length symbol < 6)%nat ->
      formatSymbolForAPI symbol = symbol)
  /\ (includesSlash symbol = false -> (6 <= String.length symbol)%nat ->
      exists base quote,
        formatSymbolForAPI symbol = (base ++ "/" ++ quote)%string
        /\ (base ++ quote)%string = symbol
        /\ String.length quote = 3%nat
        /\ includesSlash base = false /\ includesSlash quote = false)
  /\ formatSymbolForAPI (formatSymbolForAPI symbol)
     = formatSymbolForAPI symbol.
Proof.
  assert (H1 : includesSlash symbol = true ->
               formatSymbolForAPI symbol = symbol).
  { intros H. unfold formatSymbolForAPI. rewrite H. reflexivity. }
  assert (H2 : includesSlash symbol = false ->
               (String.length symbol < 6)%nat ->
               formatSymbolForAPI symbol = symbol).
  { intros H Hl. unfold formatSymbolForAPI. cbv zeta. rewrite H.
    replace (String.length symbol =? 6)%nat with false
      by (symmetry; apply Nat.eqb_neq; lia).
    replace (6 <? String.length symbol)%nat with false
      by (symmetry; apply Nat.ltb_ge; lia).
    reflexivity. }
  assert (Happ : forall a b, includesSlash (a ++ b) = false ->
                   includesSlash a = false /\ includesSlash b = false).
  { induction a as [|c a IH]; intros b H; simpl in *; [auto|].
    apply orb_false_iff in H as [Hc H]. rewrite Hc.
    destruct (IH b H) as [Ha Hb]. rewrite Ha. auto. }
  split; [exact H1|]. split; [exact H2|]. split.
  - intros Hs Hl.
    exists (substring 0 (String.length symbol - 3) symbol),
           (substring (String.length symbol - 3) 3 symbol).
    split; [apply formatSymbolForAPI_split; assumption|].
    assert (Hsplit :
      (substring 0 (String.length symbol - 3) symbol
       ++ substring (String.length symbol - 3) 3 symbol)%string = symbol).
    { pose proof (substring_split (String.length symbol - 3) symbol
                    ltac:(lia)) as Hsp.
      replace (String.length symbol - (String.length symbol - 3))%nat
        with 3%nat in Hsp by lia.
      exact Hsp. }
    split; [exact Hsplit|].
    split; [apply substring_length; lia|].
    apply Happ. rewrite Hsplit. exact Hs.
  - destruct (Bool.bool_dec (includesSlash symbol) true) as [Hs | Hs].
    + rewrite (H1 Hs). apply H1, Hs.
    + apply Bool.not_true_is_false in Hs.
      destruct (le_lt_dec 6 (String.length symbol)) as [Hl | Hl].
      * rewrite (formatSymbolForAPI_split symbol Hs Hl).
        unfold formatSymbolForAPI at 1.
        rewrite includesSlash_app. reflexivity.
      * rewrite (H2 Hs Hl). apply H2; [exact Hs | exact Hl].
Qed.

Lemma formatSymbolForAPI_spec_witness :
  formatSymbolForAPI "EURUSD" = "EUR/USD"%string
  /\ formatSymbolForAPI "DOGEUSD" = "DOGE/USD"%string
  /\ formatSymbolForAPI "EUR/USD" = "EUR/USD"%string
  /\ formatSymbolForAPI "SPX" = "SPX"%string.
Proof.
  destruct (formatSymbolForAPI_spec "EUR/USD") as (Ha & _).
  destruct (formatSymbolForAPI_spec "SPX") as (_ & Hb & _).
  destruct (formatSymbolForAPI_spec "EURUSD") as (_ & _ & Hc & _).
  destruct (formatSymbolForAPI_spec "DOGEUSD") as (_ & _ & Hd & _).
  destruct Hc as (b1 & q1 & E1 & _); [reflexivity | simpl; lia |].
  destruct Hd as (b2 & q2 & E2 & _); [reflexivity | simpl; lia |].
  split; [reflexivity|]. split; [reflexivity|].
  split; [apply Ha; reflexivity | apply Hb; [reflexivity | simpl; lia]].
Defined.

(** ** Validation of a proposed trade *)











(** ** A validated trade in the evaluation *)







(** ** Order of the levels *)

Lemma insertLevelDesc_sorted (x : SRLevel.t) (l : list SRLevel.t) :
  Sorted descendingPrice l -> Sorted descendingPrice (insertLevelDesc x l).
Proof.
  induction l as [|h l IH]; intros H; cbn [insertLevelDesc].
  - constructor; constructor.
  - destruct (leb (SRLevel.price h) (SRLevel.price x)) eqn:E.
    + constructor; [exact H | constructor; apply leb_true, E].
    + apply leb_false in E. inversion H as [|? ? Hs Hhd]; subst.
      constructor; [apply IH, Hs|].
      destruct l as [|h' l']; cbn [insertLevelDesc].
      * constructor. unfold descendingPrice. lra.
      * destruct (leb (SRLevel.price h') (SRLevel.price x)).
        -- constructor. unfold descendingPrice. lra.
        -- inversion Hhd; subst. constructor. assumption.
Qed.

Lemma sortLevelsDesc_sorted (l : list SRLevel.t) :
  StronglySorted descendingPrice (sortLevelsDesc l).
Proof.
  apply Sorted_StronglySorted.
  - intros a b c Hab Hbc. unfold descendingPrice in *. lra.
  - induction l as [|x l IH]; [constructor|].
    apply insertLevelDesc_sorted, IH.
Qed.

(** X27.  [identifySRLevels] returns no level when the ATR is 0 or
    negative.  For a positive ATR the levels come in descending order of
    price and are, up to that order, the resistance levels of the clusters
    of swing highs followed by the support levels of the clusters of swing
    lows. *)
Theorem identifySRLevels_descending
    (swingHighs swingLows : list Swing.t) (atrValue threshold : Q) :
  let levels := identifySRLevels swingHighs swingLows atrValue threshold in
  (atrValue <= 0 -> levels = [])
  /\ (0 < atrValue ->
      StronglySorted descendingPrice levels
      /\ Permutation levels
           (map (mkLevel "resistance")
              (clusterSwings swingHighs (atrValue * threshold))
            ++ map (mkLevel "support")
                 (clusterSwings swingLows (atrValue * threshold)))).
Proof.
  intros levels. subst levels. split.
  - intros H. unfold identifySRLevels.
    replace (leb atrValue 0) with true by (symmetry; apply leb_true, H).
    rewrite orb_true_r. reflexivity.
  - intros H. rewrite (identifySRLevels_unfold _ _ _ _ H).
    split; [apply sortLevelsDesc_sorted | apply sortLevelsDesc_perm].
Qed.

Lemma identifySRLevels_descending_witness :
  StronglySorted descendingPrice
    (identifySRLevels sampleSwings [swingAt 1 0; swingAt 1.1 1] 1 0.5).
Proof.
  destruct (identifySRLevels_descending sampleSwings
              [swingAt 1 0; swingAt 1.1 1] 1 0.5) as [_ H].
  apply H. reflexivity.
Defined.

(** ** Momentum flags and the nearby level of the bundle *)





(** ** Prices sent for analysis *)






